(** * Learning_NEURON.py: a ring of ball-and-stick cells driven through NEURON

    The script is glue code around an external simulator.  This file embeds
    the script as a program in a state-and-exception monad over an object
    store that mirrors what the script can observe of the simulator: the
    sections, point processes, connections and vectors it creates, the
    Python-side [Cell] objects, and the sequence of simulator and plotting
    calls it issues.  What the simulator computes on its own (trigonometry,
    default 3-D shapes, the samples an integration run records) is a
    parameter, [Engine]. *)

From Stdlib Require Import ZArith Floats Lia Bool.
From stdpp Require Import base option list list_numbers strings pretty.

Set Warnings "-inexact-float".
Open Scope Z_scope.

(** ** Python numbers *)

(** Exceptions the modelled fragment of Python can raise.  [RuntimeError]
    is an error reported by the simulator; [BadHandle] is a use of an object
    that was never created, which Python's references rule out. *)
Inductive pyerr :=
| IndexError
| OverflowError
| ZeroDivisionError
| AttributeError
| RuntimeError
| ValueError
| BadHandle.

Inductive result (A : Type) :=
| Ret (a : A)
| Exc (e : pyerr).
Arguments Ret {A} a.
Arguments Exc {A} e.

#[global] Instance result_ret : MRet result := fun A a => Ret a.
#[global] Instance result_bind : MBind result := fun A B f r =>
  match r with
  | Ret a => f a
  | Exc e => Exc e
  end.

(** A Python number is an [int] (unbounded) or a [float] (binary64). *)
Inductive pynum :=
| PInt (z : Z)
| PFloat (f : float).

(** Integers at or beyond this magnitude round to infinity and make
    [float(z)] raise [OverflowError]: the midpoint between the largest
    double and [2^1024]. *)
Definition float_int_bound : Z := 2 ^ 1024 - 2 ^ 970.

(** [float(z)]: round to nearest, ties to even. *)
Definition float_of_int (z : Z) : result float :=
  if Z.abs z <? float_int_bound
  then Ret (SF2Prim (binary_normalize prec emax z 0 false))
  else Exc OverflowError.

(** Coercion of a number to a double, as done by float arithmetic on a
    mixed pair and by the simulator on every numeric argument. *)
Definition to_float (v : pynum) : result float :=
  match v with
  | PInt z => float_of_int z
  | PFloat f => Ret f
  end.

Definition py_arith (iop : Z -> Z -> Z) (fop : float -> float -> float)
    (a b : pynum) : result pynum :=
  match a, b with
  | PInt x, PInt y => Ret (PInt (iop x y))
  | _, _ =>
      x ← to_float a;
      y ← to_float b;
      Ret (PFloat (fop x y))
  end.

Definition py_mul : pynum -> pynum -> result pynum := py_arith Z.mul PrimFloat.mul.
Definition py_add : pynum -> pynum -> result pynum := py_arith Z.add PrimFloat.add.
Definition py_sub : pynum -> pynum -> result pynum := py_arith Z.sub PrimFloat.sub.

(** [a / b] with a float on the left, the only true division the source
    performs.  An [int] divisor is converted first; it is zero as a float
    exactly when it is [0]. *)
Definition float_truediv (a : float) (b : pynum) : result float :=
  match b with
  | PInt z =>
      if decide (z = 0)
      then Exc ZeroDivisionError
      else y ← float_of_int z; Ret (a / y)%float
  | PFloat y =>
      if is_zero y then Exc ZeroDivisionError else Ret (a / y)%float
  end.

(** [str(z)] of an [int]: its decimal digits.  CPython refuses to convert
    an integer of more than 4300 digits, that is, one of magnitude [10^4300]
    or more, with [ValueError]. *)
Definition max_str_digits : Z := 4300.

Definition int_str (z : Z) : result string :=
  if Z.abs z <? 10 ^ max_str_digits then Ret (pretty z) else Exc ValueError.

(** The simulator keeps 3-D data in single precision: a double handed to it
    is rounded to the nearest binary32 value, ties to even, and is read back
    as that value. *)
Definition to_single (f : float) : float :=
  match Prim2SF f with
  | S754_finite s m e => SF2Prim (binary_round 24 128 s m e)
  | _ => f
  end.

(** [neuron.units]: every unit the script multiplies by is the integer 1. *)
Definition um : pynum := PInt 1.
Definition ms : pynum := PInt 1.
Definition mV : pynum := PInt 1.

(** ** The object store *)

(** A 3-D point of a section, as [pt3dadd]/[pt3dchange] see it. *)
Record Pt3d := mkPt {
  pt_x : float;
  pt_y : float;
  pt_z : float;
  pt_diam : float
}.

(** Parameters of the inserted mechanisms; [None] is the simulator's
    default, which the script never reads. *)
Record HH := mkHH {
  hh_gnabar : option float;
  hh_gkbar : option float;
  hh_gl : option float;
  hh_el : option float
}.

Record Pas := mkPas {
  pas_g : option float;
  pas_e : option float
}.

(** A morphological section.  Handles of simulator objects are indices
    into the store of their kind. *)
Record Sec := mkSec {
  sec_name : string;
  sec_parent : option nat;
  sec_L : option float;
  sec_diam : option float;
  sec_Ra : option float;
  sec_cm : option float;
  sec_hh : option HH;
  sec_pas : option Pas;
  sec_pts : list Pt3d
}.

Record ExpSyn := mkExpSyn {
  syn_sec : nat;
  syn_loc : float;
  syn_tau : option float
}.

Record NetStim := mkNetStim {
  stim_number : option float;
  stim_start : option float
}.

(** A pointer to a state variable, as [_ref_v], [_ref_t], [_ref_i]. *)
Inductive ref :=
| RefV (sec : nat) (loc : float)
| RefT
| RefSynI (syn : nat).

(** What a [NetCon] listens to: an event source object, or a pointer to a
    variable that is watched for threshold crossings. *)
Inductive source :=
| SrcStim (k : nat)
| SrcRef (r : ref).

Record NetCon := mkNetCon {
  nc_source : source;
  nc_target : nat;
  nc_sec : option nat;
  nc_weight0 : option float;
  nc_delay : option float;
  nc_record : option nat
}.

Record Vector := mkVector {
  vec_record : option ref;
  vec_data : list float
}.

(** A Python [Cell] instance; an attribute is [None] until assigned. *)
Record Cell := mkCell {
  c_id : option pynum;
  c_soma : option nat;
  c_dend : option nat;
  c_all : option (list nat);
  c_x : option pynum;
  c_y : option pynum;
  c_z : option pynum
}.

(** Calls that cross into the simulator or the plotting library. *)
Inductive event :=
| EvLoadFile (f : string)
| EvSection (s : nat)
| EvConnect (child parent : nat)
| EvSecSet (s : nat) (attr : string) (v : float)
| EvInsert (s : nat) (mech : string)
| EvMechSet (s : nat) (mech attr : string) (v : float)
| EvPt3dchange (s i : nat)
| EvDefineShape
| EvTopology
| EvNetStim (k : nat)
| EvStimSet (k : nat) (attr : string) (v : float)
| EvExpSyn (k : nat)
| EvSynSet (k : nat) (attr : string) (v : float)
| EvNetCon (k : nat)
| EvSetWeight (k : nat) (v : float)
| EvSetDelay (k : nat) (v : float)
| EvVector (v : nat)
| EvVecRecord (v : nat) (r : ref)
| EvNetConRecord (k v : nat)
| EvFinitialize (v : float)
| EvContinuerun (tstop : float)
| EvAsNumpy (v : nat)
| EvFigure
| EvVlines (xs : list float) (ymin ymax : pynum)
| EvXlabel (s : string)
| EvYlabel (s : string)
| EvShow.

Record State := mkState {
  secs : list Sec;
  pps : list ExpSyn;
  stims : list NetStim;
  ncs : list NetCon;
  vecs : list Vector;
  cells : list Cell;
  log : list event
}.

Definition init_state : State := mkState [] [] [] [] [] [] [].

(** What the simulator decides on its own. *)
Record Engine := mkEngine {
  hoc_PI : float;
  hoc_cos : float -> float;
  hoc_sin : float -> float;
  (** the 3-D points a section has after [define_shape], given the store
      the call finds and the index of the section: a first one and the
      others *)
  shape_of : list Sec -> nat -> Pt3d * list Pt3d;
  (** the length and the diameter the simulator derives from the 3-D points
      of a section *)
  length_of : list Pt3d -> float;
  diam_of : list Pt3d -> float;
  (** the samples a run up to [tstop] leaves in a recording vector *)
  samples_of : State -> ref -> float -> list float;
  (** the spike times a run up to [tstop] records for a connection *)
  spikes_of : State -> nat -> float -> list float
}.

(** ** The monad: state passing with exceptions *)

Definition Py (A : Type) : Type := State -> result (A * State).

#[global] Instance Py_ret : MRet Py := fun A a st => Ret (a, st).
#[global] Instance Py_bind : MBind Py := fun A B f m st =>
  match m st with
  | Ret (a, st') => f a st'
  | Exc e => Exc e
  end.

Definition lift {A} (r : result A) : Py A := fun st =>
  match r with
  | Ret a => Ret (a, st)
  | Exc e => Exc e
  end.

Definition raise {A} (e : pyerr) : Py A := fun _ => Exc e.
Definition get : Py State := fun st => Ret (st, st).
Definition put (st : State) : Py unit := fun _ => Ret (tt, st).

Definition emit (e : event) : Py unit := fun st =>
  Ret (tt, mkState (secs st) (pps st) (stims st) (ncs st) (vecs st) (cells st)
             (log st ++ [e])).

Definition with_secs (f : list Sec -> list Sec) (st : State) : State :=
  mkState (f (secs st)) (pps st) (stims st) (ncs st) (vecs st) (cells st) (log st).
Definition with_pps (f : list ExpSyn -> list ExpSyn) (st : State) : State :=
  mkState (secs st) (f (pps st)) (stims st) (ncs st) (vecs st) (cells st) (log st).
Definition with_stims (f : list NetStim -> list NetStim) (st : State) : State :=
  mkState (secs st) (pps st) (f (stims st)) (ncs st) (vecs st) (cells st) (log st).
Definition with_ncs (f : list NetCon -> list NetCon) (st : State) : State :=
  mkState (secs st) (pps st) (stims st) (f (ncs st)) (vecs st) (cells st) (log st).
Definition with_vecs (f : list Vector -> list Vector) (st : State) : State :=
  mkState (secs st) (pps st) (stims st) (ncs st) (f (vecs st)) (cells st) (log st).
Definition with_cells (f : list Cell -> list Cell) (st : State) : State :=
  mkState (secs st) (pps st) (stims st) (ncs st) (vecs st) (f (cells st)) (log st).

(** Allocation in, read from and in-place update of one of the stores. *)
Definition alloc {A} (sel : State -> list A)
    (upd : (list A -> list A) -> State -> State) (a : A) : Py nat := fun st =>
  Ret (length (sel st), upd (fun l => l ++ [a]) st).

Definition fetch {A} (sel : State -> list A) (k : nat) : Py A := fun st =>
  match sel st !! k with
  | Some a => Ret (a, st)
  | None => Exc BadHandle
  end.

Definition update {A} (sel : State -> list A)
    (upd : (list A -> list A) -> State -> State) (k : nat) (f : A -> A) : Py unit :=
  fun st =>
    match sel st !! k with
    | Some a => Ret (tt, upd (fun l => <[k := f a]> l) st)
    | None => Exc BadHandle
    end.

(** [for x in l: body] and the accumulating variant. *)
Fixpoint for_each {A} (l : list A) (body : A -> Py unit) : Py unit :=
  match l with
  | [] => mret tt
  | a :: l' => body a;; for_each l' body
  end.

Fixpoint for_fold {A S} (l : list A) (acc : S) (body : S -> A -> Py S) : Py S :=
  match l with
  | [] => mret acc
  | a :: l' => acc' ← body acc a; for_fold l' acc' body
  end.

Definition py_index {A} (l : list A) (i : nat) : Py A :=
  match l !! i with
  | Some a => mret a
  | None => raise IndexError
  end.

(** ** The simulator's interface, as far as the script uses it *)

Section Simulator.
Context (E : Engine).

Definition load_file (f : string) : Py unit := emit (EvLoadFile f).

(** *** Sections *)

Definition sec_set_parent (p : nat) (s : Sec) : Sec :=
  mkSec (sec_name s) (Some p) (sec_L s) (sec_diam s) (sec_Ra s) (sec_cm s)
        (sec_hh s) (sec_pas s) (sec_pts s).
Definition sec_set_L (v : float) (s : Sec) : Sec :=
  mkSec (sec_name s) (sec_parent s) (Some v) (sec_diam s) (sec_Ra s) (sec_cm s)
        (sec_hh s) (sec_pas s) (sec_pts s).
Definition sec_set_diam (v : float) (s : Sec) : Sec :=
  mkSec (sec_name s) (sec_parent s) (sec_L s) (Some v) (sec_Ra s) (sec_cm s)
        (sec_hh s) (sec_pas s) (sec_pts s).
Definition sec_set_Ra (v : float) (s : Sec) : Sec :=
  mkSec (sec_name s) (sec_parent s) (sec_L s) (sec_diam s) (Some v) (sec_cm s)
        (sec_hh s) (sec_pas s) (sec_pts s).
Definition sec_set_cm (v : float) (s : Sec) : Sec :=
  mkSec (sec_name s) (sec_parent s) (sec_L s) (sec_diam s) (sec_Ra s) (Some v)
        (sec_hh s) (sec_pas s) (sec_pts s).
Definition sec_set_hh (h : HH) (s : Sec) : Sec :=
  mkSec (sec_name s) (sec_parent s) (sec_L s) (sec_diam s) (sec_Ra s) (sec_cm s)
        (Some h) (sec_pas s) (sec_pts s).
Definition sec_set_pas (p : Pas) (s : Sec) : Sec :=
  mkSec (sec_name s) (sec_parent s) (sec_L s) (sec_diam s) (sec_Ra s) (sec_cm s)
        (sec_hh s) (Some p) (sec_pts s).
Definition sec_set_pts (pts : list Pt3d) (s : Sec) : Sec :=
  mkSec (sec_name s) (sec_parent s) (sec_L s) (sec_diam s) (sec_Ra s) (sec_cm s)
        (sec_hh s) (sec_pas s) pts.

(** [n.Section(name=...)] *)
Definition Section_new (name : string) : Py nat :=
  s ← alloc secs with_secs (mkSec name None None None None None None None []);
  emit (EvSection s);;
  mret s.

(** [child.connect(parent)] *)
Definition connect (child parent : nat) : Py unit :=
  fetch secs parent;;
  update secs with_secs child (sec_set_parent parent);;
  emit (EvConnect child parent).

Definition sec_assign (attr : string) (set : float -> Sec -> Sec)
    (s : nat) (v : pynum) : Py unit :=
  f ← lift (to_float v);
  update secs with_secs s (set f);;
  emit (EvSecSet s attr f).

Definition set_L : nat -> pynum -> Py unit := sec_assign "L" sec_set_L.
Definition set_diam : nat -> pynum -> Py unit := sec_assign "diam" sec_set_diam.
Definition set_Ra : nat -> pynum -> Py unit := sec_assign "Ra" sec_set_Ra.
Definition set_cm : nat -> pynum -> Py unit := sec_assign "cm" sec_set_cm.

(** A segment [sec(x)]; the simulator refuses [x] outside [0, 1]. *)
Record Seg := mkSeg {
  seg_sec : nat;
  seg_x : float
}.

Definition sec_call (s : nat) (x : float) : Py Seg :=
  fetch secs s;;
  if ((0 <=? x) && (x <=? 1))%float then mret (mkSeg s x) else raise RuntimeError.

(** [for seg in sec]: the segment centres.  No section of the script is
    given an [nseg], so each has the single default segment. *)
Definition segments (s : nat) : Py (list Seg) :=
  fetch secs s;;
  mret [mkSeg s 0.5%float].

(** [sec.insert(n.hh)], [sec.insert(n.pas)] *)
Definition insert_hh (s : nat) : Py unit :=
  update secs with_secs s (sec_set_hh (mkHH None None None None));;
  emit (EvInsert s "hh").

Definition insert_pas (s : nat) : Py unit :=
  update secs with_secs s (sec_set_pas (mkPas None None));;
  emit (EvInsert s "pas").

(** [seg.hh.<attr> = v]: an error when the mechanism is not there. *)
Definition hh_assign (attr : string) (set : float -> HH -> HH)
    (seg : Seg) (v : pynum) : Py unit :=
  sc ← fetch secs (seg_sec seg);
  match sec_hh sc with
  | None => raise AttributeError
  | Some h =>
      f ← lift (to_float v);
      update secs with_secs (seg_sec seg) (sec_set_hh (set f h));;
      emit (EvMechSet (seg_sec seg) "hh" attr f)
  end.

Definition set_gnabar : Seg -> pynum -> Py unit :=
  hh_assign "gnabar" (fun f h => mkHH (Some f) (hh_gkbar h) (hh_gl h) (hh_el h)).
Definition set_gkbar : Seg -> pynum -> Py unit :=
  hh_assign "gkbar" (fun f h => mkHH (hh_gnabar h) (Some f) (hh_gl h) (hh_el h)).
Definition set_gl : Seg -> pynum -> Py unit :=
  hh_assign "gl" (fun f h => mkHH (hh_gnabar h) (hh_gkbar h) (Some f) (hh_el h)).
Definition set_el : Seg -> pynum -> Py unit :=
  hh_assign "el" (fun f h => mkHH (hh_gnabar h) (hh_gkbar h) (hh_gl h) (Some f)).

Definition pas_assign (attr : string) (set : float -> Pas -> Pas)
    (seg : Seg) (v : pynum) : Py unit :=
  sc ← fetch secs (seg_sec seg);
  match sec_pas sc with
  | None => raise AttributeError
  | Some p =>
      f ← lift (to_float v);
      update secs with_secs (seg_sec seg) (sec_set_pas (set f p));;
      emit (EvMechSet (seg_sec seg) "pas" attr f)
  end.

Definition set_pas_g : Seg -> pynum -> Py unit :=
  pas_assign "g" (fun f p => mkPas (Some f) (pas_e p)).
Definition set_pas_e : Seg -> pynum -> Py unit :=
  pas_assign "e" (fun f p => mkPas (pas_g p) (Some f)).

(** *** 3-D points *)

Definition n3d (s : nat) : Py nat :=
  sc ← fetch secs s;
  mret (length (sec_pts sc)).

Definition pt3d (proj : Pt3d -> float) (s i : nat) : Py float :=
  sc ← fetch secs s;
  match sec_pts sc !! i with
  | Some p => mret (proj p)
  | None => raise RuntimeError
  end.

Definition x3d : nat -> nat -> Py float := pt3d pt_x.
Definition y3d : nat -> nat -> Py float := pt3d pt_y.
Definition z3d : nat -> nat -> Py float := pt3d pt_z.
Definition diam3d : nat -> nat -> Py float := pt3d pt_diam.

(** A point as the simulator stores it. *)
Definition store_pt (q : Pt3d) : Pt3d :=
  mkPt (to_single (pt_x q)) (to_single (pt_y q)) (to_single (pt_z q))
       (to_single (pt_diam q)).

(** After its 3-D points have changed, a section reads the length and the
    diameter the simulator derives from them. *)
Definition remeasure (sc : Sec) : Sec :=
  sec_set_diam (diam_of E (sec_pts sc)) (sec_set_L (length_of E (sec_pts sc)) sc).

(** [sec.pt3dchange(i, x, y, z, diam)] *)
Definition pt3dchange (s i : nat) (x y z d : pynum) : Py unit :=
  x' ← lift (to_float x);
  y' ← lift (to_float y);
  z' ← lift (to_float z);
  d' ← lift (to_float d);
  sc ← fetch secs s;
  if decide (i < length (sec_pts sc))%nat
  then
    update secs with_secs s
      (fun sc => remeasure
                   (sec_set_pts (<[i := store_pt (mkPt x' y' z' d')]> (sec_pts sc)) sc));;
    emit (EvPt3dchange s i)
  else raise RuntimeError.

(** *** The section tree *)

Definition parent_of (ss : list Sec) (s : nat) : option nat :=
  sc ← ss !! s; sec_parent sc.

Definition children (ss : list Sec) (p : nat) : list nat :=
  filter (fun j => parent_of ss j = Some p) (seq 0 (length ss)).

Fixpoint root_of (fuel : nat) (ss : list Sec) (s : nat) : nat :=
  match fuel with
  | O => s
  | S fuel' =>
      match parent_of ss s with
      | Some p => root_of fuel' ss p
      | None => s
      end
  end.

Fixpoint subtree (fuel : nat) (ss : list Sec) (s : nat) : list nat :=
  match fuel with
  | O => []
  | S fuel' => s :: concat (map (subtree fuel' ss) (children ss s))
  end.

(** [sec.wholetree()]: every section of the tree [sec] is in, root first. *)
Definition wholetree (s : nat) : Py (list nat) :=
  fetch secs s;;
  st ← get;
  let ss := secs st in
  mret (subtree (length ss) ss (root_of (length ss) ss s)).

(** [n.define_shape()]: every section gets the 3-D points the simulator
    chooses for it, and from then on reads the diameter the simulator
    derives from them; the length reads as before. *)
Definition reshape (pts : list Pt3d) (sc : Sec) : Sec :=
  sec_set_diam (diam_of E pts) (sec_set_pts pts sc).

Definition shape_fill (ss : list Sec) : list Sec :=
  imap (fun i sc => reshape (fst (shape_of E ss i) :: snd (shape_of E ss i)) sc) ss.

Definition define_shape : Py unit :=
  st ← get;
  put (with_secs shape_fill st);;
  emit EvDefineShape.

Definition topology : Py unit := emit EvTopology.

(** The argument of a function of the interpreter is coerced to a double;
    one that cannot be is reported by the simulator as [RuntimeError]. *)
Definition hoc_arg (v : pynum) : Py float :=
  match to_float v with
  | Ret x => mret x
  | Exc _ => raise RuntimeError
  end.

(** [n.cos], [n.sin] *)
Definition n_cos (v : pynum) : Py float :=
  x ← hoc_arg v; mret (hoc_cos E x).
Definition n_sin (v : pynum) : Py float :=
  x ← hoc_arg v; mret (hoc_sin E x).

(** *** Stimuli, synapses, connections *)

(** [n.NetStim()] *)
Definition NetStim_new : Py nat :=
  k ← alloc stims with_stims (mkNetStim None None);
  emit (EvNetStim k);;
  mret k.

Definition stim_assign (attr : string) (set : float -> NetStim -> NetStim)
    (k : nat) (v : pynum) : Py unit :=
  f ← lift (to_float v);
  update stims with_stims k (set f);;
  emit (EvStimSet k attr f).

Definition set_number : nat -> pynum -> Py unit :=
  stim_assign "number" (fun f s => mkNetStim (Some f) (stim_start s)).
Definition set_start : nat -> pynum -> Py unit :=
  stim_assign "start" (fun f s => mkNetStim (stim_number s) (Some f)).

(** [n.ExpSyn(seg)] *)
Definition ExpSyn_new (seg : Seg) : Py nat :=
  fetch secs (seg_sec seg);;
  k ← alloc pps with_pps (mkExpSyn (seg_sec seg) (seg_x seg) None);
  emit (EvExpSyn k);;
  mret k.

(** [syn.tau = v] *)
Definition set_tau (k : nat) (v : pynum) : Py unit :=
  f ← lift (to_float v);
  update pps with_pps k (fun s => mkExpSyn (syn_sec s) (syn_loc s) (Some f));;
  emit (EvSynSet k "tau" f).

(** [seg._ref_v], [syn._ref_i] *)
Definition ref_v (seg : Seg) : ref := RefV (seg_sec seg) (seg_x seg).
Definition ref_i (k : nat) : ref := RefSynI k.

Definition check_ref (r : ref) : Py unit :=
  match r with
  | RefV s _ => fetch secs s;; mret tt
  | RefT => mret tt
  | RefSynI k => fetch pps k;; mret tt
  end.

(** [n.NetCon(source, target)] and [n.NetCon(ref, target, sec=...)] *)
Definition NetCon_new (src : source) (target : nat) (sec : option nat) : Py nat :=
  match src with
  | SrcStim k => fetch stims k;; mret tt
  | SrcRef r => check_ref r
  end;;
  fetch pps target;;
  match sec with
  | Some s => fetch secs s;; mret tt
  | None => mret tt
  end;;
  k ← alloc ncs with_ncs (mkNetCon src target sec None None None);
  emit (EvNetCon k);;
  mret k.

(** [nc.weight[0] = v] *)
Definition set_weight0 (k : nat) (v : pynum) : Py unit :=
  f ← lift (to_float v);
  update ncs with_ncs k
    (fun c => mkNetCon (nc_source c) (nc_target c) (nc_sec c) (Some f)
                       (nc_delay c) (nc_record c));;
  emit (EvSetWeight k f).

(** [nc.delay = v] *)
Definition set_delay (k : nat) (v : pynum) : Py unit :=
  f ← lift (to_float v);
  update ncs with_ncs k
    (fun c => mkNetCon (nc_source c) (nc_target c) (nc_sec c) (nc_weight0 c)
                       (Some f) (nc_record c));;
  emit (EvSetDelay k f).

(** *** Recording *)

(** [n.Vector()] *)
Definition Vector_new : Py nat :=
  v ← alloc vecs with_vecs (mkVector None []);
  emit (EvVector v);;
  mret v.

(** [vec.record(ref)]; it returns the vector. *)
Definition record (v : nat) (r : ref) : Py nat :=
  check_ref r;;
  update vecs with_vecs v (fun x => mkVector (Some r) (vec_data x));;
  emit (EvVecRecord v r);;
  mret v.

(** [nc.record(vec)] *)
Definition nc_record_into (k v : nat) : Py unit :=
  fetch vecs v;;
  update ncs with_ncs k
    (fun c => mkNetCon (nc_source c) (nc_target c) (nc_sec c) (nc_weight0 c)
                       (nc_delay c) (Some v));;
  emit (EvNetConRecord k v).

(** The connection that records its spike times into vector [v]. *)
Definition spike_recorder (st : State) (v : nat) : option nat :=
  fst <$> list_find (fun c => nc_record c = Some v) (ncs st).

(** What a run writes into a vector: samples of the variable it records,
    spike times of the connection that records into it, or nothing. *)
Definition refill (st : State) (samples : ref -> list float)
    (spikes : nat -> list float) (v : nat) (x : Vector) : Vector :=
  match vec_record x with
  | Some r => mkVector (Some r) (samples r)
  | None =>
      match spike_recorder st v with
      | Some k => mkVector None (spikes k)
      | None => x
      end
  end.

(** [n.finitialize(v)]: recording vectors are reset; the sample taken at
    initialisation is counted with those of the run. *)
Definition finitialize (v : pynum) : Py unit :=
  f ← lift (to_float v);
  emit (EvFinitialize f);;
  st ← get;
  put (with_vecs (imap (refill st (fun _ => []) (fun _ => []))) st).

(** [n.continuerun(tstop)]: integrates up to [tstop] and returns. *)
Definition continuerun (tstop : pynum) : Py unit :=
  t ← lift (to_float tstop);
  emit (EvContinuerun t);;
  st ← get;
  put (with_vecs
         (imap (refill st (fun r => samples_of E st r t) (fun k => spikes_of E st k t)))
         st).

(** [vec.as_numpy()] *)
Definition as_numpy (v : nat) : Py (list float) :=
  x ← fetch vecs v;
  emit (EvAsNumpy v);;
  mret (vec_data x).

(** *** matplotlib *)

Definition plt_figure : Py unit := emit EvFigure.
Definition plt_vlines (xs : list float) (ymin ymax : pynum) : Py unit :=
  emit (EvVlines xs ymin ymax).
Definition plt_xlabel (s : string) : Py unit := emit (EvXlabel s).
Definition plt_ylabel (s : string) : Py unit := emit (EvYlabel s).
Definition plt_show : Py unit := emit EvShow.

End Simulator.

(** ** The classes of the script *)

Section Script.
Context (E : Engine).

Definition getattr {A} (proj : Cell -> option A) (self : nat) : Py A :=
  c ← fetch cells self;
  match proj c with
  | Some a => mret a
  | None => raise AttributeError
  end.

Definition setattr (set : Cell -> Cell) (self : nat) : Py unit :=
  update cells with_cells self set.

Definition cell_set_id (v : pynum) (c : Cell) : Cell :=
  mkCell (Some v) (c_soma c) (c_dend c) (c_all c) (c_x c) (c_y c) (c_z c).
Definition cell_set_soma (s : nat) (c : Cell) : Cell :=
  mkCell (c_id c) (Some s) (c_dend c) (c_all c) (c_x c) (c_y c) (c_z c).
Definition cell_set_dend (s : nat) (c : Cell) : Cell :=
  mkCell (c_id c) (c_soma c) (Some s) (c_all c) (c_x c) (c_y c) (c_z c).
Definition cell_set_all (l : list nat) (c : Cell) : Cell :=
  mkCell (c_id c) (c_soma c) (c_dend c) (Some l) (c_x c) (c_y c) (c_z c).
Definition cell_set_x (v : pynum) (c : Cell) : Cell :=
  mkCell (c_id c) (c_soma c) (c_dend c) (c_all c) (Some v) (c_y c) (c_z c).
Definition cell_set_y (v : pynum) (c : Cell) : Cell :=
  mkCell (c_id c) (c_soma c) (c_dend c) (c_all c) (c_x c) (Some v) (c_z c).
Definition cell_set_z (v : pynum) (c : Cell) : Cell :=
  mkCell (c_id c) (c_soma c) (c_dend c) (c_all c) (c_x c) (c_y c) (Some v).

(** [Cell.set_position] *)
Definition set_position (self : nat) (x y z : pynum) : Py unit :=
  all ← getattr c_all self;
  for_each all (fun sec =>
    k ← n3d sec;
    for_each (seq 0 k) (fun i =>
      sx ← getattr c_x self;
      dx ← lift (py_sub x sx);
      px ← x3d sec i;
      nx ← lift (py_add dx (PFloat px));
      sy ← getattr c_y self;
      dy ← lift (py_sub y sy);
      py ← y3d sec i;
      ny ← lift (py_add dy (PFloat py));
      sz ← getattr c_z self;
      dz ← lift (py_sub z sz);
      pz ← z3d sec i;
      nz ← lift (py_add dz (PFloat pz));
      d ← diam3d sec i;
      pt3dchange E sec i nx ny nz (PFloat d)));;
  setattr (cell_set_x x) self;;
  setattr (cell_set_y y) self;;
  setattr (cell_set_z z) self.

(** One step of the inner loop of [Cell.rotate_z]. *)
Definition rotate_point (theta : pynum) (sec i : nat) : Py unit :=
  x ← x3d sec i;
  y ← y3d sec i;
  c1 ← n_cos E theta;
  s1 ← n_sin E theta;
  let x_new := (x * c1 - y * s1)%float in
  s2 ← n_sin E theta;
  c2 ← n_cos E theta;
  let y_new := (x * s2 + y * c2)%float in
  z ← z3d sec i;
  d ← diam3d sec i;
  pt3dchange E sec i (PFloat x_new) (PFloat y_new) (PFloat z) (PFloat d).

(** [Cell.rotate_z] *)
Definition rotate_z (self : nat) (theta : pynum) : Py unit :=
  all ← getattr c_all self;
  for_each all (fun sec =>
    k ← n3d sec;
    for_each (seq 0 k) (rotate_point theta sec)).

(** The two hooks a subclass of [Cell] provides. *)
Record CellClass := mkCellClass {
  cls_name : string;
  cls_setup_morphology : nat -> Py unit;
  cls_setup_biophysics : nat -> Py unit
}.

(** [Cell.__init__] *)
Definition Cell_init (cls : CellClass) (self : nat) (id_ x y z theta : pynum) : Py unit :=
  setattr (cell_set_id id_) self;;
  cls_setup_morphology cls self;;
  soma ← getattr c_soma self;
  all ← wholetree soma;
  setattr (cell_set_all all) self;;
  cls_setup_biophysics cls self;;
  setattr (cell_set_x x) self;;
  setattr (cell_set_y y) self;;
  setattr (cell_set_z z) self;;
  rotate_z self theta;;
  define_shape E.

(** [str(v)] of a number, as an f-string formats it: the decimal digits of
    an [int], if it has no more than Python allows; the text of a [float]
    is given by [float_str]. *)
Definition py_str (float_str : float -> string) (v : pynum) : result string :=
  match v with
  | PInt z => int_str z
  | PFloat f => Ret (float_str f)
  end.

(** [Cell.__repr__]: the class attribute [name] and the id. *)
Definition Cell_repr (float_str : float -> string) (cls : CellClass) (self : nat)
    : Py string :=
  id_ ← getattr c_id self;
  s ← lift (py_str float_str id_);
  mret (cls_name cls +:+ "(id:" +:+ s +:+ ")").

(** [BallAndStick.setup_morphology] *)
Definition setup_morphology (self : nat) : Py unit :=
  soma ← Section_new "soma";
  setattr (cell_set_soma soma) self;;
  dend ← Section_new "dend";
  setattr (cell_set_dend dend) self;;
  dend ← getattr c_dend self;
  soma ← getattr c_soma self;
  connect dend soma;;
  v ← lift (py_mul (PFloat 12.6157) um);
  soma ← getattr c_soma self;
  set_L soma v;;
  soma ← getattr c_soma self;
  set_diam soma v;;
  v ← lift (py_mul (PInt 200) um);
  dend ← getattr c_dend self;
  set_L dend v;;
  v ← lift (py_mul (PInt 1) um);
  dend ← getattr c_dend self;
  set_diam dend v.

(** [BallAndStick.setup_biophysics] *)
Definition setup_biophysics (self : nat) : Py unit :=
  all ← getattr c_all self;
  for_each all (fun sec =>
    set_Ra sec (PInt 100);;
    set_cm sec (PInt 1));;
  soma ← getattr c_soma self;
  insert_hh soma;;
  soma ← getattr c_soma self;
  segs ← segments soma;
  for_each segs (fun seg =>
    set_gnabar seg (PFloat 0.12);;
    set_gkbar seg (PFloat 0.036);;
    set_gl seg (PFloat 0.0003);;
    set_el seg (PFloat (-54.3)));;
  dend ← getattr c_dend self;
  insert_pas dend;;
  dend ← getattr c_dend self;
  segs ← segments dend;
  for_each segs (fun seg =>
    set_pas_g seg (PFloat 0.001);;
    set_pas_e seg (PInt (-65))).

Definition BallAndStick_class : CellClass :=
  mkCellClass "BallAndStick" setup_morphology setup_biophysics.

(** [BallAndStick(id_, x=..., y=..., z=..., theta=...)]: a fresh object,
    then [__init__]. *)
Definition BallAndStick (id_ x y z theta : pynum) : Py nat :=
  self ← alloc cells with_cells (mkCell None None None None None None None);
  Cell_init BallAndStick_class self id_ x y z theta;;
  mret self.

(** The angle and the planar position [create_n_BallAndStick] computes for
    cell [i] of [n_cells] on a circle of radius [r]. *)
Definition ring_theta (n_cells i : Z) : result float :=
  a ← py_mul (PInt i) (PInt 2);
  b ← py_mul a (PFloat (hoc_PI E));
  b ← to_float b;
  float_truediv b (PInt n_cells).

(** The body of the loop of [create_n_BallAndStick]. *)
Definition create_cell (n_cells : Z) (r : pynum) (cells : list nat) (i : Z)
    : Py (list nat) :=
  theta ← lift (ring_theta n_cells i);
  c ← n_cos E (PFloat theta);
  x ← lift (py_mul (PFloat c) r);
  s ← n_sin E (PFloat theta);
  y ← lift (py_mul (PFloat s) r);
  cell ← BallAndStick (PInt i) x y (PInt 0) (PFloat theta);
  mret (cells ++ [cell]).

(** [create_n_BallAndStick] *)
Definition create_n_BallAndStick (n_cells : Z) (r : pynum) : Py (list nat) :=
  for_fold (seqZ 0 n_cells) [] (create_cell n_cells r).

End Script.

(** ** The script body *)

(** The module-level variables that are still bound when the script ends. *)
Record Env := mkEnv {
  my_cells : list nat;
  stim : nat;
  syn_ : nat;
  ncstim : nat;
  recording_cell : nat;
  v_vec : nat;
  t_vec : nat;
  d_vec : nat;
  syn_i : nat;
  syns : list nat;
  netcons : list nat;
  spike_times : list nat
}.

Section Main.
Context (E : Engine).

(** Lines 88-96: the stimulus, its synapse on [my_cells[0]] and the
    connection between the two. *)
Definition attach_stimulus (my_cells : list nat) : Py (nat * nat * nat) :=
  stim ← NetStim_new;
  c0 ← py_index my_cells 0;
  dend ← getattr c_dend c0;
  seg ← sec_call dend 0.5;
  syn_ ← ExpSyn_new seg;
  set_number stim (PInt 1);;
  v ← lift (py_mul (PInt 9) ms);
  set_start stim v;;
  ncstim ← NetCon_new (SrcStim stim) syn_ None;
  v ← lift (py_mul (PInt 1) ms);
  set_delay ncstim v;;
  set_weight0 ncstim (PFloat 0.04);;
  v ← lift (py_mul (PInt 2) ms);
  set_tau syn_ v;;
  mret (stim, syn_, ncstim).

(** Lines 99-103: the four continuous recordings. *)
Definition attach_recordings (my_cells : list nat) (syn_ : nat)
    : Py (nat * nat * nat * nat * nat) :=
  recording_cell ← py_index my_cells 0;
  vec ← Vector_new;
  soma ← getattr c_soma recording_cell;
  seg ← sec_call soma 0.5;
  v_vec ← record vec (ref_v seg);
  vec ← Vector_new;
  t_vec ← record vec RefT;
  vec ← Vector_new;
  dend ← getattr c_dend recording_cell;
  seg ← sec_call dend 0.5;
  d_vec ← record vec (ref_v seg);
  vec ← Vector_new;
  syn_i ← record vec (ref_i syn_);
  mret (recording_cell, v_vec, t_vec, d_vec, syn_i).

(** [zip(my_cells, my_cells[1:] + [my_cells[0]])] *)
Definition ring_pairs (my_cells : list nat) : Py (list (nat * nat)) :=
  c0 ← py_index my_cells 0;
  mret (zip my_cells (tail my_cells ++ [c0])).

(** The body of the loop of lines 107-113. *)
Definition connect_pair (acc : list nat * list nat) (p : nat * nat)
    : Py (list nat * list nat) :=
  let '(syns, netcons) := acc in
  let '(source, target) := p in
  dend ← getattr c_dend target;
  seg ← sec_call dend 0.5;
  syn ← ExpSyn_new seg;
  soma ← getattr c_soma source;
  seg ← sec_call soma 0.5;
  sec ← getattr c_soma source;
  netcon ← NetCon_new (SrcRef (ref_v seg)) syn (Some sec);
  set_weight0 netcon (PFloat 0.05);;
  set_delay netcon (PInt 5);;
  mret (syns ++ [syn], netcons ++ [netcon]).

(** Lines 105-113: the connection-building step. *)
Definition connect_ring (my_cells : list nat) : Py (list nat * list nat) :=
  pairs ← ring_pairs my_cells;
  for_fold pairs ([], []) connect_pair.

(** Lines 115-117: one spike-time vector per connection. *)
Definition record_spikes (netcons : list nat) : Py (list nat) :=
  spike_times ← for_fold netcons [] (fun acc nc =>
    v ← Vector_new; mret (acc ++ [v]));
  for_each (zip netcons spike_times) (fun p =>
    nc_record_into (fst p) (snd p));;
  mret spike_times.

(** Lines 7-82: the cells. *)
Definition build : Py (list nat) :=
  load_file "stdrun.hoc";;
  my_cells ← create_n_BallAndStick E 5 (PInt 50);
  topology;;
  mret my_cells.

(** Lines 7-103: everything before the connection-building step. *)
Definition wire_inputs
    : Py (list nat * (nat * nat * nat) * (nat * nat * nat * nat * nat)) :=
  my_cells ← build;
  s ← attach_stimulus my_cells;
  r ← attach_recordings my_cells (snd (fst s));
  mret (my_cells, s, r).

(** Lines 7-117: everything before the simulation is started. *)
Definition setup : Py Env :=
  '(my_cells, (stim, syn_, ncstim), (recording_cell, v_vec, t_vec, d_vec, syn_i))
    ← wire_inputs;
  '(syns, netcons) ← connect_ring my_cells;
  spike_times ← record_spikes netcons;
  mret (mkEnv my_cells stim syn_ ncstim recording_cell v_vec t_vec d_vec syn_i
              syns netcons spike_times).

(** Lines 119-120. *)
Definition simulate : Py unit :=
  v ← lift (py_mul (PInt (-65)) mV);
  finitialize v;;
  t ← lift (py_mul (PInt 100) ms);
  continuerun E t.

Definition enumerate {A} (l : list A) : list (Z * A) :=
  zip (seqZ 0 (Z.of_nat (length l))) l.

(** Lines 122-127. *)
Definition plot (env : Env) : Py unit :=
  plt_figure;;
  for_each (enumerate (spike_times env)) (fun p =>
    xs ← as_numpy (snd p);
    ymin ← lift (py_add (PInt (fst p)) (PFloat 0.5));
    ymax ← lift (py_add (PInt (fst p)) (PFloat 1.5));
    plt_vlines xs ymin ymax);;
  plt_xlabel "time (ms)";;
  plt_ylabel "Cell index";;
  plt_show.

(** The whole script, from the interpreter's first state. *)
Definition script : Py Env :=
  env ← setup;
  simulate;;
  plot env;;
  mret env.

End Main.

(** The length of the line through the points. *)
Fixpoint arc_length (pts : list Pt3d) : float :=
  match pts with
  | q :: (q' :: _) as rest =>
      (PrimFloat.sqrt ((pt_x q' - pt_x q) * (pt_x q' - pt_x q)
             + (pt_y q' - pt_y q) * (pt_y q' - pt_y q)
             + (pt_z q' - pt_z q) * (pt_z q' - pt_z q))
       + arc_length rest)%float
  | _ => 0%float
  end.

(** A simulator to run the script on: trigonometry by the first terms of
    the power series; a default shape that is a straight line along the
    x axis, from the origin or from the far end of the parent, kept in
    single precision; the length of a section the length of that line and
    its diameter that of its first point; and a run that records
    nothing. *)
Definition demo_engine : Engine :=
  mkEngine 3.141592653589793%float
    (fun x => (1 - x * x / 2 + x * x * x * x / 24)%float)
    (fun x => (x - x * x * x / 6)%float)
    (fun ss i =>
       match ss !! i with
       | Some sc =>
           let l := default 100%float (sec_L sc) in
           let d := to_single (default 500%float (sec_diam sc)) in
           let x0 :=
             match sec_parent sc ≫= (ss !!.) with
             | Some pa => to_single (default 100%float (sec_L pa))
             | None => 0%float
             end in
           (mkPt x0 0 0 d, [mkPt (to_single (x0 + l)) 0 0 d])
       | None => (mkPt 0 0 0 0, [])
       end)
    arc_length
    (fun pts =>
       match pts with
       | q :: _ => pt_diam q
       | [] => 500%float
       end)
    (fun _ _ _ => [])
    (fun _ _ _ => []).

(** ** Vocabulary of the specifications *)

Open Scope nat_scope.

(** Every parent link of the section store points at an existing section. *)
Definition parents_valid (ss : list Sec) : Prop :=
  forall j p, parent_of ss j = Some p -> p < length ss.

(** The soma and the dendrite as [BallAndStick] leaves them, up to their
    3-D points and the diameter they read. *)
Definition soma_sec (d : float) (pts : list Pt3d) : Sec :=
  mkSec "soma" None (Some 12.6157%float) (Some d)
        (Some 100%float) (Some 1%float)
        (Some (mkHH (Some 0.12%float) (Some 0.036%float) (Some 0.0003%float)
                    (Some (-54.3)%float)))
        None pts.

Definition dend_sec (soma : nat) (d : float) (pts : list Pt3d) : Sec :=
  mkSec "dend" (Some soma) (Some 200%float) (Some d)
        (Some 100%float) (Some 1%float) None
        (Some (mkPas (Some 0.001%float) (Some (-65)%float))) pts.

(** The two sections before [define_shape]: the diameters are the ones
    [setup_morphology] assigned and there are no 3-D points. *)
Definition new_soma : Sec := soma_sec 12.6157%float [].
Definition new_dend (soma : nat) : Sec := dend_sec soma 1%float [].

(** And after it, with the points [pts]: the diameter is the one the
    simulator derives from them. *)
Definition shaped_soma (E : Engine) (pts : list Pt3d) : Sec :=
  soma_sec (diam_of E pts) pts.
Definition shaped_dend (E : Engine) (soma : nat) (pts : list Pt3d) : Sec :=
  dend_sec soma (diam_of E pts) pts.

(** The object [BallAndStick(id_, x, y, z, theta)] leaves behind when its
    soma is section [k]. *)
Definition ball_and_stick (id_ x y z : pynum) (k : nat) : Cell :=
  mkCell (Some id_) (Some k) (Some (S k)) (Some [k; S k]) (Some x) (Some y) (Some z).

(** The simulator calls of one construction whose soma is section [k]. *)
Definition construction_log (k : nat) : list event :=
  [EvSection k; EvSection (S k); EvConnect (S k) k;
   EvSecSet k "L" 12.6157%float; EvSecSet k "diam" 12.6157%float;
   EvSecSet (S k) "L" 200%float; EvSecSet (S k) "diam" 1%float;
   EvSecSet k "Ra" 100%float; EvSecSet k "cm" 1%float;
   EvSecSet (S k) "Ra" 100%float; EvSecSet (S k) "cm" 1%float;
   EvInsert k "hh";
   EvMechSet k "hh" "gnabar" 0.12%float; EvMechSet k "hh" "gkbar" 0.036%float;
   EvMechSet k "hh" "gl" 0.0003%float; EvMechSet k "hh" "el" (-54.3)%float;
   EvInsert (S k) "pas";
   EvMechSet (S k) "pas" "g" 0.001%float; EvMechSet (S k) "pas" "e" (-65)%float;
   EvDefineShape].

(** The angle of cell [i] of [n_cells]: [i * 2 * PI / n_cells] in doubles. *)
Definition theta_of (E : Engine) (n_cells i : Z) : result float :=
  fi ← float_of_int (i * 2);
  fn ← float_of_int n_cells;
  Ret (fi * hoc_PI E / fn)%float.

(** [built E n_cells r l st cs st']: from [st], constructing one cell for
    each index [i] of [l], in order, at position
    [(r * cos theta_i, r * sin theta_i, 0)] and with rotation angle
    [theta_i], yields the cells [cs] and the state [st']. *)
Inductive built (E : Engine) (n_cells : Z) (r : float)
    : list Z -> State -> list nat -> State -> Prop :=
| built_nil st : built E n_cells r [] st [] st
| built_cons i l st c st1 cs st2 theta :
    theta_of E n_cells i = Ret theta ->
    BallAndStick E (PInt i)
      (PFloat (r * hoc_cos E theta)) (PFloat (r * hoc_sin E theta)) (PInt 0)
      (PFloat theta) st = Ret (c, st1) ->
    built E n_cells r l st1 cs st2 ->
    built E n_cells r (i :: l) st (c :: cs) st2.

(** The attributes of cell [c] in [st] are those of cell [i] of the ring. *)
Definition ring_cell_at (E : Engine) (n_cells : Z) (r : float) (st : State)
    (i : Z) (c : nat) : Prop :=
  exists cell theta,
    cells st !! c = Some cell /\
    theta_of E n_cells i = Ret theta /\
    c_id cell = Some (PInt i) /\
    c_x cell = Some (PFloat (r * hoc_cos E theta)) /\
    c_y cell = Some (PFloat (r * hoc_sin E theta)) /\
    c_z cell = Some (PInt 0).

(** ** The states the script goes through

    The objects below are given up to what the simulator chooses on its
    own: [p k] are the 3-D points of section [k], and [x i], [y i] the
    planar position stored in cell [i]. *)

Section ScriptStates.
Context (E : Engine) (p : nat -> list Pt3d) (x y : nat -> pynum).

Definition ring_secs : list Sec :=
  [shaped_soma E (p 0); shaped_dend E 0 (p 1);
   shaped_soma E (p 2); shaped_dend E 2 (p 3);
   shaped_soma E (p 4); shaped_dend E 4 (p 5);
   shaped_soma E (p 6); shaped_dend E 6 (p 7);
   shaped_soma E (p 8); shaped_dend E 8 (p 9)].

Definition ring_cells : list Cell :=
  [ball_and_stick (PInt 0) (x 0) (y 0) (PInt 0) 0;
   ball_and_stick (PInt 1) (x 1) (y 1) (PInt 0) 2;
   ball_and_stick (PInt 2) (x 2) (y 2) (PInt 0) 4;
   ball_and_stick (PInt 3) (x 3) (y 3) (PInt 0) 6;
   ball_and_stick (PInt 4) (x 4) (y 4) (PInt 0) 8].

Definition build_log : list event :=
  EvLoadFile "stdrun.hoc"
  :: construction_log 0 ++ construction_log 2 ++ construction_log 4
  ++ construction_log 6 ++ construction_log 8 ++ [EvTopology].

(** After line 82. *)
Definition built_state : State :=
  mkState ring_secs [] [] [] [] ring_cells build_log.

Definition stim_syn : ExpSyn := mkExpSyn 1 0.5%float (Some 2%float).
Definition the_stim : NetStim := mkNetStim (Some 1%float) (Some 9%float).
Definition stim_nc : NetCon :=
  mkNetCon (SrcStim 0) 0 None (Some 0.04%float) (Some 1%float) None.

Definition rec_vecs : list Vector :=
  [mkVector (Some (RefV 0 0.5%float)) []; mkVector (Some RefT) [];
   mkVector (Some (RefV 1 0.5%float)) []; mkVector (Some (RefSynI 0)) []].

Definition wire_log : list event :=
  [EvNetStim 0; EvExpSyn 0; EvStimSet 0 "number" 1%float;
   EvStimSet 0 "start" 9%float; EvNetCon 0; EvSetDelay 0 1%float;
   EvSetWeight 0 0.04%float; EvSynSet 0 "tau" 2%float;
   EvVector 0; EvVecRecord 0 (RefV 0 0.5%float);
   EvVector 1; EvVecRecord 1 RefT;
   EvVector 2; EvVecRecord 2 (RefV 1 0.5%float);
   EvVector 3; EvVecRecord 3 (RefSynI 0)].

(** After line 103. *)
Definition wired_state : State :=
  mkState ring_secs [stim_syn] [the_stim] [stim_nc] rec_vecs ring_cells
          (build_log ++ wire_log).

(** The synapse on dendrite [dend], and the connection from soma [soma] to
    synapse [syn] that records into [rec]. *)
Definition ring_syn (dend : nat) : ExpSyn := mkExpSyn dend 0.5%float None.
Definition ring_nc (soma syn : nat) (rec : option nat) : NetCon :=
  mkNetCon (SrcRef (RefV soma 0.5%float)) syn (Some soma)
           (Some 0.05%float) (Some 5%float) rec.

Definition ring_syns : list ExpSyn :=
  [ring_syn 3; ring_syn 5; ring_syn 7; ring_syn 9; ring_syn 1].

Definition ring_ncs (rec : nat -> option nat) : list NetCon :=
  [ring_nc 0 1 (rec 0); ring_nc 2 2 (rec 1); ring_nc 4 3 (rec 2);
   ring_nc 6 4 (rec 3); ring_nc 8 5 (rec 4)].

Definition ring_step_log (k : nat) : list event :=
  [EvExpSyn k; EvNetCon k; EvSetWeight k 0.05%float; EvSetDelay k 5%float].

Definition ring_log : list event :=
  ring_step_log 1 ++ ring_step_log 2 ++ ring_step_log 3 ++ ring_step_log 4
  ++ ring_step_log 5.

(** After line 113. *)
Definition ringed_state : State :=
  mkState ring_secs (stim_syn :: ring_syns) [the_stim]
          (stim_nc :: ring_ncs (fun _ => None)) rec_vecs ring_cells
          (build_log ++ wire_log ++ ring_log).

Definition spike_log : list event :=
  [EvVector 4; EvVector 5; EvVector 6; EvVector 7; EvVector 8;
   EvNetConRecord 1 4; EvNetConRecord 2 5; EvNetConRecord 3 6;
   EvNetConRecord 4 7; EvNetConRecord 5 8].

(** After line 117: the state the simulation starts from. *)
Definition setup_state : State :=
  mkState ring_secs (stim_syn :: ring_syns) [the_stim]
          (stim_nc :: ring_ncs (fun i => Some (4 + i)))
          (rec_vecs ++ replicate 5 (mkVector None [])) ring_cells
          (build_log ++ wire_log ++ ring_log ++ spike_log).

End ScriptStates.

(** The variables of the script once it has run. *)
Definition script_env : Env :=
  mkEnv [0; 1; 2; 3; 4] 0 0 0 0 0 1 2 3 [1; 2; 3; 4; 5] [1; 2; 3; 4; 5]
        [4; 5; 6; 7; 8].

Section FinalState.
Context (E : Engine) (p : nat -> list Pt3d) (x y : nat -> pynum).

Definition run_log : list event :=
  [EvFinitialize (-65)%float; EvContinuerun 100%float].

(** The state the simulator integrates from. *)
Definition sim_state : State :=
  mkState (ring_secs E p) (stim_syn :: ring_syns) [the_stim]
          (stim_nc :: ring_ncs (fun i => Some (4 + i)))
          (rec_vecs ++ replicate 5 (mkVector None [])) (ring_cells x y)
          (build_log ++ wire_log ++ ring_log ++ spike_log ++ run_log).

Definition sampled (r : ref) : Vector :=
  mkVector (Some r) (samples_of E sim_state r 100%float).
Definition spikes (k : nat) : list float := spikes_of E sim_state k 100%float.

Definition final_vecs : list Vector :=
  [sampled (RefV 0 0.5%float); sampled RefT; sampled (RefV 1 0.5%float);
   sampled (RefSynI 0);
   mkVector None (spikes 1); mkVector None (spikes 2); mkVector None (spikes 3);
   mkVector None (spikes 4); mkVector None (spikes 5)].

Definition plot_log : list event :=
  [EvFigure;
   EvAsNumpy 4; EvVlines (spikes 1) (PFloat 0.5) (PFloat 1.5);
   EvAsNumpy 5; EvVlines (spikes 2) (PFloat 1.5) (PFloat 2.5);
   EvAsNumpy 6; EvVlines (spikes 3) (PFloat 2.5) (PFloat 3.5);
   EvAsNumpy 7; EvVlines (spikes 4) (PFloat 3.5) (PFloat 4.5);
   EvAsNumpy 8; EvVlines (spikes 5) (PFloat 4.5) (PFloat 5.5);
   EvXlabel "time (ms)"; EvYlabel "Cell index"; EvShow].

(** After the last line. *)
Definition final_state : State :=
  mkState (ring_secs E p) (stim_syn :: ring_syns) [the_stim]
          (stim_nc :: ring_ncs (fun i => Some (4 + i)))
          final_vecs (ring_cells x y)
          (build_log ++ wire_log ++ ring_log ++ spike_log ++ run_log ++ plot_log).

End FinalState.

(** ** What the claims speak about *)

Definition soma_of (st : State) (c : nat) : option nat := cells st !! c ≫= c_soma.
Definition dend_of (st : State) (c : nat) : option nat := cells st !! c ≫= c_dend.
Definition id_of (st : State) (c : nat) : option pynum := cells st !! c ≫= c_id.

(** Section [s] is one of the sections of cell [c]. *)
Definition owns (st : State) (c s : nat) : Prop :=
  exists cell l, cells st !! c = Some cell /\ c_all cell = Some l /\ s ∈ l.


(** Synapse [k] sits on section [sec] at location [loc]. *)
Definition syn_at (st : State) (k sec : nat) (loc : float) : Prop :=
  exists s, pps st !! k = Some s /\ syn_sec s = sec /\ syn_loc s = loc.

(** Connection [c] goes from [src] to synapse [k]. *)
Definition nc_between (st : State) (c : nat) (src : source) (k : nat) : Prop :=
  exists n, ncs st !! c = Some n /\ nc_source n = src /\ nc_target n = k.

(** Connection [c] listens to the membrane potential of section [so]. *)
Definition sourced_at (st : State) (c so : nat) : Prop :=
  exists n loc, ncs st !! c = Some n /\ nc_source n = SrcRef (RefV so loc).

(** Connection [c] delivers to a synapse on section [de]. *)
Definition delivers_to (st : State) (c de : nat) : Prop :=
  exists n s, ncs st !! c = Some n /\ pps st !! nc_target n = Some s /\ syn_sec s = de.

(** Vector [v] records the variable [r]. *)
Definition records (st : State) (v : nat) (r : ref) : Prop :=
  exists vec, vecs st !! v = Some vec /\ vec_record vec = Some r.

(** *** C1: the ring *)





(** *** C10: the three lists of the ring *)

(** Position [i] of the lists: synapse, connection onto it with the common
    weight and delay, and the one vector the connection records into, which
    no other connection records into. *)
Definition ring_slot (env : Env) (st : State) (i : nat) : Prop :=
  exists k c v s n vec,
    syns env !! i = Some k /\
    netcons env !! i = Some c /\
    spike_times env !! i = Some v /\
    pps st !! k = Some s /\
    ncs st !! c = Some n /\
    vecs st !! v = Some vec /\
    nc_target n = k /\
    nc_weight0 n = Some 0.05%float /\
    nc_delay n = Some 5%float /\
    nc_record n = Some v /\
    (forall c' n', ncs st !! c' = Some n' -> nc_record n' = Some v -> c' = c).

(** Cell [cell] is the source of exactly one ring connection and the target
    of exactly one. *)
Definition one_in_one_out (env : Env) (st : State) (cell : nat) : Prop :=
  exists so de,
    soma_of st cell = Some so /\
    dend_of st cell = Some de /\
    (exists c, c ∈ netcons env /\ sourced_at st c so /\
               forall c', c' ∈ netcons env -> sourced_at st c' so -> c' = c) /\
    (exists c, c ∈ netcons env /\ delivers_to st c de /\
               forall c', c' ∈ netcons env -> delivers_to st c' de -> c' = c).

Definition ring_balanced (env : Env) (st : State) : Prop :=
  length (my_cells env) = 5 /\
  length (syns env) = 5 /\
  length (netcons env) = 5 /\
  length (spike_times env) = 5 /\
  NoDup (syns env) /\ NoDup (netcons env) /\ NoDup (spike_times env) /\
  (forall i, i < 5 -> ring_slot env st i) /\
  (forall cell, cell ∈ my_cells env -> one_in_one_out env st cell).

(** *** C3: the external stimulus *)

Definition stimulus_drive (env : Env) (st : State) : Prop :=
  length (stims st) = 1 /\
  stim env < length (stims st) /\
  nc_between st (ncstim env) (SrcStim (stim env)) (syn_ env) /\
  (forall c n k, ncs st !! c = Some n -> nc_source n = SrcStim k -> c = ncstim env) /\
  exists c0 de,
    my_cells env !! 0 = Some c0 /\
    id_of st c0 = Some (PInt 0) /\
    dend_of st c0 = Some de /\
    syn_at st (syn_ env) de 0.5%float /\
    owns st c0 de /\
    (forall c, owns st c de -> c = c0) /\
    (forall c n k s cell,
        ncs st !! c = Some n -> nc_source n = SrcStim k ->
        pps st !! nc_target n = Some s -> owns st cell (syn_sec s) -> cell = c0).

(** *** C9: stimulated cell and recorded cell *)

Definition same_cell (env : Env) (st : State) : Prop :=
  my_cells env !! 0 = Some (recording_cell env) /\
  exists so de,
    soma_of st (recording_cell env) = Some so /\
    dend_of st (recording_cell env) = Some de /\
    syn_at st (syn_ env) de 0.5%float /\
    records st (v_vec env) (RefV so 0.5%float) /\
    records st (d_vec env) (RefV de 0.5%float).

(** *** C2: morphology *)

(** Every section has one cell that owns it. *)
Definition one_owner_each (st : State) : Prop :=
  forall s, s < length (secs st) ->
            exists c, owns st c s /\ forall c', owns st c' s -> c' = c.





(** The section reads the diameter the simulator derives from its 3-D
    points. *)
Definition measured (E : Engine) (sc : Sec) : Prop :=
  sec_diam sc = Some (diam_of E (sec_pts sc)).

(** What holds of a cell instead: the two sections and their connection as
    above; the lengths read 12.6157 and 200, and the diameters read what
    the simulator derives from the 3-D points. *)
Definition ball_and_stick_shaped (E : Engine) (st : State) (cell : Cell) : Prop :=
  exists so de sso sde,
    c_soma cell = Some so /\
    c_dend cell = Some de /\
    c_all cell = Some [so; de] /\
    so <> de /\
    secs st !! so = Some sso /\
    secs st !! de = Some sde /\
    sec_parent sde = Some so /\
    sec_L sso = Some 12.6157%float /\
    sec_L sde = Some 200%float /\
    measured E sso /\
    measured E sde.


Definition morphology_ok (E : Engine) (st : State) : Prop :=
  (forall c cell, cells st !! c = Some cell -> ball_and_stick_shaped E st cell) /\
  one_owner_each st.

(** *** C6: nothing is changed after setup *)

(** Calls that create an object or assign to one. *)
Definition mutates (e : event) : bool :=
  match e with
  | EvLoadFile _ | EvTopology | EvFinitialize _ | EvContinuerun _ | EvAsNumpy _
  | EvFigure | EvVlines _ _ _ | EvXlabel _ | EvYlabel _ | EvShow => false
  | _ => true
  end.

Definition frozen (st_s st_f : State) : Prop :=
  secs st_f = secs st_s /\
  pps st_f = pps st_s /\
  stims st_f = stims st_s /\
  ncs st_f = ncs st_s /\
  cells st_f = cells st_s /\
  vec_record <$> vecs st_f = vec_record <$> vecs st_s /\
  exists tail, log st_f = log st_s ++ tail /\ Forall (fun e => mutates e = false) tail.

(** *** C7: one run, bound before, read after *)

Definition is_run (e : event) : bool :=
  match e with EvContinuerun _ => true | _ => false end.
Definition is_bind (e : event) : bool :=
  match e with EvVecRecord _ _ | EvNetConRecord _ _ => true | _ => false end.
Definition is_read (e : event) : bool :=
  match e with EvAsNumpy _ => true | _ => false end.

(** Vector [v] is bound to what it records by a call in [l]. *)
Definition bound_in (l : list event) (v : nat) : Prop :=
  (exists r, EvVecRecord v r ∈ l) \/ (exists k, EvNetConRecord k v ∈ l).

Definition one_run (env : Env) (st : State) : Prop :=
  exists pre post v0 t,
    log st = pre ++ [EvFinitialize v0; EvContinuerun t] ++ post /\
    Forall (fun e => is_run e = false) pre /\
    Forall (fun e => is_run e = false) post /\
    Forall (fun e => is_read e = false) pre /\
    Forall (fun e => is_bind e = false) post /\
    (forall v, v < length (vecs st) -> bound_in pre v) /\
    (forall v, v ∈ spike_times env -> EvAsNumpy v ∈ post) /\
    (forall v, EvAsNumpy v ∈ post -> v ∈ spike_times env).

(** *** C5: what a connection connects *)

(** Connection [c] goes from one cell of [my_cells] to a different one. *)
Definition joins_cells (env : Env) (st : State) (c : nat) : Prop :=
  exists src tgt so de,
    src ∈ my_cells env /\ tgt ∈ my_cells env /\ src <> tgt /\
    owns st src so /\ owns st tgt de /\
    sourced_at st c so /\ delivers_to st c de.

(** The claim as the specification words it. *)
Definition every_connection_joins_cells (env : Env) (st : State) : Prop :=
  forall c, c < length (ncs st) -> joins_cells env st c.

(** Connection [c] goes from the stimulus to a synapse on [my_cells[0]]. *)
Definition drives_first_cell (env : Env) (st : State) (c : nat) : Prop :=
  exists c0 de,
    c = ncstim env /\
    nc_between st c (SrcStim (stim env)) (syn_ env) /\
    my_cells env !! 0 = Some c0 /\
    owns st c0 de /\
    syn_at st (syn_ env) de 0.5%float.

Definition complete (cell : Cell) : Prop :=
  is_Some (c_id cell) /\ is_Some (c_soma cell) /\ is_Some (c_dend cell) /\
  is_Some (c_all cell) /\ is_Some (c_x cell) /\ is_Some (c_y cell) /\
  is_Some (c_z cell).

(** The cells were all there, complete, when no synapse and no connection
    existed yet, and are the same at the end. *)
Definition cells_came_first (st_b st : State) : Prop :=
  pps st_b = [] /\ ncs st_b = [] /\
  cells st = cells st_b /\ secs st = secs st_b /\
  Forall complete (cells st_b).

Definition connections_by_design (env : Env) (st : State) : Prop :=
  (forall c, c < length (ncs st) ->
             drives_first_cell env st c \/ (c ∈ netcons env /\ joins_cells env st c)) /\
  (forall k s, pps st !! k = Some s ->
               exists tgt, tgt ∈ my_cells env /\ owns st tgt (syn_sec s)).

(** *** C8: rotation about the z axis *)

(** The planar rotation by [t] applied to one 3-D point, in doubles: [z]
    and the diameter pass through. *)
Definition rotate_pt (E : Engine) (t : float) (q : Pt3d) : Pt3d :=
  mkPt (pt_x q * hoc_cos E t - pt_y q * hoc_sin E t)%float
       (pt_x q * hoc_sin E t + pt_y q * hoc_cos E t)%float
       (pt_z q) (pt_diam q).

(** The calls of [rotate_z] or [set_position] on the sections [all]. *)
Definition rotate_log (ss : list Sec) (all : list nat) : list event :=
  s ← all;
  match ss !! s with
  | Some sc => EvPt3dchange s <$> seq 0 (length (sec_pts sc))
  | None => []
  end.

(** What a change of the points of the sections [all] leaves between [st]
    and [st'] when each of these sections becomes its image under [f]:
    the other sections, every other simulator object and every [Cell]
    object are as they were. *)
Definition sections_mapped (f : Sec -> Sec) (all : list nat) (st st' : State) : Prop :=
  cells st' = cells st /\
  pps st' = pps st /\ stims st' = stims st /\ ncs st' = ncs st /\
  vecs st' = vecs st /\
  length (secs st') = length (secs st) /\
  (forall s sc, s ∈ all -> secs st !! s = Some sc -> secs st' !! s = Some (f sc)) /\
  (forall s, s ∉ all -> secs st' !! s = secs st !! s) /\
  log st' = log st ++ rotate_log (secs st) all.

(** The claim as the specification words it: in a section of the cell
    every point is replaced by its image under the rotation, and nothing
    else about the section changes. *)
Definition rotate_sec_as_stated (E : Engine) (t : float) (sc : Sec) : Sec :=
  sec_set_pts (rotate_pt E t <$> sec_pts sc) sc.

Definition only_xy_rotated (E : Engine) (t : float) (all : list nat)
    (st st' : State) : Prop :=
  sections_mapped (rotate_sec_as_stated E t) all st st'.

(** What holds instead.  Every point of the section is replaced by its
    image under [g] as the simulator stores it, in single precision; a
    section that has points then reads the length and the diameter the
    simulator derives from the new points. *)
Definition move_sec (E : Engine) (g : Pt3d -> Pt3d) (sc : Sec) : Sec :=
  match sec_pts sc with
  | [] => sc
  | _ :: _ => remeasure E (sec_set_pts (store_pt ∘ g <$> sec_pts sc) sc)
  end.

(** The store after the sections listed in [all] were treated so in turn. *)
Definition move_secs (E : Engine) (g : Pt3d -> Pt3d) (all : list nat)
    (ss : list Sec) : list Sec :=
  foldl (fun acc s =>
           match acc !! s with
           | Some sc => <[s := move_sec E g sc]> acc
           | None => acc
           end) ss all.

Definition rotate_sec (E : Engine) (t : float) : Sec -> Sec :=
  move_sec E (rotate_pt E t).

(** What [rotate_z] may change between [st] and [st']. *)
Definition rotated_only (E : Engine) (t : float) (all : list nat)
    (st st' : State) : Prop :=
  sections_mapped (rotate_sec E t) all st st'.

(** *** C4: where the cells are *)







(** The cells of the script on the demonstration simulator. *)
Definition demo_built : State :=
  match build demo_engine init_state with
  | Ret (_, st) => st
  | Exc _ => init_state
  end.

(** *** The layout [create_n_BallAndStick] maintains *)

(** Cell [c] owns sections [2c] (its soma) and [2c + 1] (its dendrite), and
    there are no other sections. *)
Definition ring_layout (E : Engine) (st : State) : Prop :=
  parents_valid (secs st) /\
  length (secs st) = 2 * length (cells st) /\
  forall c cell, cells st !! c = Some cell ->
    exists id_ x y z pa pb,
      cell = ball_and_stick id_ x y z (2 * c) /\
      secs st !! (2 * c) = Some (shaped_soma E pa) /\
      secs st !! S (2 * c) = Some (shaped_dend E (2 * c) pb).

(** ** Further vocabulary: construction *)


(** [define_shape] gave the section 3-D points, and with them the diameter
    it reads; nothing else about it changed. *)
Definition reshaped (E : Engine) (sc sc' : Sec) : Prop :=
  exists pts, sc' = reshape E pts sc.

(** What constructions may do to a section that was there before: nothing,
    or that. *)
Definition kept_section (E : Engine) (st st' : State) (s : nat) : Prop :=
  forall sc, secs st !! s = Some sc ->
    exists sc', secs st' !! s = Some sc' /\ (sc' = sc \/ reshaped E sc sc').

(** Everything but sections, cells and the log is as it was. *)
Definition same_network (st st' : State) : Prop :=
  pps st' = pps st /\ stims st' = stims st /\ ncs st' = ncs st /\ vecs st' = vecs st.

(** The membrane properties [setup_biophysics] gives the two sections of a
    cell. *)
Definition soma_biophysics (sc : Sec) : Prop :=
  sec_Ra sc = Some 100%float /\ sec_cm sc = Some 1%float /\
  sec_hh sc = Some (mkHH (Some 0.12%float) (Some 0.036%float)
                         (Some 0.0003%float) (Some (-54.3)%float)) /\
  sec_pas sc = None.

Definition dend_biophysics (sc : Sec) : Prop :=
  sec_Ra sc = Some 100%float /\ sec_cm sc = Some 1%float /\
  sec_hh sc = None /\
  sec_pas sc = Some (mkPas (Some 0.001%float) (Some (-65)%float)).

(** The cell has a soma and a dendrite that carry these properties. *)
Definition has_biophysics (st : State) (cell : Cell) : Prop :=
  exists so de sso sde,
    c_soma cell = Some so /\ c_dend cell = Some de /\
    secs st !! so = Some sso /\ secs st !! de = Some sde /\
    soma_biophysics sso /\ dend_biophysics sde.

(** What one call of [create_n_BallAndStick] adds between [st] and [st']:
    the cells [new], cell [j] of them on the two sections from
    [length (secs st) + 2 * j] on, a soma and a dendrite with the lengths
    and membrane properties of the class, the 3-D points the simulator
    chose and the diameters it derives from them. *)
Definition cells_appended (E : Engine) (st st' : State) (new : list Cell) : Prop :=
  cells st' = cells st ++ new /\
  length (secs st') = length (secs st) + 2 * length new /\
  forall j cell, new !! j = Some cell ->
    exists id_ x y z pa pb,
      cell = ball_and_stick id_ x y z (length (secs st) + 2 * j) /\
      secs st' !! (length (secs st) + 2 * j) = Some (shaped_soma E pa) /\
      secs st' !! S (length (secs st) + 2 * j)
      = Some (shaped_dend E (length (secs st) + 2 * j) pb).

(** ** Further vocabulary: moving a cell *)

(** The double [set_position] adds to a coordinate: [new - old], computed
    on integers when both are, and then converted. *)
Definition displacement (new old : pynum) : result float :=
  d ← py_sub new old; to_float d.

(** The translation of one 3-D point; the diameter passes through. *)
Definition shift_pt (dx dy dz : float) (q : Pt3d) : Pt3d :=
  mkPt (dx + pt_x q)%float (dy + pt_y q)%float (dz + pt_z q)%float (pt_diam q).

(** What moving the points of the sections [all] by [g] may change between
    [st] and [st'], the [Cell] objects set aside: each of these sections
    becomes [move_sec E g] of itself, with the points stored in single
    precision and the length and diameter derived from them. *)
Definition moved_only (E : Engine) (g : Pt3d -> Pt3d) (all : list nat)
    (st st' : State) : Prop :=
  same_network st st' /\
  length (secs st') = length (secs st) /\
  (forall s sc, s ∈ all -> secs st !! s = Some sc ->
                secs st' !! s = Some (move_sec E g sc)) /\
  (forall s, s ∉ all -> secs st' !! s = secs st !! s) /\
  log st' = log st ++ rotate_log (secs st) all.

(** A cell on two sections that have no 3-D points yet. *)
Definition bare_cell_state (id_ x y z : pynum) : State :=
  mkState [new_soma; new_dend 0] [] [] [] []
          [ball_and_stick id_ x y z 0] [].

(** The body of the inner loop of [Cell.set_position]. *)
Definition set_position_step (E : Engine) (self : nat) (x y z : pynum)
    (sec i : nat) : Py unit :=
  sx ← getattr c_x self;
  dx ← lift (py_sub x sx);
  px ← x3d sec i;
  nx ← lift (py_add dx (PFloat px));
  sy ← getattr c_y self;
  dy ← lift (py_sub y sy);
  py ← y3d sec i;
  ny ← lift (py_add dy (PFloat py));
  sz ← getattr c_z self;
  dz ← lift (py_sub z sz);
  pz ← z3d sec i;
  nz ← lift (py_add dz (PFloat pz));
  d ← diam3d sec i;
  pt3dchange E sec i nx ny nz (PFloat d).

(** The object after [set_position(x, y, z)]. *)
Definition placed_at (x y z : pynum) (cell : Cell) : Cell :=
  cell_set_z z (cell_set_y y (cell_set_x x cell)).

(** ** Further vocabulary: rings of any size *)

(** Cell [c] has a soma and a dendrite, both sections of the store. *)
Definition wired_cell (st : State) (c : nat) : Prop :=
  exists so de,
    soma_of st c = Some so /\ dend_of st c = Some de /\
    so < length (secs st) /\ de < length (secs st).

(** The calls of one turn of the loop of lines 107-113 that makes synapse
    [k] and connection [c]. *)
Definition edge_log (k c : nat) : list event :=
  [EvExpSyn k; EvNetCon c; EvSetWeight c 0.05%float; EvSetDelay c 5%float].

(** The synapses, connections and calls the loop makes for the pairs it is
    given, the first synapse being [k] and the first connection [c]. *)
Fixpoint ring_objs (st : State) (k c : nat) (pairs : list (nat * nat))
    : list ExpSyn * list NetCon * list event :=
  match pairs with
  | [] => ([], [], [])
  | (src, tgt) :: rest =>
      let '(sy, nc, lg) := ring_objs st (S k) (S c) rest in
      (ring_syn (default 0 (dend_of st tgt)) :: sy,
       ring_nc (default 0 (soma_of st src)) k None :: nc,
       edge_log k c ++ lg)
  end.

(** What the connection-building step leaves between [st] and [st'] for
    the cells [cs]: one new synapse and one new connection for every
    position [i], the connection from the soma of cell [i] at 0.5 to the
    synapse, the synapse on the dendrite of the next cell at 0.5, the
    first cell being next to the last. *)
Definition ring_made (cs : list nat) (st st' : State) : Prop :=
  secs st' = secs st /\ cells st' = cells st /\
  stims st' = stims st /\ vecs st' = vecs st /\
  (exists new, pps st' = pps st ++ new /\ length new = length cs) /\
  (exists new, ncs st' = ncs st ++ new /\ length new = length cs) /\
  forall i src tgt so de,
    cs !! i = Some src ->
    cs !! (S i mod length cs) = Some tgt ->
    soma_of st src = Some so ->
    dend_of st tgt = Some de ->
    pps st' !! (length (pps st) + i) = Some (ring_syn de) /\
    ncs st' !! (length (ncs st) + i)
    = Some (ring_nc so (length (pps st) + i) None).

(** ** Further vocabulary: spike recordings *)

Definition nc_set_record (v : nat) (c : NetCon) : NetCon :=
  mkNetCon (nc_source c) (nc_target c) (nc_sec c) (nc_weight0 c) (nc_delay c) (Some v).

(** The connections after each connection of [l] was told, in turn, to
    record into the vector paired with it. *)
Definition record_all (l : list (nat * nat)) (nn : list NetCon) : list NetCon :=
  foldl (fun acc p =>
           match acc !! fst p with
           | Some c => <[fst p := nc_set_record (snd p) c]> acc
           | None => acc
           end) nn l.

(** What lines 115-117 leave between [st] and [st'] for the connections
    [ncl]. *)
Definition spikes_recorded (ncl : list nat) (st st' : State) : Prop :=
  secs st' = secs st /\ pps st' = pps st /\ stims st' = stims st /\
  cells st' = cells st /\
  vecs st' = vecs st ++ replicate (length ncl) (mkVector None []) /\
  length (ncs st') = length (ncs st) /\
  (forall i c n, ncl !! i = Some c -> ncs st !! c = Some n ->
                 ncs st' !! c = Some (nc_set_record (length (vecs st) + i) n)) /\
  (forall c, c ∉ ncl -> ncs st' !! c = ncs st !! c).

(** ** Further vocabulary: the raster plot *)

(** [i + h] as line 124 computes it for row [i]. *)
Definition row_edge (i : Z) (h : float) : pynum :=
  match py_add (PInt i) (PFloat h) with
  | Ret y => y
  | Exc _ => PInt i
  end.

(** The calls of the loop of lines 123-124 on the vectors [l], the first
    of them being row [k]. *)
Fixpoint plot_rows (vv : list Vector) (k : Z) (l : list nat) : list event :=
  match l with
  | [] => []
  | v :: l' =>
      EvAsNumpy v
      :: EvVlines (default [] (vec_data <$> vv !! v)) (row_edge k 0.5) (row_edge k 1.5)
      :: plot_rows vv (k + 1) l'
  end.

(** The same stores, the log set aside. *)
Definition same_objects (st st' : State) : Prop :=
  secs st' = secs st /\ pps st' = pps st /\ stims st' = stims st /\
  ncs st' = ncs st /\ vecs st' = vecs st /\ cells st' = cells st.

(** ** Further vocabulary: a recorded ring of any size *)

(** The ring over the cells [cs] with its synapses [sy], connections [nc]
    and spike vectors [vs]: at every position [i], connection [i] watches
    the soma of cell [i] at 0.5, delivers with weight 0.05 and delay 5 to
    synapse [i] on the dendrite of the next cell at 0.5, and records its
    spike times into vector [i]. *)
Definition ring_network (cs sy nc vs : list nat) (st : State) : Prop :=
  forall i src tgt,
    cs !! i = Some src ->
    cs !! (S i mod length cs) = Some tgt ->
    exists so de k c v,
      soma_of st src = Some so /\ dend_of st tgt = Some de /\
      sy !! i = Some k /\ nc !! i = Some c /\ vs !! i = Some v /\
      pps st !! k = Some (ring_syn de) /\
      ncs st !! c = Some (ring_nc so k (Some v)) /\
      vecs st !! v = Some (mkVector None []).

(** * Verification *)

(** ** Running programs on explicit states *)

Lemma bind_run {A B} (m : Py A) (f : A -> Py B) st a st' :
  m st = Ret (a, st') -> (m ≫= f) st = f a st'.
Proof. intros H. unfold mbind, Py_bind. by rewrite H. Qed.

Lemma run_fetch {A} (sel : State -> list A) k st a :
  sel st !! k = Some a -> fetch sel k st = Ret (a, st).
Proof. intros H. unfold fetch. by rewrite H. Qed.

Lemma run_update {A} (sel : State -> list A) upd k f st a :
  sel st !! k = Some a ->
  update sel upd k f st = Ret (tt, upd (fun l => <[k := f a]> l) st).
Proof. intros H. unfold update. by rewrite H. Qed.

Lemma run_lift {A} (r : result A) a st : r = Ret a -> lift r st = Ret (a, st).
Proof. by intros ->. Qed.

Lemma run_getattr {A} (proj : Cell -> option A) self st c a :
  cells st !! self = Some c -> proj c = Some a ->
  getattr proj self st = Ret (a, st).
Proof.
  intros Hc Ha. unfold getattr.
  rewrite (bind_run _ _ _ _ _ (run_fetch cells self st c Hc)). by rewrite Ha.
Qed.

(** Lists that end in a known tail. *)
Lemma lookup_tail0 {A} (l t : list A) a : (l ++ a :: t) !! length l = Some a.
Proof. by apply list_lookup_middle. Qed.

Lemma lookup_tail1 {A} (l t : list A) a b :
  (l ++ a :: b :: t) !! S (length l) = Some b.
Proof.
  rewrite (lookup_app_r l); [|lia].
  by replace (S (length l) - length l) with 1 by lia.
Qed.

Lemma insert_tail0 {A} (l t : list A) a x :
  <[length l := x]> (l ++ a :: t) = l ++ x :: t.
Proof. rewrite insert_app_r_alt; [|lia]. by rewrite Nat.sub_diag. Qed.

Lemma insert_tail1 {A} (l t : list A) a b x :
  <[S (length l) := x]> (l ++ a :: b :: t) = l ++ a :: x :: t.
Proof.
  rewrite insert_app_r_alt; [|lia].
  by replace (S (length l) - length l) with 1 by lia.
Qed.

Lemma length_snoc {A} (l : list A) a : length (l ++ [a]) = S (length l).
Proof. rewrite length_app. simpl. lia. Qed.

Lemma length_snoc2 {A} (l : list A) a b : length (l ++ [a; b]) = S (S (length l)).
Proof. rewrite length_app. simpl. lia. Qed.

Lemma snoc_snoc {A} (l : list A) a t b : (l ++ a :: t) ++ [b] = l ++ a :: (t ++ [b]).
Proof. by rewrite <- app_assoc. Qed.

(** ** The tree of a freshly built cell *)

Lemma filter_none {A} (P : A -> Prop) `{forall x, Decision (P x)} (l : list A) :
  (forall x, x ∈ l -> ~ P x) -> filter P l = [].
Proof.
  induction l as [|a l IH]; intros Hl; [done|].
  rewrite filter_cons_False; [|apply Hl; left].
  apply IH. intros x Hx. apply Hl. by right.
Qed.

Lemma parent_of_old (ss t : list Sec) j :
  j < length ss -> parent_of (ss ++ t) j = parent_of ss j.
Proof. intros Hj. unfold parent_of. by rewrite lookup_app_l. Qed.

(** A store extended by a root and its only child: the sections that hang
    under either. *)
Section FreshTree.
Context (ss : list Sec) (so de : Sec).
Hypothesis Hss : parents_valid ss.
Hypothesis Hso : sec_parent so = None.
Hypothesis Hde : sec_parent de = Some (length ss).

Lemma parent_of_soma : parent_of (ss ++ [so; de]) (length ss) = None.
Proof. unfold parent_of. by rewrite lookup_tail0. Qed.

Lemma parent_of_dend : parent_of (ss ++ [so; de]) (S (length ss)) = Some (length ss).
Proof. unfold parent_of. by rewrite lookup_tail1. Qed.

Lemma children_old p :
  length ss <= p ->
  filter (fun j => parent_of (ss ++ [so; de]) j = Some p) (seq 0 (length ss)) = [].
Proof.
  intros Hp. apply filter_none. intros j Hj%elem_of_seq.
  rewrite parent_of_old by lia. intros Hq%Hss. lia.
Qed.

Lemma children_soma : children (ss ++ [so; de]) (length ss) = [S (length ss)].
Proof.
  unfold children. rewrite length_snoc2.
  replace (S (S (length ss))) with (length ss + 2) by lia.
  rewrite seq_app, filter_app, children_old by lia. cbn [seq app Nat.add].
  rewrite filter_cons_False by (rewrite parent_of_soma; discriminate).
  rewrite filter_cons_True by apply parent_of_dend.
  by rewrite filter_nil.
Qed.

Lemma children_dend : children (ss ++ [so; de]) (S (length ss)) = [].
Proof.
  unfold children. rewrite length_snoc2.
  replace (S (S (length ss))) with (length ss + 2) by lia.
  rewrite seq_app, filter_app, children_old by lia. cbn [seq app Nat.add].
  rewrite filter_cons_False by (rewrite parent_of_soma; discriminate).
  rewrite filter_cons_False; [by rewrite filter_nil|].
  rewrite parent_of_dend. intros [=]. lia.
Qed.

Lemma run_wholetree_fresh pp sm nn vv cl lg :
  wholetree (length ss) (mkState (ss ++ [so; de]) pp sm nn vv cl lg)
  = Ret ([length ss; S (length ss)], mkState (ss ++ [so; de]) pp sm nn vv cl lg).
Proof.
  unfold wholetree.
  rewrite (bind_run _ _ _ so _) by (apply run_fetch; cbn [secs]; apply lookup_tail0).
  rewrite (bind_run _ _ _ _ _ eq_refl).
  cbn [secs]. rewrite length_snoc2.
  cbn [root_of]. rewrite parent_of_soma.
  cbn [subtree]. rewrite children_soma. cbn [map concat].
  by rewrite children_dend.
Qed.

End FreshTree.

(** ** Symbolic execution

    [run] evaluates a program of the monad on a state whose stores are a
    variable followed by explicit elements, one bind at a time. *)

(** Normal form of the stores after an allocation or an update at the end. *)
Ltac store_norm :=
  repeat progress
    (cbn [with_secs with_pps with_stims with_ncs with_vecs with_cells
          secs pps stims ncs vecs cells log app];
     rewrite ?length_snoc, ?length_snoc2, ?snoc_snoc, ?insert_tail0, ?insert_tail1,
             ?lookup_tail0, ?lookup_tail1).

(** Projections and loops over explicit data. *)
Ltac run_head :=
  cbv beta iota;
  cbn [sec_name sec_parent sec_L sec_diam sec_Ra sec_cm sec_hh sec_pas sec_pts
       seg_sec seg_x c_id c_soma c_dend c_all c_x c_y c_z
       for_each for_fold length seq fst snd
       cell_set_id cell_set_soma cell_set_dend cell_set_all cell_set_x cell_set_y
       cell_set_z sec_set_parent sec_set_L sec_set_diam sec_set_Ra sec_set_cm
       sec_set_hh sec_set_pas sec_set_pts
       hh_gnabar hh_gkbar hh_gl hh_el pas_g pas_e
       cls_setup_morphology cls_setup_biophysics BallAndStick_class];
  store_norm.

(** The constant at the head of an application. *)
Ltac head_of t :=
  lazymatch t with
  | ?f _ => head_of f
  | _ => t
  end.

(** One step for each primitive; anything else is unfolded. *)
Ltac run :=
  run_head;
  lazymatch goal with
  | |- (?m ≫= ?f) ?st = _ =>
      eapply eq_trans; [eapply bind_run; run | run]
  | |- mret _ _ = _ => reflexivity
  | |- Ret _ = _ => reflexivity
  | |- alloc _ _ _ _ = _ => reflexivity
  | |- emit _ _ = _ => reflexivity
  | |- get _ = _ => reflexivity
  | |- put _ _ = _ => reflexivity
  | |- wholetree _ _ = _ =>
      eapply run_wholetree_fresh; [eassumption | reflexivity | reflexivity]
  | |- fetch _ _ _ = _ => eapply run_fetch; store_norm; reflexivity
  | |- update _ _ _ _ _ = _ => eapply run_update; store_norm; reflexivity
  | |- lift _ _ = _ => eapply run_lift; vm_compute; reflexivity
  | |- ?g = _ =>
      let h := head_of g in
      unfold h; run
  end.

(** ** One construction *)

Section Construction.
Context (E : Engine).

(** From any store whose parent links are valid, [BallAndStick(...)] adds a
    soma and a dendrite connected to it, leaves every other object alone
    apart from the default shapes [define_shape] hands out, and returns a
    new [Cell] that owns exactly the two new sections.  The sections have no
    3-D points when [rotate_z] runs, so the angle is not used. *)
Lemma run_BallAndStick id_ x y z theta ss pp sm nn vv cl lg :
  parents_valid ss ->
  BallAndStick E id_ x y z theta (mkState ss pp sm nn vv cl lg)
  = Ret (length cl,
         mkState (shape_fill E (ss ++ [new_soma; new_dend (length ss)]))
                 pp sm nn vv
                 (cl ++ [ball_and_stick id_ x y z (length ss)])
                 (lg ++ construction_log (length ss))).
Proof.
  intros Hss. unfold BallAndStick.
  run.
Qed.

(** The angle has no effect on what the constructor builds: [rotate_z] runs
    before [define_shape], when the new sections have no 3-D points. *)
Remark construction_ignores_angle id_ x y z theta theta' st :
  parents_valid (secs st) ->
  BallAndStick E id_ x y z theta st = BallAndStick E id_ x y z theta' st.
Proof.
  destruct st as [ss pp sm nn vv cl lg]. intros Hss.
  by rewrite !run_BallAndStick.
Qed.

End Construction.

(** ** Doubles *)

Lemma SFmul_comm prec emax x y : SFmul prec emax x y = SFmul prec emax y x.
Proof.
  destruct x as [sx|sx| |sx mx ex], y as [sy|sy| |sy my ey]; simpl;
    rewrite ?(xorb_comm sx sy), ?(Pos.mul_comm mx my), ?(Z.add_comm ex ey);
    reflexivity.
Qed.

Lemma float_mul_comm (x y : float) : (x * y)%float = (y * x)%float.
Proof.
  rewrite <- (SF2Prim_Prim2SF (x * y)), <- (SF2Prim_Prim2SF (y * x)).
  rewrite !mul_spec. unfold SF64mul. by rewrite SFmul_comm.
Qed.

Lemma float_of_int_ok z :
  (Z.abs z < float_int_bound)%Z -> exists f, float_of_int z = Ret f.
Proof.
  intros Hz. unfold float_of_int.
  destruct (Z.ltb_spec (Z.abs z) float_int_bound); [eauto | lia].
Qed.

(** The guard of [float_of_int] sits where rounding starts to overflow. *)
Example float_of_int_edge :
  float_of_int (float_int_bound - 1) = Ret 0x1.fffffffffffffp+1023%float /\
  is_infinity (SF2Prim (binary_normalize prec emax float_int_bound 0 false)) = true /\
  float_of_int float_int_bound = Exc OverflowError.
Proof. repeat split; vm_compute; reflexivity. Qed.

(** The literals of the script with their units. *)
Example soma_size : py_mul (PFloat 12.6157) um = Ret (PFloat 12.6157).
Proof. vm_compute. reflexivity. Qed.

Example resting_potential : py_mul (PInt (-65)) mV ≫= to_float = Ret (-65)%float.
Proof. vm_compute. reflexivity. Qed.

Lemma float_int_bound_pos : (2 < float_int_bound)%Z.
Proof. by vm_compute. Qed.

Lemma py_mul_float_l c r rf :
  to_float r = Ret rf -> py_mul (PFloat c) r = Ret (PFloat (rf * c)).
Proof.
  intros Hr. unfold py_mul, py_arith. cbn [to_float mbind result_bind].
  rewrite (float_mul_comm rf c).
  destruct r; by rewrite Hr.
Qed.

Section Loop.
Context (E : Engine).

(** The angle the source computes is [theta_of]. *)
Lemma ring_theta_ok n_cells i :
  (0 <= i)%Z -> (i < n_cells)%Z -> (2 * n_cells < float_int_bound)%Z ->
  exists theta, ring_theta E n_cells i = Ret theta /\ theta_of E n_cells i = Ret theta.
Proof.
  intros Hi Hn Hb.
  destruct (float_of_int_ok (i * 2)) as [fi Hfi]; [lia|].
  destruct (float_of_int_ok n_cells) as [fn Hfn]; [lia|].
  exists (fi * hoc_PI E / fn)%float.
  unfold ring_theta, theta_of, py_mul, py_arith, float_truediv.
  cbn [to_float mbind result_bind]. rewrite Hfi. cbn [mbind result_bind].
  rewrite Hfn. destruct (decide (n_cells = 0%Z)); [lia|]. done.
Qed.

(** ** The section store stays well formed *)

Lemma parent_of_shape_fill ss j : parent_of (shape_fill E ss) j = parent_of ss j.
Proof.
  unfold parent_of, shape_fill. rewrite list_lookup_imap.
  by destruct (ss !! j) as [sc|].
Qed.

Lemma parents_valid_shape_fill ss : parents_valid ss -> parents_valid (shape_fill E ss).
Proof.
  intros Hss j p. rewrite parent_of_shape_fill. unfold shape_fill.
  rewrite length_imap. apply Hss.
Qed.

Lemma parents_valid_grow ss :
  parents_valid ss ->
  parents_valid (ss ++ [new_soma; new_dend (length ss)]).
Proof.
  intros Hss j p. rewrite length_snoc2.
  destruct (decide (j < length ss)) as [Hj|Hj].
  - rewrite parent_of_old by done. intros Hp%Hss. lia.
  - unfold parent_of. rewrite lookup_app_r by lia.
    destruct (j - length ss) as [|[|k]]; cbn; intros [=]; lia.
Qed.

End Loop.

Section CreateLoop.
Context (E : Engine).

Lemma run_create_cell n_cells r rf acc i theta ss pp sm nn vv cl lg :
  to_float r = Ret rf ->
  ring_theta E n_cells i = Ret theta ->
  parents_valid ss ->
  create_cell E n_cells r acc i (mkState ss pp sm nn vv cl lg)
  = (c ← BallAndStick E (PInt i)
           (PFloat (rf * hoc_cos E theta)) (PFloat (rf * hoc_sin E theta))
           (PInt 0) (PFloat theta);
     mret (acc ++ [c])) (mkState ss pp sm nn vv cl lg).
Proof.
  intros Hr Ht Hss. unfold create_cell.
  rewrite (bind_run _ _ _ theta _) by (by apply run_lift).
  rewrite (bind_run _ _ _ (hoc_cos E theta) _) by reflexivity.
  rewrite (bind_run _ _ _ (PFloat (rf * hoc_cos E theta)) _)
    by (by apply run_lift, py_mul_float_l).
  rewrite (bind_run _ _ _ (hoc_sin E theta) _) by reflexivity.
  rewrite (bind_run _ _ _ (PFloat (rf * hoc_sin E theta)) _)
    by (by apply run_lift, py_mul_float_l).
  done.
Qed.

Lemma run_create_loop n_cells r rf (l : list Z) :
  to_float r = Ret rf ->
  (2 * n_cells < float_int_bound)%Z ->
  Forall (fun i => (0 <= i < n_cells)%Z) l ->
  forall acc st,
    parents_valid (secs st) ->
    exists cs st' new,
      for_fold l acc (create_cell E n_cells r) st = Ret (acc ++ cs, st') /\
      built E n_cells rf l st cs st' /\
      parents_valid (secs st') /\
      cs = seq (length (cells st)) (length l) /\
      cells st' = cells st ++ new /\
      length new = length l /\
      forall j i, l !! j = Some i ->
                  ring_cell_at E n_cells rf st' i (length (cells st) + j).
Proof.
  intros Hr Hb. induction 1 as [|i l [Hi0 Hin] Hl IH]; intros acc st Hst.
  - exists [], st, []. rewrite !app_nil_r. repeat split; try done. constructor.
  - destruct st as [ss pp sm nn vv cl lg]. cbn [secs cells] in *.
    destruct (ring_theta_ok E n_cells i) as (theta & Ht & Hs); [lia..|].
    set (st1 := mkState (shape_fill E (ss ++ [new_soma; new_dend (length ss)]))
                        pp sm nn vv
                        (cl ++ [ball_and_stick (PInt i) (PFloat (rf * hoc_cos E theta))
                                  (PFloat (rf * hoc_sin E theta)) (PInt 0) (length ss)])
                        (lg ++ construction_log (length ss))).
    destruct (IH (acc ++ [length cl]) st1) as (cs & st' & new & Hrun & Hbuilt & Hpv & Hcs & Hcells & Hlen & Hat).
    { by apply parents_valid_shape_fill, parents_valid_grow. }
    exists (length cl :: cs), st', (ball_and_stick (PInt i) (PFloat (rf * hoc_cos E theta))
                                  (PFloat (rf * hoc_sin E theta)) (PInt 0) (length ss) :: new).
    change (cells st1) with (cl ++ [ball_and_stick (PInt i) (PFloat (rf * hoc_cos E theta))
                                  (PFloat (rf * hoc_sin E theta)) (PInt 0) (length ss)]) in *.
    rewrite length_snoc in *.
    split; [|split; [|split; [|split; [|split; [|split]]]]].
    + cbn [for_fold].
      rewrite (bind_run _ _ _ (acc ++ [length cl]) st1).
      * rewrite Hrun. by rewrite <- app_assoc.
      * rewrite (run_create_cell _ _ rf _ _ theta) by done.
        by rewrite (bind_run _ _ _ _ _ (run_BallAndStick E _ _ _ _ _ _ _ _ _ _ _ _ Hst)).
    + econstructor; [exact Hs| |exact Hbuilt].
      by apply run_BallAndStick.
    + done.
    + cbn [length seq]. by rewrite Hcs.
    + rewrite Hcells. by rewrite <- app_assoc.
    + cbn [length]. by rewrite Hlen.
    + intros [|j] i' Hj; cbn in Hj.
      * injection Hj as <-. rewrite Nat.add_0_r.
        eexists _, theta. split.
        { rewrite Hcells, <- app_assoc. apply lookup_tail0. }
        by repeat split.
      * replace (length cl + S j) with (S (length cl) + j) by lia. by apply Hat.
Qed.

End CreateLoop.

(** ** Claims about [create_n_BallAndStick] *)

Lemma parents_valid_nil : parents_valid [].
Proof. intros j p. unfold parent_of. by rewrite lookup_nil. Qed.






(** ** The script, phase by phase *)

Section Phases.
Context (E : Engine).

(** [define_shape] hands every section one list of points. *)
Lemma imap_reshape (f : nat -> list Pt3d) (L : list Sec) :
  imap (fun i sc => reshape E (f i) sc) L
  = zip_with (reshape E) (imap (fun i _ => f i) L) L.
Proof.
  revert f. induction L as [|sc L IH]; intros f; [done|].
  cbn [imap zip_with]. f_equal. apply (IH (f ∘ S)).
Qed.

Lemma shape_fill_abstract (L : list Sec) :
  exists P, length P = length L /\ shape_fill E L = zip_with (reshape E) P L.
Proof.
  eexists. split; [|apply imap_reshape]. by rewrite length_imap.
Qed.

(** One turn of the loop of [create_n_BallAndStick], the points
    [define_shape] chooses being named [P]. *)
Lemma create_step n_cells r rf i acc ss pp sm nn vv cl lg :
  to_float r = Ret rf ->
  (0 <= i < n_cells)%Z ->
  (2 * n_cells < float_int_bound)%Z ->
  parents_valid ss ->
  exists theta P,
    length P = length ss + 2 /\
    parents_valid (zip_with (reshape E) P (ss ++ [new_soma; new_dend (length ss)])) /\
    create_cell E n_cells r acc i (mkState ss pp sm nn vv cl lg)
    = Ret (acc ++ [length cl],
           mkState (zip_with (reshape E) P (ss ++ [new_soma; new_dend (length ss)]))
                   pp sm nn vv
                   (cl ++ [ball_and_stick (PInt i) (PFloat (rf * hoc_cos E theta))
                             (PFloat (rf * hoc_sin E theta)) (PInt 0) (length ss)])
                   (lg ++ construction_log (length ss))).
Proof.
  intros Hr Hi Hb Hss.
  destruct (ring_theta_ok E n_cells i) as (theta & Ht & _); [lia..|].
  destruct (shape_fill_abstract (ss ++ [new_soma; new_dend (length ss)]))
    as (P & HP & Hfill).
  exists theta, P. split; [by rewrite HP, length_snoc2; lia|]. split.
  - rewrite <- Hfill. by apply parents_valid_shape_fill, parents_valid_grow.
  - rewrite (run_create_cell E _ _ rf _ _ theta) by done.
    rewrite (bind_run _ _ _ _ _ (run_BallAndStick E _ _ _ _ _ _ _ _ _ _ _ _ Hss)).
    by rewrite Hfill.
Qed.

(** A reshaped section is a shaped one. *)
Lemma reshape_soma pts d q : reshape E pts (soma_sec d q) = shaped_soma E pts.
Proof. reflexivity. Qed.

Lemma reshape_dend pts k d q : reshape E pts (dend_sec k d q) = shaped_dend E k pts.
Proof. reflexivity. Qed.

Lemma reshape_new_soma pts : reshape E pts new_soma = shaped_soma E pts.
Proof. reflexivity. Qed.

Lemma reshape_new_dend pts k : reshape E pts (new_dend k) = shaped_dend E k pts.
Proof. reflexivity. Qed.

Lemma reshape_shaped_soma pts q : reshape E pts (shaped_soma E q) = shaped_soma E pts.
Proof. reflexivity. Qed.

Lemma reshape_shaped_dend pts k q :
  reshape E pts (shaped_dend E k q) = shaped_dend E k pts.
Proof. reflexivity. Qed.

(** A list of known length, element by element. *)
Ltac explicit_list P H :=
  repeat (destruct P as [|? P]; [discriminate H|]);
  try (destruct P; [|discriminate H]).

Ltac tidy_shapes :=
  cbn [zip_with] in *;
  rewrite ?reshape_new_soma, ?reshape_new_dend, ?reshape_shaped_soma,
          ?reshape_shaped_dend in *.

Lemma build_run :
  exists p x y, build E init_state = Ret ([0; 1; 2; 3; 4], built_state E p x y).
Proof.
  assert (to_float (PInt 50) = Ret 50%float) as Hr by (by vm_compute).
  assert (2 * 5 < float_int_bound)%Z as Hb by (by vm_compute).
  destruct (create_step 5 (PInt 50) 50 0 [] [] [] [] [] [] [] [EvLoadFile "stdrun.hoc"]
              Hr ltac:(lia) Hb parents_valid_nil) as (t0 & P0 & HP0 & Hv0 & H0).
  cbn [length Nat.add app] in *. explicit_list P0 HP0. tidy_shapes.
  match type of H0 with
  | _ = Ret (?acc, mkState ?ss _ _ _ _ ?cl ?lg) =>
      destruct (create_step 5 (PInt 50) 50 1 acc ss [] [] [] [] cl lg
                  Hr ltac:(lia) Hb Hv0) as (t1 & P1 & HP1 & Hv1 & H1)
  end.
  cbn [length Nat.add app] in *. explicit_list P1 HP1. tidy_shapes.
  match type of H1 with
  | _ = Ret (?acc, mkState ?ss _ _ _ _ ?cl ?lg) =>
      destruct (create_step 5 (PInt 50) 50 2 acc ss [] [] [] [] cl lg
                  Hr ltac:(lia) Hb Hv1) as (t2 & P2 & HP2 & Hv2 & H2)
  end.
  cbn [length Nat.add app] in *. explicit_list P2 HP2. tidy_shapes.
  match type of H2 with
  | _ = Ret (?acc, mkState ?ss _ _ _ _ ?cl ?lg) =>
      destruct (create_step 5 (PInt 50) 50 3 acc ss [] [] [] [] cl lg
                  Hr ltac:(lia) Hb Hv2) as (t3 & P3 & HP3 & Hv3 & H3)
  end.
  cbn [length Nat.add app] in *. explicit_list P3 HP3. tidy_shapes.
  match type of H3 with
  | _ = Ret (?acc, mkState ?ss _ _ _ _ ?cl ?lg) =>
      destruct (create_step 5 (PInt 50) 50 4 acc ss [] [] [] [] cl lg
                  Hr ltac:(lia) Hb Hv3) as (t4 & P4 & HP4 & Hv4 & H4)
  end.
  cbn [length Nat.add app] in *. explicit_list P4 HP4. tidy_shapes.
  clear Hv0 Hv1 Hv2 Hv3 Hv4 HP0 HP1 HP2 HP3 HP4.
  match type of H4 with
  | _ = Ret (_, mkState ?ss _ _ _ _ ?cl _) =>
      exists (fun k => default [] (sec_pts <$> ss !! k)),
             (fun k => default (PInt 0) (cl !! k ≫= c_x)),
             (fun k => default (PInt 0) (cl !! k ≫= c_y))
  end.
  match type of H4 with
  | _ = Ret (_, ?st) =>
      assert (create_n_BallAndStick E 5 (PInt 50)
                (mkState [] [] [] [] [] [] [EvLoadFile "stdrun.hoc"])
              = Ret ([0; 1; 2; 3; 4], st)) as Hloop
  end.
  { unfold create_n_BallAndStick.
    change (seqZ 0 5) with [0; 1; 2; 3; 4]%Z. cbn [for_fold].
    rewrite (bind_run _ _ _ _ _ H0). cbn [app].
    rewrite (bind_run _ _ _ _ _ H1). cbn [app].
    rewrite (bind_run _ _ _ _ _ H2). cbn [app].
    rewrite (bind_run _ _ _ _ _ H3). cbn [app].
    by rewrite (bind_run _ _ _ _ _ H4). }
  unfold build.
  rewrite (bind_run _ _ _ tt
             (mkState [] [] [] [] [] [] [EvLoadFile "stdrun.hoc"])) by reflexivity.
  rewrite (bind_run _ _ _ _ _ Hloop).
  reflexivity.
Qed.

Lemma wire_run :
  exists p x y,
    build E init_state = Ret ([0; 1; 2; 3; 4], built_state E p x y) /\
    wire_inputs E init_state
    = Ret (([0; 1; 2; 3; 4], (0, 0, 0), (0, 0, 1, 2, 3)), wired_state E p x y).
Proof.
  destruct build_run as (p & x & y & Hb). exists p, x, y.
  split; [exact Hb|].
  unfold wire_inputs. rewrite (bind_run _ _ _ _ _ Hb).
  vm_compute. reflexivity.
Qed.

Lemma ring_run p x y :
  connect_ring [0; 1; 2; 3; 4] (wired_state E p x y)
  = Ret (([1; 2; 3; 4; 5], [1; 2; 3; 4; 5]), ringed_state E p x y).
Proof. vm_compute. reflexivity. Qed.

Lemma spikes_run p x y :
  record_spikes [1; 2; 3; 4; 5] (ringed_state E p x y)
  = Ret ([4; 5; 6; 7; 8], setup_state E p x y).
Proof. vm_compute. reflexivity. Qed.

Lemma setup_run :
  exists p x y,
    build E init_state = Ret ([0; 1; 2; 3; 4], built_state E p x y) /\
    setup E init_state = Ret (script_env, setup_state E p x y).
Proof.
  destruct wire_run as (p & x & y & Hb & Hw). exists p, x, y.
  split; [exact Hb|].
  unfold setup. rewrite (bind_run _ _ _ _ _ Hw). cbv beta iota.
  rewrite (bind_run _ _ _ _ _ (ring_run p x y)). cbv beta iota.
  by rewrite (bind_run _ _ _ _ _ (spikes_run p x y)).
Qed.

End Phases.

Section Whole.
Context (E : Engine).

Lemma simulate_plot_run p x y :
  (simulate E;; plot script_env) (setup_state E p x y)
  = Ret (tt, final_state E p x y).
Proof. vm_compute. reflexivity. Qed.

Lemma script_run :
  exists p x y,
    build E init_state = Ret ([0; 1; 2; 3; 4], built_state E p x y) /\
    setup E init_state = Ret (script_env, setup_state E p x y) /\
    script E init_state = Ret (script_env, final_state E p x y).
Proof.
  destruct (setup_run E) as (p & x & y & Hb & Hs). exists p, x, y.
  split; [exact Hb|]. split; [exact Hs|].
  unfold script. rewrite (bind_run _ _ _ _ _ Hs).
  generalize (simulate_plot_run p x y). unfold mbind, Py_bind.
  destruct (simulate E (setup_state E p x y)) as [[[] st1]|]; [|done].
  by intros ->.
Qed.

End Whole.
(** ** Loops over the 3-D points of a cell *)

Lemma bind_ext_in {A B} (f g : A -> list B) (l : list A) :
  (forall a, a ∈ l -> f a = g a) -> l ≫= f = l ≫= g.
Proof.
  induction l as [|a l IH]; intros Hfg; [done|].
  rewrite !bind_cons, Hfg by left. f_equal. apply IH. intros b Hb. apply Hfg. by right.
Qed.

Section Moves.
Context (E : Engine).

(** Measuring again forgets what was measured before. *)
Lemma remeasure_again pts pts' sc :
  remeasure E (sec_set_pts pts (remeasure E (sec_set_pts pts' sc)))
  = remeasure E (sec_set_pts pts sc).
Proof. by destruct sc. Qed.

Lemma move_secs_cons g s all ss :
  move_secs E g (s :: all) ss
  = move_secs E g all (match ss !! s with
                       | Some sc => <[s := move_sec E g sc]> ss
                       | None => ss
                       end).
Proof. reflexivity. Qed.

Lemma move_secs_length g all ss : length (move_secs E g all ss) = length ss.
Proof.
  revert ss. induction all as [|s all IH]; intros ss; [done|].
  rewrite move_secs_cons, IH. destruct (ss !! s); [by rewrite length_insert|done].
Qed.

(** With no section listed twice, each listed section is treated once and
    the others are not touched. *)
Lemma move_secs_lookup g all ss s :
  NoDup all ->
  move_secs E g all ss !! s
  = (if decide (s ∈ all) then move_sec E g else id) <$> ss !! s.
Proof.
  revert ss. induction all as [|a all IH]; intros ss Hnd.
  - cbn. rewrite decide_False by apply not_elem_of_nil. by destruct (ss !! s).
  - apply NoDup_cons in Hnd as [Ha Hnd]. rewrite move_secs_cons, IH by done.
    destruct (decide (s = a)) as [->|Hne].
    + rewrite decide_False by done. rewrite decide_True by left.
      destruct (ss !! a) as [sc|] eqn:Hsc; [|by rewrite Hsc].
      rewrite list_lookup_insert_eq by (by eapply lookup_lt_Some). done.
    + assert ((match ss !! a with
               | Some sc => <[a:=move_sec E g sc]> ss
               | None => ss
               end) !! s = ss !! s) as ->.
      { destruct (ss !! a); [by rewrite list_lookup_insert_ne|done]. }
      destruct (decide (s ∈ all)) as [Hin|Hin].
      * by rewrite decide_True by by right.
      * rewrite decide_False; [done|]. intros [?|?]%elem_of_cons; done.
Qed.

(** One [pt3dchange] on a point that exists. *)
Lemma run_pt3dchange s i sc q ss pp sm nn vv cl lg :
  ss !! s = Some sc ->
  i < length (sec_pts sc) ->
  pt3dchange E s i (PFloat (pt_x q)) (PFloat (pt_y q)) (PFloat (pt_z q))
             (PFloat (pt_diam q)) (mkState ss pp sm nn vv cl lg)
  = Ret (tt, mkState (<[s := remeasure E (sec_set_pts (<[i := store_pt q]> (sec_pts sc)) sc)]> ss)
                     pp sm nn vv cl (lg ++ [EvPt3dchange s i])).
Proof.
  intros Hs Hi. unfold pt3dchange. cbn [to_float].
  do 4 (rewrite (bind_run _ _ _ _ _ (run_lift _ _ _ eq_refl))).
  rewrite (bind_run _ _ _ _ _ (run_fetch secs s (mkState ss pp sm nn vv cl lg) sc Hs)).
  rewrite decide_True by done.
  rewrite (bind_run _ _ _ _ _
             (run_update secs with_secs s _ (mkState ss pp sm nn vv cl lg) sc Hs)).
  by destruct q.
Qed.

(** The two nested loops of [set_position] and [rotate_z], for any body that
    hands the image of point [i] under [g] to [pt3dchange]. *)
Section PointLoop.
Context (g : Pt3d -> Pt3d) (body : nat -> nat -> Py unit) (cl : list Cell).
Hypothesis body_run : forall s i sc q ss pp sm nn vv lg,
  ss !! s = Some sc ->
  sec_pts sc !! i = Some q ->
  body s i (mkState ss pp sm nn vv cl lg)
  = Ret (tt, mkState (<[s := remeasure E (sec_set_pts (<[i := store_pt (g q)]> (sec_pts sc)) sc)]> ss)
                     pp sm nn vv cl (lg ++ [EvPt3dchange s i])).

(** The inner loop, from any point on: the points in [done_] are treated
    already, those in [todo] are still to come. *)
Lemma run_points_loop s (todo : list Pt3d) :
  forall done_ sc ss pp sm nn vv lg,
    ss !! s = Some sc ->
    sec_pts sc = done_ ++ todo ->
    for_each (seq (length done_) (length todo)) (body s)
             (mkState ss pp sm nn vv cl lg)
    = Ret (tt, mkState (<[s := match todo with
                              | [] => sc
                              | _ :: _ =>
                                  remeasure E
                                    (sec_set_pts (done_ ++ (store_pt ∘ g <$> todo)) sc)
                              end]> ss)
                       pp sm nn vv cl
                       (lg ++ (EvPt3dchange s <$> seq (length done_) (length todo)))).
Proof.
  induction todo as [|q todo IH]; intros done_ sc ss pp sm nn vv lg Hs Hpts.
  - cbn. by rewrite list_insert_id, app_nil_r.
  - cbn [length seq for_each fmap list_fmap].
    rewrite (bind_run _ _ _ tt _
               (body_run s (length done_) sc q _ _ _ _ _ _ Hs
                  ltac:(rewrite Hpts; apply lookup_tail0))).
    rewrite Hpts, insert_tail0.
    specialize (IH (done_ ++ [store_pt (g q)])
                   (remeasure E (sec_set_pts (done_ ++ store_pt (g q) :: todo) sc))).
    rewrite length_snoc in IH. rewrite IH.
    + rewrite list_insert_insert_eq.
      destruct todo as [|q' todo]; [|rewrite remeasure_again];
        by rewrite <- ?app_assoc.
    + apply list_lookup_insert_eq. by eapply lookup_lt_Some.
    + destruct sc. cbn. by rewrite <- app_assoc.
Qed.

Lemma run_section_loop s sc ss pp sm nn vv lg :
  ss !! s = Some sc ->
  (k ← n3d s; for_each (seq 0 k) (body s)) (mkState ss pp sm nn vv cl lg)
  = Ret (tt, mkState (<[s := move_sec E g sc]> ss) pp sm nn vv cl
                     (lg ++ (EvPt3dchange s <$> seq 0 (length (sec_pts sc))))).
Proof.
  intros Hs.
  assert (n3d s (mkState ss pp sm nn vv cl lg)
          = Ret (length (sec_pts sc), mkState ss pp sm nn vv cl lg)) as Hn.
  { unfold n3d. by rewrite (bind_run _ _ _ _ _ (run_fetch secs s (mkState ss pp sm nn vv cl lg) sc Hs)). }
  rewrite (bind_run _ _ _ _ _ Hn).
  by apply (run_points_loop s (sec_pts sc) []).
Qed.

(** The outer loop. *)
Lemma run_sections_loop (all : list nat) :
  forall ss pp sm nn vv lg,
    NoDup all ->
    (forall s, s ∈ all -> s < length ss) ->
    for_each all (fun sec => k ← n3d sec; for_each (seq 0 k) (body sec))
             (mkState ss pp sm nn vv cl lg)
    = Ret (tt, mkState (move_secs E g all ss) pp sm nn vv cl (lg ++ rotate_log ss all)).
Proof.
  induction all as [|s all IH]; intros ss pp sm nn vv lg Hnd Hall.
  - cbn. by rewrite app_nil_r.
  - apply NoDup_cons in Hnd as [Hs Hnd].
    destruct (lookup_lt_is_Some_2 ss s) as [sc Hsc]; [apply Hall; by left|].
    cbn [for_each].
    rewrite (bind_run _ _ _ _ _ (run_section_loop s sc _ _ _ _ _ _ Hsc)).
    rewrite IH; [|done|].
    + assert (rotate_log ss (s :: all)
              = (EvPt3dchange s <$> seq 0 (length (sec_pts sc)))
                  ++ rotate_log (<[s:=move_sec E g sc]> ss) all) as ->.
      { unfold rotate_log. rewrite bind_cons, Hsc. f_equal. apply bind_ext_in.
        intros s' Hs'. rewrite list_lookup_insert_ne; [done|].
        intros ->. by apply Hs. }
      by rewrite move_secs_cons, Hsc, <- app_assoc.
    + intros s' Hs'. rewrite length_insert. apply Hall. by right.
Qed.

(** What the loops leave. *)
Lemma sections_loop_frame (all : list nat) (ss : list Sec) :
  NoDup all ->
  length (move_secs E g all ss) = length ss /\
  (forall s sc, s ∈ all -> ss !! s = Some sc ->
                move_secs E g all ss !! s = Some (move_sec E g sc)) /\
  (forall s, s ∉ all -> move_secs E g all ss !! s = ss !! s).
Proof.
  intros Hnd. split; [apply move_secs_length|]. split.
  - intros s sc Hs Hsc. rewrite move_secs_lookup, Hsc by done. by rewrite decide_True.
  - intros s Hs. rewrite move_secs_lookup by done.
    rewrite decide_False by done. by destruct (ss !! s).
Qed.

End PointLoop.

(** Sections without 3-D points give the loops nothing to do, whatever the
    body is. *)
Lemma run_sections_loop_bare (body : nat -> nat -> Py unit) (all : list nat) st :
  (forall s, s ∈ all -> exists sc, secs st !! s = Some sc /\ sec_pts sc = []) ->
  for_each all (fun sec => k ← n3d sec; for_each (seq 0 k) (body sec)) st
  = Ret (tt, st).
Proof.
  induction all as [|s all IH]; intros Hall; [done|].
  destruct (Hall s) as (sc & Hsc & Hpts); [by left|].
  cbn [for_each].
  assert (n3d s st = Ret (0, st)) as Hn.
  { unfold n3d. rewrite (bind_run _ _ _ _ _ (run_fetch secs s st sc Hsc)).
    by rewrite Hpts. }
  rewrite (bind_run _ _ _ tt st).
  - apply IH. intros s' Hs'. apply Hall. by right.
  - by rewrite (bind_run _ _ _ _ _ Hn).
Qed.

(** ** Rotation *)

Lemma run_hoc_arg theta t st : to_float theta = Ret t -> hoc_arg theta st = Ret (t, st).
Proof. intros Ht. unfold hoc_arg. by rewrite Ht. Qed.

Lemma run_rotate_point theta t cl s i sc q ss pp sm nn vv lg :
  to_float theta = Ret t ->
  ss !! s = Some sc ->
  sec_pts sc !! i = Some q ->
  rotate_point E theta s i (mkState ss pp sm nn vv cl lg)
  = Ret (tt, mkState (<[s := remeasure E (sec_set_pts (<[i := store_pt (rotate_pt E t q)]> (sec_pts sc)) sc)]> ss)
                     pp sm nn vv cl (lg ++ [EvPt3dchange s i])).
Proof.
  intros Ht Hs Hq. unfold rotate_point.
  pose proof (run_fetch secs s (mkState ss pp sm nn vv cl lg) sc Hs) as Hf.
  assert (forall proj, pt3d proj s i (mkState ss pp sm nn vv cl lg)
                       = Ret (proj q, mkState ss pp sm nn vv cl lg)) as Hp.
  { intros proj. unfold pt3d. rewrite (bind_run _ _ _ _ _ Hf). by rewrite Hq. }
  assert (n_cos E theta (mkState ss pp sm nn vv cl lg)
          = Ret (hoc_cos E t, mkState ss pp sm nn vv cl lg)) as Hc.
  { unfold n_cos. by rewrite (bind_run _ _ _ _ _ (run_hoc_arg _ _ _ Ht)). }
  assert (n_sin E theta (mkState ss pp sm nn vv cl lg)
          = Ret (hoc_sin E t, mkState ss pp sm nn vv cl lg)) as Hsn.
  { unfold n_sin. by rewrite (bind_run _ _ _ _ _ (run_hoc_arg _ _ _ Ht)). }
  unfold x3d, y3d, z3d, diam3d.
  rewrite (bind_run _ _ _ _ _ (Hp pt_x)), (bind_run _ _ _ _ _ (Hp pt_y)).
  rewrite (bind_run _ _ _ _ _ Hc), (bind_run _ _ _ _ _ Hsn).
  rewrite (bind_run _ _ _ _ _ Hsn), (bind_run _ _ _ _ _ Hc).
  rewrite (bind_run _ _ _ _ _ (Hp pt_z)), (bind_run _ _ _ _ _ (Hp pt_diam)).
  apply (run_pt3dchange s i sc (rotate_pt E t q)); [done|].
  by eapply lookup_lt_Some.
Qed.

End Moves.

(** [rotate_z] on a cell whose sections exist. *)
Lemma run_rotate_z (E : Engine) (self : nat) (theta : pynum) (t : float)
    (cell : Cell) (all : list nat) ss pp sm nn vv cl lg :
  cl !! self = Some cell ->
  c_all cell = Some all ->
  NoDup all ->
  (forall s, s ∈ all -> s < length ss) ->
  to_float theta = Ret t ->
  rotate_z E self theta (mkState ss pp sm nn vv cl lg)
  = Ret (tt, mkState (move_secs E (rotate_pt E t) all ss) pp sm nn vv cl
                     (lg ++ rotate_log ss all)).
Proof.
  intros Hcell Hall Hnd Hin Ht. unfold rotate_z.
  rewrite (bind_run _ _ _ _ _
             (run_getattr c_all self (mkState ss pp sm nn vv cl lg) cell all Hcell Hall)).
  apply (run_sections_loop E (rotate_pt E t) (rotate_point E theta) cl); [|done..].
  intros s i sc q; intros. by apply run_rotate_point.
Qed.

(** C8, as amended.  For a cell whose section list names existing sections,
    none of them twice, and an angle that converts to the double [t],
    [rotate_z(theta)] returns normally.  In every section of the cell it
    replaces every 3-D point [(x, y, z, d)] by the single-precision value of
    [(x * cos t - y * sin t, x * sin t + y * cos t, z, d)], and a section
    that has points then reads the length and the diameter the simulator
    derives from the new points.  The other attributes of these sections,
    all other sections, every other simulator object and every [Cell] object
    (so the id and the stored [x], [y], [z]) are as they were. *)
Theorem rotate_z_spec (E : Engine) (st : State) (self : nat) (theta : pynum)
    (t : float) (cell : Cell) (all : list nat) :
  cells st !! self = Some cell ->
  c_all cell = Some all ->
  NoDup all ->
  (forall s, s ∈ all -> s < length (secs st)) ->
  to_float theta = Ret t ->
  exists st', rotate_z E self theta st = Ret (tt, st') /\ rotated_only E t all st st'.
Proof.
  intros Hcell Hall Hnd Hin Ht. destruct st as [ss pp sm nn vv cl lg].
  cbn [secs cells] in *.
  eexists. split; [by eapply run_rotate_z|].
  do 5 (split; [reflexivity|]). cbn [secs log].
  destruct (sections_loop_frame E (rotate_pt E t) all ss Hnd) as (Hlen & Hin' & Hout).
  by repeat split.
Qed.

Lemma rotate_z_spec_witness :
  exists st',
    rotate_z demo_engine 0 (PFloat 0.5) demo_built = Ret (tt, st') /\
    rotated_only demo_engine 0.5 [0; 1] demo_built st'.
Proof.
  eapply (rotate_z_spec demo_engine demo_built 0 (PFloat 0.5) 0.5%float).
  - vm_compute. reflexivity.
  - reflexivity.
  - apply (bool_decide_unpack _). vm_compute. reflexivity.
  - intros s Hs. apply elem_of_cons in Hs as [->|Hs]; [vm_compute; lia|].
    apply elem_of_cons in Hs as [->|Hs]; [vm_compute; lia|].
    by apply elem_of_nil in Hs.
  - reflexivity.
Defined.

(** An angle that no double can hold makes the interpreter's [cos] fail,
    with [RuntimeError], as soon as there is a point to rotate. *)
Example rotate_z_huge_angle :
  rotate_z demo_engine 0 (PInt (2 ^ 1024)) demo_built = Exc RuntimeError.
Proof. vm_compute. reflexivity. Qed.

(** ** Morphology of any number of cells *)

Section Layout.
Context (E : Engine).

Lemma shape_fill_soma ss j d pa :
  ss !! j = Some (soma_sec d pa) ->
  exists pa', shape_fill E ss !! j = Some (shaped_soma E pa').
Proof.
  intros Hj. unfold shape_fill. rewrite list_lookup_imap, Hj. by eexists.
Qed.

Lemma shape_fill_dend ss j k d pb :
  ss !! j = Some (dend_sec k d pb) ->
  exists pb', shape_fill E ss !! j = Some (shaped_dend E k pb').
Proof.
  intros Hj. unfold shape_fill. rewrite list_lookup_imap, Hj. by eexists.
Qed.

(** One construction keeps the layout. *)
Lemma layout_step id_ x y z theta st c st1 :
  ring_layout E st ->
  BallAndStick E id_ x y z theta st = Ret (c, st1) ->
  ring_layout E st1.
Proof.
  destruct st as [ss pp sm nn vv cl lg]. intros (Hpv & Hlen & Hcells).
  cbn [secs cells] in *. rewrite run_BallAndStick by done. intros [= <- <-].
  unfold ring_layout. cbn [secs cells]. split; [|split].
  - by apply parents_valid_shape_fill, parents_valid_grow.
  - unfold shape_fill. rewrite length_imap, length_snoc, length_snoc2. lia.
  - intros c cell Hc. destruct (decide (c < length cl)) as [Hlt|Hge].
    + rewrite lookup_app_l in Hc by done.
      destruct (Hcells c cell Hc) as (i & cx & cy & cz & pa & pb & -> & Hso & Hde).
      destruct (shape_fill_soma (ss ++ [new_soma; new_dend (length ss)]) (2 * c) (diam_of E pa) pa)
        as [pa' Hpa]; [by apply lookup_app_l_Some|].
      destruct (shape_fill_dend (ss ++ [new_soma; new_dend (length ss)])
                  (S (2 * c)) (2 * c) (diam_of E pb) pb)
        as [pb' Hpb]; [by apply lookup_app_l_Some|].
      by exists i, cx, cy, cz, pa', pb'.
    + apply lookup_lt_Some in Hc as Hc'. rewrite length_snoc in Hc'.
      assert (c = length cl) as -> by lia.
      rewrite lookup_tail0 in Hc. injection Hc as <-. rewrite <- Hlen.
      destruct (shape_fill_soma (ss ++ [new_soma; new_dend (length ss)])
                  (length ss) 12.6157 [])
        as [pa' Hpa]; [apply lookup_tail0|].
      destruct (shape_fill_dend (ss ++ [new_soma; new_dend (length ss)])
                  (S (length ss)) (length ss) 1 [])
        as [pb' Hpb]; [apply lookup_tail1|].
      by exists id_, x, y, z, pa', pb'.
Qed.

(** So does any number of them, one after the other. *)
Lemma layout_built n_cells r l st cs st' :
  built E n_cells r l st cs st' -> ring_layout E st -> ring_layout E st'.
Proof.
  induction 1 as [|i l st c st1 cs st2 theta _ Hrun _ IH]; [done|].
  intros Hst. eapply IH, layout_step; done.
Qed.

Lemma built_count n_cells r l st cs st' :
  built E n_cells r l st cs st' ->
  parents_valid (secs st) ->
  length (cells st') = length (cells st) + length l /\ parents_valid (secs st').
Proof.
  induction 1 as [|i l st c st1 cs st2 theta _ Hrun _ IH]; intros Hpv.
  - cbn. split; [lia|done].
  - destruct st as [ss pp sm nn vv cl lg]. cbn [secs cells] in *.
    rewrite run_BallAndStick in Hrun by done. injection Hrun as <- <-.
    destruct IH as [Hn Hpv'].
    { by apply parents_valid_shape_fill, parents_valid_grow. }
    cbn [cells] in Hn. rewrite length_snoc in Hn. cbn [length]. split; [lia|done].
Qed.

(** The layout gives every cell the two sections of the source, with the
    lengths of the source and the diameters of the 3-D points, and every
    section one owner. *)
Lemma layout_morphology st : ring_layout E st -> morphology_ok E st.
Proof.
  intros (_ & Hlen & Hcells). split.
  - intros c cell Hc.
    destruct (Hcells c cell Hc) as (i & x & y & z & pa & pb & -> & Hso & Hde).
    exists (2 * c), (S (2 * c)), (shaped_soma E pa), (shaped_dend E (2 * c) pb).
    repeat split; try done; cbn; lia.
  - intros s Hs.
    destruct (lookup_lt_is_Some_2 (cells st) (s / 2)) as [cell Hc].
    { apply Nat.Div0.div_lt_upper_bound. lia. }
    assert (forall c', owns st c' s -> c' = s / 2) as Huniq.
    { intros c' (cell' & l & Hc' & Hl & Hin).
      destruct (Hcells c' cell' Hc') as (i & x & y & z & pa & pb & -> & _).
      cbn [c_all ball_and_stick] in Hl. injection Hl as <-.
      apply elem_of_cons in Hin as [->|Hin].
      - apply Nat.div_unique with (r := 0); lia.
      - apply list_elem_of_singleton in Hin as ->.
        apply Nat.div_unique with (r := 1); lia. }
    exists (s / 2). split; [|exact Huniq].
    destruct (Hcells _ cell Hc) as (i & x & y & z & pa & pb & -> & _).
    eexists _, _. split; [exact Hc|]. split; [reflexivity|].
    pose proof (Nat.div_mod_eq s 2) as Hdm.
    pose proof (Nat.mod_upper_bound s 2 ltac:(lia)) as Hm.
    destruct (s mod 2) as [|[|?]] eqn:Hmod; [| |lia].
    + replace (2 * (s / 2)) with s by lia. by left.
    + replace (S (2 * (s / 2))) with s by lia. right. by left.
Qed.

Lemma layout_init : ring_layout E init_state.
Proof.
  split; [apply parents_valid_nil|]. split; [done|].
  intros c cell Hc. cbn in Hc. by rewrite lookup_nil in Hc.
Qed.

End Layout.

(** Whatever the number of cells, each cell [create_n_BallAndStick] makes
    has its soma and its dendrite and nothing else, the dendrite connected
    to the soma; the lengths read 12.6157 and 200 as [setup_morphology] sets
    them, the diameters read what the simulator derives from the 3-D points
    [define_shape] gave the sections; and the cells share no section. *)
Theorem create_n_BallAndStick_morphology (E : Engine) (n_cells : Z) (r : pynum)
    (rf : float) :
  (0 <= n_cells)%Z ->
  (2 * n_cells < float_int_bound)%Z ->
  to_float r = Ret rf ->
  exists cs st,
    create_n_BallAndStick E n_cells r init_state = Ret (cs, st) /\
    length (cells st) = Z.to_nat n_cells /\
    morphology_ok E st.
Proof.
  intros Hn Hb Hr.
  destruct (run_create_loop E n_cells r rf (seqZ 0 n_cells) Hr Hb) with (acc := @nil nat) (st := init_state)
    as (cs & st & new & Hrun & Hbuilt & _); [|apply parents_valid_nil|].
  { apply Forall_seqZ. intros i Hi. lia. }
  exists cs, st. split; [exact Hrun|]. split.
  - destruct (built_count E _ _ _ _ _ _ Hbuilt parents_valid_nil) as [-> _].
    cbn. by rewrite length_seqZ.
  - eapply layout_morphology, layout_built; [exact Hbuilt|apply layout_init].
Qed.

Lemma create_n_BallAndStick_morphology_witness :
  exists cs st,
    create_n_BallAndStick demo_engine 3 (PFloat 2.5) init_state = Ret (cs, st) /\
    length (cells st) = Z.to_nat 3 /\
    morphology_ok demo_engine st.
Proof.
  apply (create_n_BallAndStick_morphology demo_engine 3 (PFloat 2.5) 2.5%float).
  - lia.
  - by vm_compute.
  - reflexivity.
Defined.

(** ** The claims about the script *)

(** Case analysis on an index that the context bounds from above. *)
Ltac small k :=
  first [ exfalso; cbn in *; lia
        | destruct k as [|k]; [try (exfalso; cbn in *; lia) | small k] ].

(** Case analysis on membership in an explicit list. *)
Ltac in_cases H :=
  repeat (apply elem_of_cons in H as [->|H]); try (by apply elem_of_nil in H).

(** Case analysis on the index of a successful lookup in an explicit list. *)
Ltac lookup_cases H k :=
  let Hlt := fresh "Hlt" in
  pose proof (lookup_lt_Some _ _ _ H) as Hlt; cbn in Hlt; small k; cbn in H.

Section Claims.
Context (E : Engine).


(** C10.  After the script, the lists of ring synapses, ring connections
    and spike-time vectors each have as many entries as there are cells,
    five; every ring connection has weight[0] = 0.05 and delay = 5; the
    [i]-th connection records into the [i]-th spike-time vector and into no
    other, and no other connection records into it; each cell is the source
    of exactly one ring connection and the target of exactly one. *)
Theorem ring_lists_balanced :
  exists env st, script E init_state = Ret (env, st) /\ ring_balanced env st.
Proof.
  destruct (script_run E) as (p & x & y & _ & _ & Hf).
  exists script_env, (final_state E p x y). split; [exact Hf|]. clear Hf.
  unfold ring_balanced. cbn [script_env my_cells syns netcons spike_times].
  do 4 (split; [done|]).
  do 3 (split; [by apply (bool_decide_unpack _)|]).
  split.
  - intros i Hi. small i.
    all: do 6 eexists; do 10 (split; [reflexivity|]).
    all: intros c' n' Hc' Hrec; lookup_cases Hc' c'.
    all: injection Hc' as <-; cbn in Hrec; by try discriminate.
  - intros cell Hcell.
    pose (src := nth cell [1; 2; 3; 4; 5] 0).
    pose (dst := nth cell [5; 1; 2; 3; 4] 0).
    in_cases Hcell.
    all: do 2 eexists; do 2 (split; [reflexivity|]); split.
    all: [> exists src | exists dst | exists src | exists dst | exists src
          | exists dst | exists src | exists dst | exists src | exists dst ].
    all: cbn in src, dst; subst src dst.
    all: split; [by apply (bool_decide_unpack _)|]; split;
      [by do 2 eexists|].
    all: intros c' Hc' Hx; in_cases Hc'.
    all: first
      [ reflexivity
      | destruct Hx as (n & loc & Hn & Hso); cbn in Hn; injection Hn as <-;
        cbn in Hso; discriminate Hso
      | destruct Hx as (n & s & Hn & Hs & Hde); cbn in Hn; injection Hn as <-;
        cbn in Hs; injection Hs as <-; cbn in Hde; discriminate Hde ].
Qed.

(** Sections owned by the cells of the ring, by case analysis. *)
Lemma owns_ring_cells p x y c s :
  owns (final_state E p x y) c s -> c < 5 /\ (s = 2 * c \/ s = 2 * c + 1).
Proof.
  intros (cell & l & Hc & Hl & Hs). lookup_cases Hc c.
  all: injection Hc as <-; cbn in Hl; injection Hl as <-.
  all: in_cases Hs; lia.
Qed.

(** C3.  The script creates exactly one stimulus object; exactly one
    connection has it as its source, and that connection feeds one synapse,
    which sits at the midpoint of the dendrite of the cell with id 0 and of
    no other cell; no connection from a stimulus reaches any other cell. *)
Theorem one_stimulus_into_cell_0 :
  exists env st, script E init_state = Ret (env, st) /\ stimulus_drive env st.
Proof.
  destruct (script_run E) as (p & x & y & _ & _ & Hf).
  exists script_env, (final_state E p x y). split; [exact Hf|]. clear Hf.
  unfold stimulus_drive. cbn [script_env my_cells stim syn_ ncstim].
  split; [done|]. split; [cbn; lia|]. split; [by eexists|]. split.
  { intros c n k Hc Hk. lookup_cases Hc c; injection Hc as <-; by try discriminate Hk. }
  exists 0, 1. do 3 (split; [reflexivity|]). split; [by eexists|]. split.
  { do 2 eexists. do 2 (split; [reflexivity|]). apply (bool_decide_unpack _). done. }
  split.
  { intros c Hc%owns_ring_cells. lia. }
  intros c n k s cell Hc Hk Hs Ho. lookup_cases Hc c; injection Hc as <-.
  all: try discriminate Hk.
  cbn in Hs. injection Hs as <-. apply owns_ring_cells in Ho. cbn in Ho. lia.
Qed.

(** C9.  The stimulated cell and the recorded cell are the same cell,
    [my_cells[0]]: the stimulus synapse sits on its dendrite, and the soma
    and dendrite voltage recordings are bound to its soma and dendrite. *)
Theorem stimulated_cell_is_recorded_cell :
  exists env st, script E init_state = Ret (env, st) /\ same_cell env st.
Proof.
  destruct (script_run E) as (p & x & y & _ & _ & Hf).
  exists script_env, (final_state E p x y). split; [exact Hf|]. clear Hf.
  split; [done|]. exists 0, 1. repeat split; by eexists.
Qed.


(** C6.  Between the end of setup and the end of the script, the sections,
    synapses, stimuli, connections (with their weights and delays) and
    cells are unchanged, every vector records what it recorded, the
    script's variables are the same, and no call after setup creates an
    object or assigns to one. *)
Theorem nothing_changes_after_setup :
  exists env st_s st_f,
    setup E init_state = Ret (env, st_s) /\
    script E init_state = Ret (env, st_f) /\
    frozen st_s st_f.
Proof.
  destruct (script_run E) as (p & x & y & _ & Hs & Hf).
  exists script_env, (setup_state E p x y), (final_state E p x y).
  split; [exact Hs|]. split; [exact Hf|]. clear Hs Hf.
  do 6 (split; [reflexivity|]).
  exists (run_log ++ plot_log E p x y). split.
  - cbn [log final_state setup_state]. by rewrite <- !app_assoc.
  - by repeat constructor.
Qed.

(** C7.  The script calls the integrator exactly once, right after
    initialising it; every vector is bound to what it records by a call made
    before the run, no binding is made after it, and the reads of recording
    vectors for plotting, one for each spike-time vector, all come after
    it. *)
Theorem one_run_between_bind_and_read :
  exists env st, script E init_state = Ret (env, st) /\ one_run env st.
Proof.
  destruct (script_run E) as (p & x & y & _ & _ & Hf).
  exists script_env, (final_state E p x y). split; [exact Hf|]. clear Hf.
  exists (build_log ++ wire_log ++ ring_log ++ spike_log), (plot_log E p x y),
         (-65)%float, 100%float.
  split; [by rewrite <- !app_assoc|].
  do 4 (split; [by repeat constructor|]).
  split; [|split].
  - intros v Hv. cbn in Hv. small v.
    + left. eexists. by apply (list_elem_of_lookup_2 _ 111).
    + left. eexists. by apply (list_elem_of_lookup_2 _ 113).
    + left. eexists. by apply (list_elem_of_lookup_2 _ 115).
    + left. eexists. by apply (list_elem_of_lookup_2 _ 117).
    + right. eexists. by apply (list_elem_of_lookup_2 _ 143).
    + right. eexists. by apply (list_elem_of_lookup_2 _ 144).
    + right. eexists. by apply (list_elem_of_lookup_2 _ 145).
    + right. eexists. by apply (list_elem_of_lookup_2 _ 146).
    + right. eexists. by apply (list_elem_of_lookup_2 _ 147).
  - intros v Hv. cbn in Hv. in_cases Hv.
    + by apply (list_elem_of_lookup_2 _ 1).
    + by apply (list_elem_of_lookup_2 _ 3).
    + by apply (list_elem_of_lookup_2 _ 5).
    + by apply (list_elem_of_lookup_2 _ 7).
    + by apply (list_elem_of_lookup_2 _ 9).
  - intros v Hv. apply list_elem_of_lookup in Hv as [i Hi].
    lookup_cases Hi i; try discriminate Hi.
    all: injection Hi as <-; by apply (bool_decide_unpack _).
Qed.

(** C5, as amended.  Every connection of the script is either the stimulus
    connection, which goes from the stimulus object (not a cell) to a
    synapse on [my_cells[0]], or one of the ring connections, whose source
    cell and target cell are two different cells of [my_cells]; every
    synapse sits on a cell of [my_cells]; and all cells were completely
    constructed when no synapse and no connection existed yet, and are not
    touched afterwards. *)
Theorem connections_join_cells_built_before :
  exists env st st_b,
    script E init_state = Ret (env, st) /\
    build E init_state = Ret (my_cells env, st_b) /\
    cells_came_first st_b st /\
    connections_by_design env st.
Proof.
  destruct (script_run E) as (p & x & y & Hb & _ & Hf).
  exists script_env, (final_state E p x y), (built_state E p x y).
  split; [exact Hf|]. split; [exact Hb|]. clear Hb Hf. split.
  - do 4 (split; [reflexivity|]).
    repeat constructor; by eexists.
  - split.
    + intros c Hc. cbn in Hc.
      pose (src := nth c [0; 0; 1; 2; 3; 4] 0).
      pose (tgt := nth c [0; 1; 2; 3; 4; 0] 0).
      small c.
      { left. exists 0, 1. do 3 (split; [by try eexists|]). split; [|by eexists].
        do 2 eexists. do 2 (split; [reflexivity|]). by apply (bool_decide_unpack _). }
      all: right; split; [by apply (bool_decide_unpack _)|].
      all: exists src, tgt, (2 * src), (2 * tgt + 1); cbn in src, tgt; subst src tgt.
      all: do 2 (split; [by apply (bool_decide_unpack _)|]); split; [lia|].
      all: split; [|split; [|split]].
      all: try (do 2 eexists; do 2 (split; [reflexivity|]);
                by apply (bool_decide_unpack _)).
      all: by do 2 eexists.
    + intros k s Hk. lookup_cases Hk k; injection Hk as <-.
      all: [> exists 0 | exists 1 | exists 2 | exists 3 | exists 4 | exists 0 ].
      all: split; [by apply (bool_decide_unpack _)|].
      all: do 2 eexists; do 2 (split; [reflexivity|]).
      all: by apply (bool_decide_unpack _).
Qed.

End Claims.

(** ** Where the specification's wording fails *)

(** C5 as worded fails on the first connection the script makes: the
    source of [ncstim] is the stimulus object, so it has no source cell. *)
Lemma stimulus_connection_has_no_source_cell :
  exists env st,
    script demo_engine init_state = Ret (env, st) /\
    ~ every_connection_joins_cells env st.
Proof.
  destruct (script_run demo_engine) as (p & x & y & _ & _ & Hf).
  exists script_env, (final_state demo_engine p x y). split; [exact Hf|].
  intros H. destruct (H 0) as (src & tgt & so & de & _ & _ & _ & _ & _ & Hsrc & _).
  { cbn. lia. }
  destruct Hsrc as (n & loc & Hn & Hsrc). cbn in Hn. injection Hn as <-.
  discriminate Hsrc.
Qed.



(** Under the wording of C8 a section of the cell reads the length it read
    before. *)
Lemma as_stated_length E t all st st' s :
  only_xy_rotated E t all st st' ->
  s ∈ all ->
  secs st' !! s ≫= sec_L = secs st !! s ≫= sec_L.
Proof.
  intros (_ & _ & _ & _ & _ & Hlen & Hin & _) Hs.
  destruct (secs st !! s) as [sc|] eqn:Hsc.
  - rewrite (Hin s sc Hs Hsc). by destruct sc.
  - apply lookup_ge_None in Hsc. rewrite <- Hlen in Hsc.
    apply lookup_ge_None in Hsc. by rewrite Hsc.
Qed.

(** C8 as worded fails for the angle 0 on the first cell of the script: the
    points are stored in single precision already, the rotation leaves them
    as they are, and the soma, which read the length 12.6157, then reads
    the length 12.615699768066406 of its points. *)
Lemma rotate_z_changes_the_length :
  exists st',
    rotate_z demo_engine 0 (PInt 0) demo_built = Ret (tt, st') /\
    ~ only_xy_rotated demo_engine 0 [0; 1] demo_built st'.
Proof.
  eexists. split; [vm_compute; reflexivity|].
  intros H. apply (as_stated_length _ _ _ _ _ 0) in H; [|by left].
  vm_compute in H.
  apply (f_equal (fun o => match o with
                           | Some d => (d <? 12.6157)%float
                           | None => false
                           end)) in H.
  vm_compute in H. discriminate H.
Qed.


(** * Further properties of the code *)

(** ** The constructor *)

Section MoreConstruction.
Context (E : Engine).

Lemma shape_fill_kept ss t j sc :
  ss !! j = Some sc ->
  exists sc', shape_fill E (ss ++ t) !! j = Some sc' /\ reshaped E sc sc'.
Proof.
  intros Hj. unfold shape_fill. rewrite list_lookup_imap, (lookup_app_l_Some _ _ _ _ Hj).
  eexists. split; [reflexivity|]. by eexists.
Qed.

(** One construction, on any state. *)
Lemma BallAndStick_step id_ x y z theta st :
  parents_valid (secs st) ->
  exists st',
    BallAndStick E id_ x y z theta st = Ret (length (cells st), st') /\
    cells st' = cells st ++ [ball_and_stick id_ x y z (length (secs st))] /\
    log st' = log st ++ construction_log (length (secs st)) /\
    length (secs st') = length (secs st) + 2 /\
    parents_valid (secs st') /\
    same_network st st' /\
    (forall s sc, secs st !! s = Some sc ->
                  exists sc', secs st' !! s = Some sc' /\ reshaped E sc sc') /\
    exists pa pb,
      secs st' !! length (secs st) = Some (shaped_soma E pa) /\
      secs st' !! S (length (secs st)) = Some (shaped_dend E (length (secs st)) pb).
Proof.
  destruct st as [ss pp sm nn vv cl lg]. cbn [secs cells log]. intros Hss.
  eexists. split; [by apply run_BallAndStick|]. cbn [secs cells log].
  split; [done|]. split; [done|]. split.
  { unfold shape_fill. rewrite length_imap, length_snoc2. lia. }
  split; [by apply parents_valid_shape_fill, parents_valid_grow|].
  split; [done|]. split.
  { intros s sc Hs. cbn [secs] in *. by apply shape_fill_kept. }
  destruct (shape_fill_soma E (ss ++ [new_soma; new_dend (length ss)])
              (length ss) 12.6157 []) as [pa Hso]; [apply lookup_tail0|].
  destruct (shape_fill_dend E (ss ++ [new_soma; new_dend (length ss)])
              (S (length ss)) (length ss) 1 []) as [pb Hde]; [apply lookup_tail1|].
  by exists pa, pb.
Qed.

(** [BallAndStick(...)] cannot fail.  It returns a handle no cell had before
    and adds one [Cell], on two new sections: a soma and a dendrite with the
    lengths and membrane properties of the class, the 3-D points
    [define_shape] chose and the diameters the simulator derives from them.
    It keeps every other cell, every synapse, stimulus, connection and
    vector; a section that was there before keeps its name, parent, length
    and membrane properties, while [define_shape] gives it 3-D points and
    with them the diameter it reads.  The simulator sees the twenty calls
    of [construction_log], the mechanisms inserted before their parameters
    are set and [define_shape] last. *)
Theorem BallAndStick_adds_one_cell id_ x y z theta st :
  parents_valid (secs st) ->
  exists st',
    BallAndStick E id_ x y z theta st = Ret (length (cells st), st') /\
    cells_appended E st st' [ball_and_stick id_ x y z (length (secs st))] /\
    log st' = log st ++ construction_log (length (secs st)) /\
    parents_valid (secs st') /\
    same_network st st' /\
    forall s sc, secs st !! s = Some sc ->
      exists sc', secs st' !! s = Some sc' /\ reshaped E sc sc'.
Proof.
  intros Hss.
  destruct (BallAndStick_step id_ x y z theta st Hss)
    as (st' & Hrun & Hc & Hlog & Hl & Hpv & Hnet & Hkept & pa & pb & Hso & Hde).
  exists st'. split; [done|]. split; [|done].
  split; [done|]. split; [cbn; lia|].
  intros [|j] cell Hj; [|by destruct j]. cbn in Hj.
  injection Hj as <-. rewrite Nat.mul_0_r, Nat.add_0_r.
  by exists id_, x, y, z, pa, pb.
Qed.

(** The sections [BallAndStick(...)] builds and the calls it makes do not
    depend on the id, the position or the angle it is given: the position
    is stored in the object, and no 3-D point is moved to it. *)
Theorem BallAndStick_position_only_stored id1 x1 y1 z1 t1 id2 x2 y2 z2 t2 st :
  parents_valid (secs st) ->
  exists c st1 st2,
    BallAndStick E id1 x1 y1 z1 t1 st = Ret (c, st1) /\
    BallAndStick E id2 x2 y2 z2 t2 st = Ret (c, st2) /\
    secs st1 = secs st2 /\
    log st1 = log st2 /\
    cells st1 !! c ≫= c_x = Some x1 /\
    cells st1 !! c ≫= c_y = Some y1 /\
    cells st1 !! c ≫= c_z = Some z1.
Proof.
  destruct st as [ss pp sm nn vv cl lg]. cbn [secs]. intros Hss.
  eexists _, _, _. split; [by apply run_BallAndStick|].
  split; [by apply run_BallAndStick|]. cbn [secs log cells].
  rewrite lookup_tail0. done.
Qed.

End MoreConstruction.

(** A store is well formed when the list of its parent links is. *)
Lemma parents_valid_of_list ss ps :
  sec_parent <$> ss = ps ->
  (forall j p, ps !! j = Some (Some p) -> p < length ps) ->
  parents_valid ss.
Proof.
  intros <- Hps j p Hj. rewrite <- (length_fmap sec_parent). apply (Hps j).
  rewrite list_lookup_fmap. unfold parent_of in Hj.
  destruct (ss !! j) as [sc|]; [|done]. cbn in *. by rewrite Hj.
Qed.

(** The section tree of the demonstration cells is well formed. *)
Lemma demo_built_valid : parents_valid (secs demo_built).
Proof.
  apply (parents_valid_of_list _
           [None; Some 0; None; Some 2; None; Some 4; None; Some 6; None; Some 8]).
  - vm_compute. reflexivity.
  - intros j p Hq.
    do 10 (destruct j as [|j]; [cbn in Hq; simplify_eq; cbn; lia|]).
    by cbn in Hq.
Qed.

Lemma BallAndStick_adds_one_cell_witness :
  exists st',
    BallAndStick demo_engine (PInt 7) (PInt 1) (PFloat 2.5) (PInt 0) (PInt 3) demo_built
    = Ret (length (cells demo_built), st') /\
    cells_appended demo_engine demo_built st'
      [ball_and_stick (PInt 7) (PInt 1) (PFloat 2.5) (PInt 0) (length (secs demo_built))] /\
    log st' = log demo_built ++ construction_log (length (secs demo_built)) /\
    parents_valid (secs st') /\
    same_network demo_built st' /\
    forall s sc, secs demo_built !! s = Some sc ->
      exists sc', secs st' !! s = Some sc' /\ reshaped demo_engine sc sc'.
Proof.
  exact (BallAndStick_adds_one_cell demo_engine (PInt 7) (PInt 1) (PFloat 2.5) (PInt 0)
           (PInt 3) demo_built demo_built_valid).
Defined.

Lemma BallAndStick_position_only_stored_witness :
  exists c st1 st2,
    BallAndStick demo_engine (PInt 0) (PInt 10) (PInt 20) (PInt 30) (PFloat 1) init_state
    = Ret (c, st1) /\
    BallAndStick demo_engine (PInt 1) (PFloat 0.5) (PInt 0) (PInt 0) (PInt 0) init_state
    = Ret (c, st2) /\
    secs st1 = secs st2 /\
    log st1 = log st2 /\
    cells st1 !! c ≫= c_x = Some (PInt 10) /\
    cells st1 !! c ≫= c_y = Some (PInt 20) /\
    cells st1 !! c ≫= c_z = Some (PInt 30).
Proof.
  exact (BallAndStick_position_only_stored demo_engine (PInt 0) (PInt 10) (PInt 20)
           (PInt 30) (PFloat 1) (PInt 1) (PFloat 0.5) (PInt 0) (PInt 0) (PInt 0)
           init_state parents_valid_nil).
Defined.
(** ** Any number of constructions *)

Section Kept.
Context (E : Engine).

Lemma reshaped_again sc sc1 sc2 :
  reshaped E sc sc1 -> reshaped E sc1 sc2 -> reshaped E sc sc2.
Proof. intros [p1 ->] [p2 ->]. exists p2. by destruct sc. Qed.

Lemma kept_soma pa sc :
  sc = shaped_soma E pa \/ reshaped E (shaped_soma E pa) sc ->
  exists pa', sc = shaped_soma E pa'.
Proof. intros [->|[pts ->]]; by eexists. Qed.

Lemma kept_dend k pb sc :
  sc = shaped_dend E k pb \/ reshaped E (shaped_dend E k pb) sc ->
  exists pb', sc = shaped_dend E k pb'.
Proof. intros [->|[pts ->]]; by eexists. Qed.

Lemma kept_section_refl st s : kept_section E st st s.
Proof. intros sc Hs. exists sc. split; [done|by left]. Qed.

Lemma kept_section_trans st1 st2 st3 s :
  kept_section E st1 st2 s -> kept_section E st2 st3 s -> kept_section E st1 st3 s.
Proof.
  intros H12 H23 sc Hs.
  destruct (H12 sc Hs) as (sc2 & Hs2 & H2).
  destruct (H23 sc2 Hs2) as (sc3 & Hs3 & H3).
  exists sc3. split; [done|].
  destruct H2 as [->|H2]; [done|]. right.
  destruct H3 as [->|H3]; [done|]. by eapply reshaped_again.
Qed.

End Kept.

Lemma same_network_trans st1 st2 st3 :
  same_network st1 st2 -> same_network st2 st3 -> same_network st1 st3.
Proof. unfold same_network. intros (-> & -> & -> & ->) (-> & -> & -> & ->). done. Qed.

Section MoreCreate.
Context (E : Engine).

(** What a sequence of constructions leaves in the stores. *)
Lemma built_frame n_cells r l st cs st' :
  built E n_cells r l st cs st' ->
  parents_valid (secs st) ->
  same_network st st' /\
  (forall s, kept_section E st st' s) /\
  exists new, length new = length l /\ cells_appended E st st' new.
Proof.
  induction 1 as [|i l st c st1 cs st2 theta _ Hrun _ IH]; intros Hpv.
  - split; [done|]. split; [intros s; apply kept_section_refl|].
    exists []. split; [done|]. split; [by rewrite app_nil_r|]. split; [cbn; lia|].
    intros j cell Hj. by rewrite lookup_nil in Hj.
  - destruct (BallAndStick_step E (PInt i) (PFloat (r * hoc_cos E theta))
                (PFloat (r * hoc_sin E theta)) (PInt 0) (PFloat theta) st Hpv)
      as (st1' & Hrun' & Hc1 & _ & Hl1 & Hpv1 & Hnet1 & Hkept1 & pa & pb & Hso & Hde).
    rewrite Hrun in Hrun'. injection Hrun' as -> <-.
    destruct (IH Hpv1) as (Hnet2 & Hkept2 & new & Hlen & Hc2 & Hl2 & Hnew).
    split; [by eapply same_network_trans|].
    split.
    { intros s. eapply kept_section_trans; [|apply Hkept2].
      intros sc Hsc. destruct (Hkept1 s sc Hsc) as (sc' & Hsc' & Hre).
      exists sc'. split; [done|by right]. }
    eexists (_ :: new). split; [cbn; by rewrite Hlen|].
    split; [by rewrite Hc2, Hc1, <- app_assoc|].
    split; [cbn [length]; lia|].
    intros [|j] cell Hj; cbn in Hj.
    + injection Hj as <-. rewrite Nat.mul_0_r, Nat.add_0_r.
      destruct (Hkept2 _ _ Hso) as (sso & Hsso & Hsame).
      destruct (Hkept2 _ _ Hde) as (sde & Hsde & Hsame').
      apply kept_soma in Hsame as [pa' ->].
      apply kept_dend in Hsame' as [pb' ->].
      eexists _, _, _, _, pa', pb'. split; [reflexivity|]. by split.
    + destruct (Hnew j cell Hj) as (id_ & x & y & z & pa' & pb' & -> & Hso' & Hde').
      rewrite Hl1 in Hso', Hde'.
      replace (length (secs st) + 2 + 2 * j) with (length (secs st) + 2 * S j)
        in * by lia.
      rewrite Hl1.
      replace (length (secs st) + 2 + 2 * j) with (length (secs st) + 2 * S j) by lia.
      by exists id_, x, y, z, pa', pb'.
Qed.

Lemma create_n_run n_cells r rf st :
  parents_valid (secs st) ->
  (0 <= n_cells)%Z ->
  (2 * n_cells < float_int_bound)%Z ->
  to_float r = Ret rf ->
  exists st' new,
    create_n_BallAndStick E n_cells r st
    = Ret (seq (length (cells st)) (Z.to_nat n_cells), st') /\
    length new = Z.to_nat n_cells /\
    cells_appended E st st' new /\
    same_network st st' /\
    forall s, kept_section E st st' s.
Proof.
  intros Hst Hn Hb Hr.
  destruct (run_create_loop E n_cells r rf (seqZ 0 n_cells) Hr Hb)
    with (acc := @nil nat) (st := st)
    as (cs & st' & _ & Hrun & Hbuilt & _ & Hcs & _); [|done|].
  { apply Forall_seqZ. intros i Hi. lia. }
  rewrite length_seqZ in Hcs. subst cs.
  destruct (built_frame _ _ _ _ _ _ Hbuilt Hst) as (Hnet & Hkept & new & Hlen & Happ).
  rewrite length_seqZ in Hlen.
  by exists st', new.
Qed.

(** For [n_cells >= 0] and arguments that convert to doubles,
    [create_n_BallAndStick] returns the next [n_cells] cell handles in
    order, so handles no cell had before and each one once.  It appends
    [n_cells] cells, each on two new sections of its own, keeps the cells
    that were there, every synapse, stimulus, connection and vector, and
    keeps every earlier section as it was or up to the 3-D points
    [define_shape] gives it and the diameter it then reads. *)
Theorem create_n_BallAndStick_frame n_cells r rf st :
  parents_valid (secs st) ->
  (0 <= n_cells)%Z ->
  (2 * n_cells < float_int_bound)%Z ->
  to_float r = Ret rf ->
  exists cs st' new,
    create_n_BallAndStick E n_cells r st = Ret (cs, st') /\
    cs = seq (length (cells st)) (Z.to_nat n_cells) /\
    NoDup cs /\
    (forall c, c ∈ cs -> length (cells st) <= c) /\
    length new = Z.to_nat n_cells /\
    cells_appended E st st' new /\
    same_network st st' /\
    forall s, kept_section E st st' s.
Proof.
  intros Hst Hn Hb Hr.
  destruct (create_n_run n_cells r rf st Hst Hn Hb Hr)
    as (st' & new & Hrun & Hlen & Happ & Hnet & Hkept).
  exists (seq (length (cells st)) (Z.to_nat n_cells)), st', new.
  split; [done|]. split; [done|]. split; [apply NoDup_seq|].
  split; [|done]. intros c Hc%elem_of_seq. lia.
Qed.

Lemma soma_sec_biophysics d pa : soma_biophysics (soma_sec d pa).
Proof. by repeat split. Qed.

Lemma dend_sec_biophysics k d pb : dend_biophysics (dend_sec k d pb).
Proof. by repeat split. Qed.

(** Every cell [create_n_BallAndStick] returns has the membrane properties
    of [setup_biophysics]: [Ra = 100] and [cm = 1] on both sections, the
    Hodgkin-Huxley channels with the four conductance parameters of the
    source on the soma and none on the dendrite, the passive channel with
    [g = 0.001] and [e = -65] on the dendrite and none on the soma. *)
Theorem create_n_BallAndStick_biophysics n_cells r rf st :
  parents_valid (secs st) ->
  (0 <= n_cells)%Z ->
  (2 * n_cells < float_int_bound)%Z ->
  to_float r = Ret rf ->
  exists cs st',
    create_n_BallAndStick E n_cells r st = Ret (cs, st') /\
    length cs = Z.to_nat n_cells /\
    forall c, c ∈ cs ->
      exists cell, cells st' !! c = Some cell /\ has_biophysics st' cell.
Proof.
  intros Hst Hn Hb Hr.
  destruct (create_n_run n_cells r rf st Hst Hn Hb Hr)
    as (st' & new & Hrun & Hlen & (Hcells & _ & Hnew) & _).
  eexists _, st'. split; [exact Hrun|]. split; [by rewrite length_seq|].
  intros c [Hlo Hhi]%elem_of_seq.
  destruct (lookup_lt_is_Some_2 new (c - length (cells st))) as [cell Hcell]; [lia|].
  exists cell. split.
  { rewrite Hcells, lookup_app_r by lia. done. }
  destruct (Hnew _ _ Hcell) as (id_ & x & y & z & pa & pb & -> & Hso & Hde).
  eexists _, _, _, _. split; [reflexivity|]. split; [reflexivity|].
  split; [exact Hso|]. split; [exact Hde|].
  split; [apply soma_sec_biophysics|apply dend_sec_biophysics].
Qed.

(** [range(n_cells)] is empty for [n_cells <= 0]: the call returns the
    empty list and touches nothing, whatever [r] is. *)
Theorem create_n_BallAndStick_no_cells n_cells r st :
  (n_cells <= 0)%Z ->
  create_n_BallAndStick E n_cells r st = Ret ([], st).
Proof.
  intros Hn. unfold create_n_BallAndStick, seqZ.
  by replace (Z.to_nat n_cells) with 0 by lia.
Qed.

(** With at least one cell to make and an [r] too large for a double, the
    call raises [OverflowError] on the first product [cos(theta) * r]. *)
Theorem create_n_BallAndStick_overflow n_cells r st :
  (1 <= n_cells)%Z ->
  to_float r = Exc OverflowError ->
  create_n_BallAndStick E n_cells r st = Exc OverflowError.
Proof.
  intros Hn Hr. unfold create_n_BallAndStick.
  rewrite seqZ_cons by lia. cbn [for_fold].
  unfold mbind at 1, Py_bind.
  assert (create_cell E n_cells r [] 0%Z st = Exc OverflowError) as ->; [|done].
  unfold create_cell.
  destruct (ring_theta E n_cells 0) as [theta|e] eqn:Ht.
  - rewrite (bind_run _ _ _ theta st eq_refl).
    rewrite (bind_run _ _ _ (hoc_cos E theta) st eq_refl).
    assert (py_mul (PFloat (hoc_cos E theta)) r = Exc OverflowError) as ->; [|done].
    destruct r as [z|f]; [|done]. unfold py_mul, py_arith.
    cbn [to_float mbind result_bind]. cbn [to_float] in Hr. by rewrite Hr.
  - revert Ht. unfold ring_theta. cbn [py_mul py_arith mbind result_bind to_float].
    change (float_of_int (0 * 2)) with (Ret 0%float : result float).
    cbn [mbind result_bind to_float]. unfold float_truediv.
    destruct (decide (n_cells = 0%Z)); [lia|].
    unfold float_of_int. destruct (Z.abs n_cells <? float_int_bound)%Z; [done|].
    cbn. by intros [= <-].
Qed.

End MoreCreate.

Lemma create_n_BallAndStick_frame_witness :
  exists cs st' new,
    create_n_BallAndStick demo_engine 2 (PFloat 2.5) demo_built = Ret (cs, st') /\
    cs = seq (length (cells demo_built)) (Z.to_nat 2) /\
    NoDup cs /\
    (forall c, c ∈ cs -> length (cells demo_built) <= c) /\
    length new = Z.to_nat 2 /\
    cells_appended demo_engine demo_built st' new /\
    same_network demo_built st' /\
    forall s, kept_section demo_engine demo_built st' s.
Proof.
  apply (create_n_BallAndStick_frame demo_engine 2 (PFloat 2.5) 2.5%float demo_built).
  - exact demo_built_valid.
  - lia.
  - by vm_compute.
  - reflexivity.
Defined.

Lemma create_n_BallAndStick_biophysics_witness :
  exists cs st',
    create_n_BallAndStick demo_engine 3 (PInt 50) init_state = Ret (cs, st') /\
    length cs = Z.to_nat 3 /\
    forall c, c ∈ cs ->
      exists cell, cells st' !! c = Some cell /\ has_biophysics st' cell.
Proof.
  apply (create_n_BallAndStick_biophysics demo_engine 3 (PInt 50) 50%float init_state).
  - exact parents_valid_nil.
  - lia.
  - by vm_compute.
  - by vm_compute.
Defined.

Lemma create_n_BallAndStick_no_cells_witness :
  create_n_BallAndStick demo_engine (-3) (PInt 50) demo_built = Ret ([], demo_built).
Proof. apply (create_n_BallAndStick_no_cells demo_engine (-3) (PInt 50) demo_built). lia. Defined.

Lemma create_n_BallAndStick_overflow_witness :
  create_n_BallAndStick demo_engine 5 (PInt (2 ^ 1024)) init_state = Exc OverflowError.
Proof.
  apply (create_n_BallAndStick_overflow demo_engine 5 (PInt (2 ^ 1024)) init_state).
  - lia.
  - by vm_compute.
Defined.
(** ** [set_position] *)

Lemma displacement_add new old d q :
  displacement new old = Ret d ->
  exists dv, py_sub new old = Ret dv /\ py_add dv (PFloat q) = Ret (PFloat (d + q)).
Proof.
  unfold displacement. destruct (py_sub new old) as [dv|e]; [|done].
  cbn [mbind result_bind]. intros Hd. exists dv. split; [done|].
  unfold py_add, py_arith. destruct dv as [v|f]; cbn [to_float] in *.
  - rewrite Hd. done.
  - injection Hd as <-. done.
Qed.

Section Position.
Context (E : Engine) (self : nat) (x y z sx sy sz : pynum) (dx dy dz : float)
        (cell : Cell) (cl : list Cell).
Hypothesis Hcell : cl !! self = Some cell.
Hypothesis Hsx : c_x cell = Some sx.
Hypothesis Hsy : c_y cell = Some sy.
Hypothesis Hsz : c_z cell = Some sz.
Hypothesis Hdx : displacement x sx = Ret dx.
Hypothesis Hdy : displacement y sy = Ret dy.
Hypothesis Hdz : displacement z sz = Ret dz.

Lemma run_set_position_step s i sc q ss pp sm nn vv lg :
  ss !! s = Some sc ->
  sec_pts sc !! i = Some q ->
  set_position_step E self x y z s i (mkState ss pp sm nn vv cl lg)
  = Ret (tt, mkState (<[s := remeasure E (sec_set_pts (<[i := store_pt (shift_pt dx dy dz q)]>
                                                         (sec_pts sc)) sc)]> ss)
                     pp sm nn vv cl (lg ++ [EvPt3dchange s i])).
Proof.
  intros Hs Hq. unfold set_position_step.
  set (st := mkState ss pp sm nn vv cl lg).
  pose proof (run_fetch secs s st sc Hs) as Hf.
  assert (forall proj, pt3d proj s i st = Ret (proj q, st)) as Hp.
  { intros proj. unfold pt3d. rewrite (bind_run _ _ _ _ _ Hf). by rewrite Hq. }
  destruct (displacement_add x sx dx (pt_x q) Hdx) as (vx & Hvx & Hax).
  destruct (displacement_add y sy dy (pt_y q) Hdy) as (vy & Hvy & Hay).
  destruct (displacement_add z sz dz (pt_z q) Hdz) as (vz & Hvz & Haz).
  unfold x3d, y3d, z3d, diam3d.
  rewrite (bind_run _ _ _ _ _ (run_getattr c_x self st cell sx Hcell Hsx)).
  rewrite (bind_run _ _ _ _ _ (run_lift _ _ st Hvx)).
  rewrite (bind_run _ _ _ _ _ (Hp pt_x)).
  rewrite (bind_run _ _ _ _ _ (run_lift _ _ st Hax)).
  rewrite (bind_run _ _ _ _ _ (run_getattr c_y self st cell sy Hcell Hsy)).
  rewrite (bind_run _ _ _ _ _ (run_lift _ _ st Hvy)).
  rewrite (bind_run _ _ _ _ _ (Hp pt_y)).
  rewrite (bind_run _ _ _ _ _ (run_lift _ _ st Hay)).
  rewrite (bind_run _ _ _ _ _ (run_getattr c_z self st cell sz Hcell Hsz)).
  rewrite (bind_run _ _ _ _ _ (run_lift _ _ st Hvz)).
  rewrite (bind_run _ _ _ _ _ (Hp pt_z)).
  rewrite (bind_run _ _ _ _ _ (run_lift _ _ st Haz)).
  rewrite (bind_run _ _ _ _ _ (Hp pt_diam)).
  apply (run_pt3dchange E s i sc (shift_pt dx dy dz q)); [done|].
  by eapply lookup_lt_Some.
Qed.

End Position.

Lemma run_setattr set self st cell :
  cells st !! self = Some cell ->
  setattr set self st = Ret (tt, with_cells (fun l => <[self := set cell]> l) st).
Proof. intros Hc. unfold setattr. by apply run_update. Qed.

(** The three assignments that end [set_position]. *)
Lemma run_place self x y z cell st :
  cells st !! self = Some cell ->
  (setattr (cell_set_x x) self;; setattr (cell_set_y y) self;;
   setattr (cell_set_z z) self) st
  = Ret (tt, with_cells (fun l => <[self := placed_at x y z cell]> l) st).
Proof.
  intros Hcell. destruct st as [ss pp sm nn vv cl lg]. cbn [cells] in Hcell.
  assert (self < length cl) as Hlt by (by eapply lookup_lt_Some).
  rewrite (bind_run _ _ _ tt _
             (run_setattr _ self (mkState ss pp sm nn vv cl lg) cell Hcell)).
  unfold with_cells; cbn [secs pps stims ncs vecs cells log].
  rewrite (bind_run _ _ _ tt _
             (run_setattr _ self (mkState ss pp sm nn vv _ lg) (cell_set_x x cell)
                ltac:(cbn [cells]; by apply list_lookup_insert_eq))).
  unfold with_cells; cbn [secs pps stims ncs vecs cells log].
  rewrite (run_setattr _ self (mkState ss pp sm nn vv _ lg)
             (cell_set_y y (cell_set_x x cell)))
    by (cbn [cells]; apply list_lookup_insert_eq; by rewrite length_insert).
  unfold with_cells; cbn [secs pps stims ncs vecs cells log].
  by rewrite !list_insert_insert_eq.
Qed.

(** [set_position(x, y, z)] on a cell whose section list names existing
    sections, none of them twice, and whose stored position is
    [(sx, sy, sz)]: every 3-D point [(px, py, pz, d)] of the cell becomes
    the single-precision value of
    [((x - sx) + px, (y - sy) + py, (z - sz) + pz, d)], so the points move
    by the difference to the stored position, wherever they were, and a
    section that has points then reads the length and the diameter the
    simulator derives from the new points; the object then stores
    [(x, y, z)].  Nothing else changes. *)
Theorem set_position_spec (E : Engine) (st : State) (self : nat)
    (x y z sx sy sz : pynum) (dx dy dz : float) (cell : Cell) (all : list nat) :
  cells st !! self = Some cell ->
  c_all cell = Some all ->
  c_x cell = Some sx -> c_y cell = Some sy -> c_z cell = Some sz ->
  NoDup all ->
  (forall s, s ∈ all -> s < length (secs st)) ->
  displacement x sx = Ret dx ->
  displacement y sy = Ret dy ->
  displacement z sz = Ret dz ->
  exists st',
    set_position E self x y z st = Ret (tt, st') /\
    moved_only E (shift_pt dx dy dz) all st st' /\
    cells st' = <[self := placed_at x y z cell]> (cells st).
Proof.
  intros Hcell Hall Hsx Hsy Hsz Hnd Hin Hdx Hdy Hdz.
  destruct st as [ss pp sm nn vv cl lg]. cbn [secs cells] in *.
  assert (self < length cl) as Hlt by (by eapply lookup_lt_Some).
  eexists. split.
  - unfold set_position.
    rewrite (bind_run _ _ _ _ _ (run_getattr c_all self (mkState ss pp sm nn vv cl lg) cell all Hcell Hall)).
    rewrite (bind_run _ _ _ tt _
               (run_sections_loop E (shift_pt dx dy dz) (set_position_step E self x y z) cl
                  (run_set_position_step E self x y z sx sy sz dx dy dz cell cl
                     Hcell Hsx Hsy Hsz Hdx Hdy Hdz)
                  all ss pp sm nn vv lg Hnd Hin)).
    by apply run_place.
  - split; [|reflexivity]. unfold with_cells.
    split; [done|]. cbn [secs pps stims ncs vecs cells log].
    destruct (sections_loop_frame E (shift_pt dx dy dz) all ss Hnd)
      as (Hlen & Hin' & Hout).
    by repeat split.
Qed.

(** On a cell whose sections have no 3-D points, [rotate_z] does nothing
    and cannot fail, whatever the angle is, even one that no double can
    hold; this is the state [__init__] calls it in. *)
Theorem rotate_z_without_points (E : Engine) (st : State) (self : nat)
    (theta : pynum) (cell : Cell) (all : list nat) :
  cells st !! self = Some cell ->
  c_all cell = Some all ->
  (forall s, s ∈ all -> exists sc, secs st !! s = Some sc /\ sec_pts sc = []) ->
  rotate_z E self theta st = Ret (tt, st).
Proof.
  intros Hcell Hall Hbare. unfold rotate_z.
  rewrite (bind_run _ _ _ _ _ (run_getattr c_all self st cell all Hcell Hall)).
  by apply run_sections_loop_bare.
Qed.

(** On such a cell [set_position] moves nothing either: it only stores the
    new position, and does not read the old one. *)
Theorem set_position_without_points (E : Engine) (st : State) (self : nat)
    (x y z : pynum) (cell : Cell) (all : list nat) :
  cells st !! self = Some cell ->
  c_all cell = Some all ->
  (forall s, s ∈ all -> exists sc, secs st !! s = Some sc /\ sec_pts sc = []) ->
  set_position E self x y z st
  = Ret (tt, with_cells (fun l => <[self := placed_at x y z cell]> l) st).
Proof.
  intros Hcell Hall Hbare. unfold set_position.
  rewrite (bind_run _ _ _ _ _ (run_getattr c_all self st cell all Hcell Hall)).
  rewrite (bind_run _ _ _ tt st).
  2: { by apply (run_sections_loop_bare (set_position_step E self x y z)). }
  by apply run_place.
Qed.

Lemma set_position_spec_witness :
  exists st',
    set_position demo_engine 0 (PInt 10) (PFloat 2.5) (PInt 0) demo_built = Ret (tt, st') /\
    moved_only demo_engine (shift_pt (-40) 2.5 0) [0; 1] demo_built st' /\
    cells st'
    = <[0 := placed_at (PInt 10) (PFloat 2.5) (PInt 0)
              (ball_and_stick (PInt 0) (PFloat 50) (PFloat 0) (PInt 0) 0)]>
        (cells demo_built).
Proof.
  apply (set_position_spec demo_engine demo_built 0 (PInt 10) (PFloat 2.5) (PInt 0)
           (PFloat 50) (PFloat 0) (PInt 0) (-40) 2.5 0
           (ball_and_stick (PInt 0) (PFloat 50) (PFloat 0) (PInt 0) 0) [0; 1]).
  - vm_compute. reflexivity.
  - reflexivity.
  - reflexivity.
  - reflexivity.
  - reflexivity.
  - apply (bool_decide_unpack _). vm_compute. reflexivity.
  - intros s Hs. apply elem_of_cons in Hs as [->|Hs]; [vm_compute; lia|].
    apply elem_of_cons in Hs as [->|Hs]; [vm_compute; lia|].
    by apply elem_of_nil in Hs.
  - vm_compute. reflexivity.
  - vm_compute. reflexivity.
  - vm_compute. reflexivity.
Defined.

Lemma rotate_z_without_points_witness :
  rotate_z demo_engine 0 (PInt (2 ^ 1024))
    (bare_cell_state (PInt 0) (PInt 1) (PInt 2) (PInt 3))
  = Ret (tt, bare_cell_state (PInt 0) (PInt 1) (PInt 2) (PInt 3)).
Proof.
  apply (rotate_z_without_points demo_engine
           (bare_cell_state (PInt 0) (PInt 1) (PInt 2) (PInt 3)) 0 (PInt (2 ^ 1024))
           (ball_and_stick (PInt 0) (PInt 1) (PInt 2) (PInt 3) 0) [0; 1]).
  - reflexivity.
  - reflexivity.
  - intros s Hs. apply elem_of_cons in Hs as [->|Hs]; [by eexists|].
    apply elem_of_cons in Hs as [->|Hs]; [by eexists|].
    by apply elem_of_nil in Hs.
Defined.

Lemma set_position_without_points_witness :
  set_position demo_engine 0 (PFloat 4) (PInt 5) (PInt (2 ^ 1024))
    (bare_cell_state (PInt 0) (PInt 1) (PInt 2) (PInt 3))
  = Ret (tt, with_cells
               (fun l => <[0 := placed_at (PFloat 4) (PInt 5) (PInt (2 ^ 1024))
                                  (ball_and_stick (PInt 0) (PInt 1) (PInt 2) (PInt 3) 0)]> l)
               (bare_cell_state (PInt 0) (PInt 1) (PInt 2) (PInt 3))).
Proof.
  apply (set_position_without_points demo_engine
           (bare_cell_state (PInt 0) (PInt 1) (PInt 2) (PInt 3)) 0
           (PFloat 4) (PInt 5) (PInt (2 ^ 1024))
           (ball_and_stick (PInt 0) (PInt 1) (PInt 2) (PInt 3) 0) [0; 1]).
  - reflexivity.
  - reflexivity.
  - intros s Hs. apply elem_of_cons in Hs as [->|Hs]; [by eexists|].
    apply elem_of_cons in Hs as [->|Hs]; [by eexists|].
    by apply elem_of_nil in Hs.
Defined.
(** ** The connection-building step on any list of cells *)

Lemma run_sec_call_half s sc st :
  secs st !! s = Some sc ->
  sec_call s 0.5 st = Ret (mkSeg s 0.5, st).
Proof.
  intros Hs. unfold sec_call.
  rewrite (bind_run _ _ _ _ _ (run_fetch secs s st sc Hs)). reflexivity.
Qed.

(** [run] on stores that are variables: reads are settled by the context. *)
Ltac run_ctx :=
  run_head; cbn [ref_v ref_i seg_sec seg_x]; cbv beta iota;
  lazymatch goal with
  | |- (?m ≫= ?f) ?st = _ =>
      eapply eq_trans; [eapply bind_run; run_ctx | run_ctx]
  | |- mret _ _ = _ => reflexivity
  | |- Ret _ = _ => reflexivity
  | |- alloc _ _ _ _ = _ => reflexivity
  | |- emit _ _ = _ => reflexivity
  | |- get _ = _ => reflexivity
  | |- put _ _ = _ => reflexivity
  | |- getattr _ _ _ = _ =>
      eapply run_getattr; [store_norm; eassumption | eassumption]
  | |- sec_call _ _ _ = _ => eapply run_sec_call_half; store_norm; eassumption
  | |- fetch _ _ _ = _ =>
      eapply run_fetch; store_norm; first [eassumption | reflexivity]
  | |- update _ _ _ _ _ = _ =>
      eapply run_update; store_norm; first [eassumption | reflexivity]
  | |- lift _ _ = _ => eapply run_lift; vm_compute; reflexivity
  | |- ?g = _ =>
      let h := head_of g in
      unfold h; run_ctx
  end.

Lemma run_connect_pair sy nc src tgt cs ct so de sso sde ss pp sm nn vv cl lg :
  cl !! src = Some cs -> c_soma cs = Some so ->
  cl !! tgt = Some ct -> c_dend ct = Some de ->
  ss !! so = Some sso -> ss !! de = Some sde ->
  connect_pair (sy, nc) (src, tgt) (mkState ss pp sm nn vv cl lg)
  = Ret ((sy ++ [length pp], nc ++ [length nn]),
         mkState ss (pp ++ [ring_syn de]) sm
                 (nn ++ [ring_nc so (length pp) None]) vv cl
                 (lg ++ edge_log (length pp) (length nn))).
Proof.
  intros Hcs Hso Hct Hde Hsso Hsde. unfold connect_pair.
  run_ctx.
Qed.

Lemma ring_objs_cons st k c src tgt rest :
  ring_objs st k c ((src, tgt) :: rest)
  = (ring_syn (default 0 (dend_of st tgt)) :: (ring_objs st (S k) (S c) rest).1.1,
     ring_nc (default 0 (soma_of st src)) k None :: (ring_objs st (S k) (S c) rest).1.2,
     edge_log k c ++ (ring_objs st (S k) (S c) rest).2).
Proof. cbn [ring_objs]. by destruct (ring_objs st (S k) (S c) rest) as [[a b] l]. Qed.

Lemma ring_objs_length st pairs : forall k c,
  length (ring_objs st k c pairs).1.1 = length pairs /\
  length (ring_objs st k c pairs).1.2 = length pairs.
Proof.
  induction pairs as [|[src tgt] rest IH]; intros k c; [done|].
  rewrite ring_objs_cons. cbn. destruct (IH (S k) (S c)) as [-> ->]. done.
Qed.

Lemma ring_objs_lookup st pairs : forall k c i src tgt,
  pairs !! i = Some (src, tgt) ->
  (ring_objs st k c pairs).1.1 !! i = Some (ring_syn (default 0 (dend_of st tgt))) /\
  (ring_objs st k c pairs).1.2 !! i
  = Some (ring_nc (default 0 (soma_of st src)) (k + i) None).
Proof.
  induction pairs as [|[s t] rest IH]; intros k c i src tgt Hi; [done|].
  rewrite ring_objs_cons. destruct i as [|i]; cbn in Hi.
  - injection Hi as -> ->. cbn. by rewrite Nat.add_0_r.
  - destruct (IH (S k) (S c) i src tgt Hi) as [H1 H2]. split; [exact H1|].
    replace (k + S i) with (S k + i) by lia. exact H2.
Qed.

Lemma run_connect_loop st0 pairs :
  (forall p, p ∈ pairs -> wired_cell st0 (fst p) /\ wired_cell st0 (snd p)) ->
  forall sy nc pp nn lg,
    for_fold pairs (sy, nc) connect_pair
      (mkState (secs st0) pp (stims st0) nn (vecs st0) (cells st0) lg)
    = Ret ((sy ++ seq (length pp) (length pairs), nc ++ seq (length nn) (length pairs)),
           mkState (secs st0)
                   (pp ++ (ring_objs st0 (length pp) (length nn) pairs).1.1)
                   (stims st0)
                   (nn ++ (ring_objs st0 (length pp) (length nn) pairs).1.2)
                   (vecs st0) (cells st0)
                   (lg ++ (ring_objs st0 (length pp) (length nn) pairs).2)).
Proof.
  induction pairs as [|[src tgt] rest IH]; intros Hw sy nc pp nn lg.
  - cbn. by rewrite !app_nil_r.
  - destruct (Hw (src, tgt)) as [(so & _ & Hso & _ & Hlso & _) (_ & de & _ & Hde & _ & Hlde)];
      [by left|]. cbn [fst snd] in *.
    unfold soma_of in Hso. unfold dend_of in Hde.
    destruct (cells st0 !! src) as [cs|] eqn:Hcs; [|done].
    destruct (cells st0 !! tgt) as [ct|] eqn:Hct; [|done].
    cbn in Hso, Hde.
    destruct (lookup_lt_is_Some_2 _ _ Hlso) as [sso Hsso].
    destruct (lookup_lt_is_Some_2 _ _ Hlde) as [sde Hsde].
    cbn [for_fold].
    rewrite (bind_run _ _ _ _ _
               (run_connect_pair sy nc src tgt cs ct so de sso sde _ pp _ nn _ _ lg
                  Hcs Hso Hct Hde Hsso Hsde)).
    rewrite IH by (intros p Hp; apply Hw; by right).
    rewrite ring_objs_cons, !length_snoc. cbn [fst snd length seq].
    unfold soma_of, dend_of. rewrite Hcs, Hct. cbn [mbind option_bind]. rewrite Hso, Hde.
    cbn [default]. by rewrite <- !app_assoc.
Qed.

(** The targets of the ring: the neighbour to the right, cyclically. *)
Lemma ring_targets_lookup c0 (rest : list nat) i :
  i < S (length rest) ->
  (rest ++ [c0]) !! i = (c0 :: rest) !! (S i mod S (length rest)).
Proof.
  intros Hi. destruct (decide (i < length rest)) as [Hlt|Hge].
  - rewrite lookup_app_l by done. by rewrite Nat.mod_small by lia.
  - assert (i = length rest) as -> by lia.
    rewrite lookup_tail0, Nat.Div0.mod_same. done.
Qed.

Lemma lookup_app_plus {A} (l k : list A) i : (l ++ k) !! (length l + i) = k !! i.
Proof. rewrite lookup_app_r by lia. f_equal. lia. Qed.

(** The step on a list that is not empty. *)
Lemma run_connect_ring (cs : list nat) (st : State) :
  cs <> [] ->
  (forall c, c ∈ cs -> wired_cell st c) ->
  exists st',
    connect_ring cs st
    = Ret ((seq (length (pps st)) (length cs), seq (length (ncs st)) (length cs)), st') /\
    ring_made cs st st'.
Proof.
  intros Hne Hw. destruct cs as [|c0 rest]; [done|]. clear Hne.
  destruct st as [ss pp sm nn vv cl lg].
  set (st0 := mkState ss pp sm nn vv cl lg) in *.
  set (pairs := zip (c0 :: rest) (rest ++ [c0])).
  assert (length pairs = length (c0 :: rest)) as Hlen.
  { unfold pairs. rewrite length_zip_with, length_snoc. cbn. lia. }
  assert (forall p, p ∈ pairs -> wired_cell st0 p.1 /\ wired_cell st0 p.2) as Hpairs.
  { intros [a b] Hp. split; apply Hw; cbn.
    - by eapply elem_of_zip_l.
    - apply elem_of_zip_r in Hp. apply elem_of_app in Hp as [Hp|Hp].
      + by right.
      + apply list_elem_of_singleton in Hp as ->. by left. }
  pose proof (run_connect_loop st0 pairs Hpairs [] [] pp nn lg) as Hrun.
  destruct (ring_objs_length st0 pairs (length pp) (length nn)) as [Hl1 Hl2].
  eexists. split.
  - unfold connect_ring.
    rewrite (bind_run _ _ _ pairs st0 eq_refl).
    rewrite <- Hlen. exact Hrun.
  - cbn [secs cells stims vecs pps ncs].
    do 4 (split; [reflexivity|]).
    split; [eexists; split; [reflexivity|by rewrite Hl1]|].
    split; [eexists; split; [reflexivity|by rewrite Hl2]|].
    intros i src tgt so de Hsrc Htgt Hso Hde.
    assert (pairs !! i = Some (src, tgt)) as Hp.
    { unfold pairs. rewrite lookup_zip_with, Hsrc.
      rewrite ring_targets_lookup by (apply lookup_lt_Some in Hsrc; cbn in Hsrc; lia).
      cbn [length] in Htgt. by rewrite Htgt. }
    destruct (ring_objs_lookup st0 pairs (length pp) (length nn) i src tgt Hp)
      as [H1 H2].
    rewrite Hso in H2. rewrite Hde in H1.
    change (pps st0) with pp. change (ncs st0) with nn. cbn [pps ncs].
    by rewrite !lookup_app_plus.
Qed.

(** Lines 105-113 for any list of cells that have a soma and a dendrite.
    On the empty list the step fails with [IndexError], at [my_cells[0]].
    Otherwise it cannot fail; it creates
    one synapse and one connection for every cell of the list and returns
    their handles in order; connection [i] watches the soma of cell [i] at
    0.5, has weight 0.05 and delay 5, and delivers to synapse [i], which
    sits at 0.5 on the dendrite of cell [(i + 1) mod n].  With a single
    cell this is a connection of the cell onto itself.  Sections, cells,
    stimuli, vectors and the synapses and connections made earlier are
    untouched. *)
Theorem connect_ring_any_size (cs : list nat) (st : State) :
  (forall c, c ∈ cs -> wired_cell st c) ->
  if decide (cs = [])
  then connect_ring cs st = Exc IndexError
  else exists st',
    connect_ring cs st
    = Ret ((seq (length (pps st)) (length cs), seq (length (ncs st)) (length cs)), st') /\
    ring_made cs st st'.
Proof.
  intros Hw. destruct (decide (cs = [])) as [->|Hne]; [done|].
  by apply run_connect_ring.
Qed.


Lemma connect_ring_any_size_witness :
  exists st',
    connect_ring [2] demo_built
    = Ret ((seq (length (pps demo_built)) (length [2]),
            seq (length (ncs demo_built)) (length [2])), st') /\
    ring_made [2] demo_built st'.
Proof.
  apply (connect_ring_any_size [2] demo_built).
  intros c Hc. apply elem_of_cons in Hc as [->|Hc]; [|by apply elem_of_nil in Hc].
  exists 4, 5. split; [vm_compute; reflexivity|]. split; [vm_compute; reflexivity|].
  split; vm_compute; lia.
Defined.

(** ** Spike recordings for any list of connections *)

Lemma run_new_vectors (l : list nat) :
  forall acc ss pp sm nn vv cl lg,
    for_fold l acc (fun acc nc => v ← Vector_new; mret (acc ++ [v]))
             (mkState ss pp sm nn vv cl lg)
    = Ret (acc ++ seq (length vv) (length l),
           mkState ss pp sm nn (vv ++ replicate (length l) (mkVector None [])) cl
                   (lg ++ (EvVector <$> seq (length vv) (length l)))).
Proof.
  induction l as [|c l IH]; intros acc ss pp sm nn vv cl lg.
  - cbn. by rewrite !app_nil_r.
  - cbn [for_fold].
    rewrite (bind_run _ _ _ (acc ++ [length vv])
               (mkState ss pp sm nn (vv ++ [mkVector None []]) cl
                        (lg ++ [EvVector (length vv)]))) by reflexivity.
    rewrite IH, length_snoc. cbn [length seq replicate fmap list_fmap].
    by rewrite <- !app_assoc.
Qed.

Lemma record_all_cons p l nn :
  record_all (p :: l) nn
  = record_all l (match nn !! p.1 with
                  | Some c => <[p.1 := nc_set_record p.2 c]> nn
                  | None => nn
                  end).
Proof. reflexivity. Qed.

Lemma record_all_length l : forall nn, length (record_all l nn) = length nn.
Proof.
  induction l as [|p l IH]; intros nn; [done|].
  rewrite record_all_cons, IH. destruct (nn !! p.1); [by rewrite length_insert|done].
Qed.

Lemma record_all_other l c : forall nn,
  c ∉ l.*1 -> record_all l nn !! c = nn !! c.
Proof.
  induction l as [|[a v] l IH]; intros nn Hc; [done|].
  rewrite fmap_cons in Hc. apply not_elem_of_cons in Hc as [Hne Hc].
  rewrite record_all_cons, IH by done. cbn [fst snd] in *.
  destruct (nn !! a); [by rewrite list_lookup_insert_ne|done].
Qed.

Lemma record_all_lookup l c v : forall nn,
  NoDup l.*1 -> (c, v) ∈ l ->
  record_all l nn !! c = nc_set_record v <$> nn !! c.
Proof.
  induction l as [|[a w] l IH]; intros nn Hnd Hin; [by apply elem_of_nil in Hin|].
  rewrite fmap_cons in Hnd. apply NoDup_cons in Hnd as [Ha Hnd]. cbn [fst] in Ha.
  rewrite record_all_cons. cbn [fst snd].
  apply elem_of_cons in Hin as [[= -> ->]|Hin].
  - rewrite record_all_other by done.
    destruct (nn !! a) as [n|] eqn:Hn; [|by rewrite Hn].
    by rewrite list_lookup_insert_eq by (by eapply lookup_lt_Some).
  - rewrite IH by done.
    assert (c <> a) as Hne.
    { intros ->. apply Ha. apply list_elem_of_fmap. by exists (a, v). }
    destruct (nn !! a); [by rewrite list_lookup_insert_ne|done].
Qed.

Lemma run_record_loop (l : list (nat * nat)) :
  forall ss pp sm nn vv cl lg,
    (forall p, p ∈ l -> p.1 < length nn /\ p.2 < length vv) ->
    for_each l (fun p => nc_record_into p.1 p.2) (mkState ss pp sm nn vv cl lg)
    = Ret (tt, mkState ss pp sm (record_all l nn) vv cl
                       (lg ++ ((fun p => EvNetConRecord p.1 p.2) <$> l))).
Proof.
  induction l as [|[c v] l IH]; intros ss pp sm nn vv cl lg Hl.
  - cbn. by rewrite app_nil_r.
  - destruct (Hl (c, v)) as [Hc Hv]; [by left|]. cbn [fst snd] in Hc, Hv.
    destruct (lookup_lt_is_Some_2 _ _ Hc) as [n Hn].
    destruct (lookup_lt_is_Some_2 _ _ Hv) as [x Hx].
    cbn [for_each].
    rewrite (bind_run _ _ _ tt
               (mkState ss pp sm (<[c := nc_set_record v n]> nn) vv cl
                        (lg ++ [EvNetConRecord c v]))).
    + rewrite IH.
      * rewrite record_all_cons. cbn [fst snd]. rewrite Hn.
        cbn [fmap list_fmap]. by rewrite <- app_assoc.
      * intros p Hp. rewrite length_insert. apply Hl. by right.
    + cbn [fst snd]. unfold nc_record_into.
      rewrite (bind_run _ _ _ _ _ (run_fetch vecs v (mkState ss pp sm nn vv cl lg) x Hx)).
      rewrite (bind_run _ _ _ _ _ (run_update ncs with_ncs c _ (mkState ss pp sm nn vv cl lg) n Hn)).
      reflexivity.
Qed.

(** Lines 115-117 on explicit stores. *)
Lemma run_record_spikes (ncl : list nat) ss pp sm nn vv cl lg :
  (forall c, c ∈ ncl -> c < length nn) ->
  record_spikes ncl (mkState ss pp sm nn vv cl lg)
  = Ret (seq (length vv) (length ncl),
         mkState ss pp sm
                 (record_all (zip ncl (seq (length vv) (length ncl))) nn)
                 (vv ++ replicate (length ncl) (mkVector None [])) cl
                 ((lg ++ (EvVector <$> seq (length vv) (length ncl)))
                  ++ ((fun p => EvNetConRecord p.1 p.2)
                        <$> zip ncl (seq (length vv) (length ncl))))).
Proof.
  intros Hin. set (vs := seq (length vv) (length ncl)).
  assert (forall p, p ∈ zip ncl vs ->
            p.1 < length nn /\
            p.2 < length (vv ++ replicate (length ncl) (mkVector None []))) as Hok.
  { intros [c v] Hp. cbn [fst snd]. split.
    - apply Hin. by eapply elem_of_zip_l.
    - apply elem_of_zip_r, elem_of_seq in Hp.
      rewrite length_app, length_replicate. lia. }
  unfold record_spikes.
  rewrite (bind_run _ _ _ _ _ (run_new_vectors ncl [] ss pp sm nn vv cl lg)).
  cbn [app]. fold vs.
  rewrite (bind_run _ _ _ tt _ (run_record_loop (zip ncl vs) ss pp sm nn _ cl _ Hok)).
  reflexivity.
Qed.

Lemma zip_seq_lookup (l : list nat) k i c :
  l !! i = Some c -> (c, k + i) ∈ zip l (seq k (length l)).
Proof.
  intros Hi. apply (list_elem_of_lookup_2 _ i). rewrite lookup_zip_with, Hi. cbn.
  rewrite lookup_seq_lt by (by eapply lookup_lt_Some). done.
Qed.

Lemma zip_seq_fst (l : list nat) k : (zip l (seq k (length l))).*1 = l.
Proof. apply fst_zip. by rewrite length_seq. Qed.

(** Lines 115-117 for any list of existing connections, none of them
    twice: the step cannot fail; it creates one vector for every
    connection, empty and bound to no variable, and returns their handles
    in order; connection [i] of the list then records its spike times into
    vector [i] of the result, and keeps its source, target, weight and
    delay.  Connections outside the list and all other objects are
    untouched. *)
Theorem record_spikes_spec (ncl : list nat) (st : State) :
  NoDup ncl ->
  (forall c, c ∈ ncl -> c < length (ncs st)) ->
  exists st',
    record_spikes ncl st = Ret (seq (length (vecs st)) (length ncl), st') /\
    spikes_recorded ncl st st'.
Proof.
  intros Hnd Hin. destruct st as [ss pp sm nn vv cl lg]. cbn [ncs vecs] in *.
  eexists. split; [by apply run_record_spikes|].
  do 4 (split; [reflexivity|]). cbn [vecs ncs].
  split; [reflexivity|]. split; [apply record_all_length|]. split.
  - intros i c n Hi Hn.
    rewrite (record_all_lookup _ c (length vv + i)), Hn;
      [done|by rewrite zip_seq_fst|by apply zip_seq_lookup].
  - intros c Hc. apply record_all_other. by rewrite zip_seq_fst.
Qed.

Lemma record_spikes_spec_witness :
  exists st',
    record_spikes [1; 0]
      (ringed_state demo_engine (fun _ => []) (fun _ => PInt 0) (fun _ => PInt 0))
    = Ret (seq (length (vecs (ringed_state demo_engine (fun _ => []) (fun _ => PInt 0)
                                (fun _ => PInt 0))))
               (length [1; 0]), st') /\
    spikes_recorded [1; 0]
      (ringed_state demo_engine (fun _ => []) (fun _ => PInt 0) (fun _ => PInt 0)) st'.
Proof.
  apply (record_spikes_spec [1; 0]
           (ringed_state demo_engine (fun _ => []) (fun _ => PInt 0) (fun _ => PInt 0))).
  - apply (bool_decide_unpack _). vm_compute. reflexivity.
  - intros c Hc. apply elem_of_cons in Hc as [->|Hc]; [vm_compute; lia|].
    apply elem_of_cons in Hc as [->|Hc]; [vm_compute; lia|].
    by apply elem_of_nil in Hc.
Defined.
(** ** The run, from any state *)

Lemma refill_record st samples spikes v x :
  vec_record (refill st samples spikes v x) = vec_record x.
Proof.
  unfold refill. destruct (vec_record x) as [r|] eqn:Hr; [done|].
  by destruct (spike_recorder st v).
Qed.

Lemma refill_idle st samples spikes v x :
  vec_record x = None -> spike_recorder st v = None ->
  refill st samples spikes v x = x.
Proof. intros Hr Hs. unfold refill. by rewrite Hr, Hs. Qed.

(** Lines 119-120 from any state: the two calls cannot fail; they are
    [finitialize(-65)] and [continuerun(100)], in this order; no section,
    synapse, stimulus, connection or cell is created or changed, no vector
    is created, every vector stays bound to what it was bound to, and a
    vector that is bound to no variable and that no connection records
    into keeps its contents. *)
Theorem simulate_spec (E : Engine) (st : State) :
  exists st',
    simulate E st = Ret (tt, st') /\
    frozen st st' /\
    log st' = log st ++ run_log /\
    length (vecs st') = length (vecs st) /\
    forall v x, vecs st !! v = Some x ->
                vec_record x = None -> spike_recorder st v = None ->
                vecs st' !! v = Some x.
Proof.
  destruct st as [ss pp sm nn vv cl lg].
  eexists. split; [unfold simulate; run|].
  unfold frozen, with_vecs. cbn [secs pps stims ncs vecs cells log].
  split; [|split; [|split]].
  - do 5 (split; [reflexivity|]). split.
    + apply list_eq. intros v. rewrite !list_lookup_fmap, !list_lookup_imap.
      destruct (vv !! v) as [x|]; [|done]. cbn. by rewrite !refill_record.
    + eexists. split; [reflexivity|]. by repeat constructor.
  - reflexivity.
  - by rewrite !length_imap.
  - intros v x Hx Hr Hs. rewrite !list_lookup_imap, Hx. cbn.
    rewrite (refill_idle _ _ _ v x Hr) by done.
    by rewrite refill_idle.
Qed.

(** ** The raster plot, for any list of vectors *)

Lemma row_edge_ok k h :
  (Z.abs k < float_int_bound)%Z ->
  exists f, float_of_int k = Ret f /\
            py_add (PInt k) (PFloat h) = Ret (PFloat (f + h)) /\
            row_edge k h = PFloat (f + h).
Proof.
  intros Hk. destruct (float_of_int_ok k Hk) as [f Hf]. exists f.
  split; [done|]. unfold row_edge, py_add, py_arith. cbn [to_float].
  rewrite Hf. done.
Qed.

Lemma run_as_numpy v x ss pp sm nn vv cl lg :
  vv !! v = Some x ->
  as_numpy v (mkState ss pp sm nn vv cl lg)
  = Ret (vec_data x, mkState ss pp sm nn vv cl (lg ++ [EvAsNumpy v])).
Proof.
  intros Hx. unfold as_numpy.
  by rewrite (bind_run _ _ _ _ _ (run_fetch vecs v (mkState ss pp sm nn vv cl lg) x Hx)).
Qed.

Lemma run_plot_rows (l : list nat) :
  forall k ss pp sm nn vv cl lg,
    (forall v, v ∈ l -> v < length vv) ->
    (0 <= k)%Z ->
    (k + Z.of_nat (length l) <= float_int_bound)%Z ->
    for_each (zip (seqZ k (Z.of_nat (length l))) l)
      (fun p =>
         xs ← as_numpy (snd p);
         ymin ← lift (py_add (PInt (fst p)) (PFloat 0.5));
         ymax ← lift (py_add (PInt (fst p)) (PFloat 1.5));
         plt_vlines xs ymin ymax)
      (mkState ss pp sm nn vv cl lg)
    = Ret (tt, mkState ss pp sm nn vv cl (lg ++ plot_rows vv k l)).
Proof.
  induction l as [|v l IH]; intros k ss pp sm nn vv cl lg Hl Hk Hb.
  - cbn. by rewrite app_nil_r.
  - cbn [length] in *. rewrite seqZ_cons by lia.
    replace (Z.pred (Z.of_nat (S (length l)))) with (Z.of_nat (length l)) by lia.
    cbn [zip zip_with for_each fst snd].
    destruct (lookup_lt_is_Some_2 vv v) as [x Hx]; [apply Hl; by left|].
    destruct (row_edge_ok k 0.5) as (f & _ & Hlo & Hlo'); [lia|].
    destruct (row_edge_ok k 1.5) as (f' & _ & Hhi & Hhi'); [lia|].
    rewrite (bind_run _ _ _ tt
               (mkState ss pp sm nn vv cl
                  (lg ++ [EvAsNumpy v;
                          EvVlines (vec_data x) (row_edge k 0.5) (row_edge k 1.5)]))).
    + rewrite IH; [|intros w Hw; apply Hl; by right|lia|lia].
      cbn [plot_rows]. rewrite Hx. cbn [fmap option_fmap option_map default].
      replace (Z.succ k) with (k + 1)%Z by lia.
      by rewrite <- app_assoc.
    + rewrite (bind_run _ _ _ _ _ (run_as_numpy v x ss pp sm nn vv cl lg Hx)).
      rewrite (bind_run _ _ _ _ _ (run_lift _ _ _ Hlo)).
      rewrite (bind_run _ _ _ _ _ (run_lift _ _ _ Hhi)).
      rewrite Hlo', Hhi'. unfold plt_vlines, emit. cbn [secs pps stims ncs vecs cells log].
      by rewrite <- app_assoc.
Qed.

Lemma plot_rows_length vv l : forall k, length (plot_rows vv k l) = 2 * length l.
Proof.
  induction l as [|v l IH]; intros k; [done|].
  cbn [plot_rows length]. rewrite IH. lia.
Qed.

Lemma plot_rows_lookup vv l : forall k i v,
  l !! i = Some v ->
  plot_rows vv k l !! (2 * i) = Some (EvAsNumpy v) /\
  plot_rows vv k l !! S (2 * i)
  = Some (EvVlines (default [] (vec_data <$> vv !! v))
            (row_edge (k + Z.of_nat i) 0.5) (row_edge (k + Z.of_nat i) 1.5)).
Proof.
  induction l as [|w l IH]; intros k i v Hi; [done|].
  destruct i as [|i]; cbn in Hi.
  - injection Hi as ->. cbn. by rewrite Z.add_0_r.
  - destruct (IH (k + 1)%Z i v Hi) as [H1 H2].
    replace (2 * S i) with (S (S (2 * i))) by lia. cbn [plot_rows lookup list_lookup].
    replace (k + Z.of_nat (S i))%Z with (k + 1 + Z.of_nat i)%Z by lia.
    by split.
Qed.

(** Lines 122-127 for any list of existing vectors: the plot cannot fail
    and changes no object.  It opens a figure, then reads the vectors once
    each, in the order of the list, and draws the contents of vector [i]
    as vertical lines from [i + 0.5] to [i + 1.5], so that row [i] is
    centred on [i + 1]; it ends with the two axis labels and [show]. *)
Theorem plot_spec (env : Env) (st : State) :
  (forall v, v ∈ spike_times env -> v < length (vecs st)) ->
  (Z.of_nat (length (spike_times env)) <= float_int_bound)%Z ->
  exists st' rows,
    plot env st = Ret (tt, st') /\
    same_objects st st' /\
    log st' = log st ++ EvFigure :: rows
              ++ [EvXlabel "time (ms)"; EvYlabel "Cell index"; EvShow] /\
    length rows = 2 * length (spike_times env) /\
    forall i v x,
      spike_times env !! i = Some v -> vecs st !! v = Some x ->
      exists f,
        float_of_int (Z.of_nat i) = Ret f /\
        rows !! (2 * i) = Some (EvAsNumpy v) /\
        rows !! S (2 * i)
        = Some (EvVlines (vec_data x) (PFloat (f + 0.5)) (PFloat (f + 1.5))).
Proof.
  intros Hv Hb. destruct st as [ss pp sm nn vv cl lg]. cbn [vecs log] in *.
  exists (mkState ss pp sm nn vv cl
            (lg ++ EvFigure :: plot_rows vv 0 (spike_times env)
             ++ [EvXlabel "time (ms)"; EvYlabel "Cell index"; EvShow])),
         (plot_rows vv 0 (spike_times env)).
  split; [|split; [done|split; [done|split; [apply plot_rows_length|]]]].
  - unfold plot, enumerate.
    rewrite (bind_run _ _ _ tt (mkState ss pp sm nn vv cl (lg ++ [EvFigure])))
      by reflexivity.
    rewrite (bind_run _ _ _ tt _
               (run_plot_rows (spike_times env) 0 ss pp sm nn vv cl _ Hv
                  ltac:(lia) ltac:(lia))).
    unfold plt_xlabel, plt_ylabel, plt_show, emit, mbind, Py_bind.
    cbn [secs pps stims ncs vecs cells log].
    by rewrite <- !app_assoc.
  - intros i v x Hi Hx.
    destruct (plot_rows_lookup vv (spike_times env) 0 i v Hi) as [H1 H2].
    apply lookup_lt_Some in Hi as Hlt.
    destruct (row_edge_ok (Z.of_nat i) 0.5) as (f & Hf & _ & Hlo); [lia|].
    destruct (row_edge_ok (Z.of_nat i) 1.5) as (f' & Hf' & _ & Hhi); [lia|].
    rewrite Hf in Hf'. injection Hf' as <-.
    exists f. split; [done|]. split; [done|].
    rewrite Z.add_0_l, Hx, Hlo, Hhi in H2. exact H2.
Qed.

Lemma plot_spec_witness :
  exists st' rows,
    plot script_env (setup_state demo_engine (fun _ => []) (fun _ => PInt 0) (fun _ => PInt 0))
    = Ret (tt, st') /\
    same_objects (setup_state demo_engine (fun _ => []) (fun _ => PInt 0) (fun _ => PInt 0)) st' /\
    log st'
    = log (setup_state demo_engine (fun _ => []) (fun _ => PInt 0) (fun _ => PInt 0))
      ++ EvFigure :: rows ++ [EvXlabel "time (ms)"; EvYlabel "Cell index"; EvShow] /\
    length rows = 2 * length (spike_times script_env) /\
    forall i v x,
      spike_times script_env !! i = Some v ->
      vecs (setup_state demo_engine (fun _ => []) (fun _ => PInt 0) (fun _ => PInt 0)) !! v = Some x ->
      exists f,
        float_of_int (Z.of_nat i) = Ret f /\
        rows !! (2 * i) = Some (EvAsNumpy v) /\
        rows !! S (2 * i)
        = Some (EvVlines (vec_data x) (PFloat (f + 0.5)) (PFloat (f + 1.5))).
Proof.
  apply (plot_spec script_env
           (setup_state demo_engine (fun _ => []) (fun _ => PInt 0) (fun _ => PInt 0))).
  - intros v Hv. cbn in Hv.
    repeat (apply elem_of_cons in Hv as [->|Hv]; [cbn; lia|]).
    by apply elem_of_nil in Hv.
  - by vm_compute.
Defined.
(** ** The printed form of a cell *)

Lemma append_inj_r (a b : string) (c : Ascii.ascii) :
  a +:+ String c "" = b +:+ String c "" -> a = b.
Proof.
  revert b. induction a as [|x a IH]; intros [|y b] H; cbn in H.
  - done.
  - injection H as _ H. by destruct b.
  - injection H as _ H. by destruct a.
  - injection H as -> H. f_equal. by apply IH.
Qed.

Lemma int_str_small z :
  (Z.abs z < 10 ^ max_str_digits)%Z -> int_str z = Ret (pretty z).
Proof. intros H. unfold int_str. apply Z.ltb_lt in H. by rewrite H. Qed.

Lemma int_str_long z :
  (10 ^ max_str_digits <= Z.abs z)%Z -> int_str z = Exc ValueError.
Proof. intros H. unfold int_str. apply Z.ltb_ge in H. by rewrite H. Qed.

Lemma run_Cell_repr fs cls self st v s :
  id_of st self = Some v ->
  py_str fs v = Ret s ->
  Cell_repr fs cls self st = Ret (cls_name cls +:+ "(id:" +:+ s +:+ ")", st).
Proof.
  unfold id_of. destruct (cells st !! self) as [cell|] eqn:Hc; [|done].
  cbn. intros Hv Hs. unfold Cell_repr.
  rewrite (bind_run _ _ _ _ _ (run_getattr c_id self st cell v Hc Hv)).
  by rewrite (bind_run _ _ _ _ _ (run_lift _ _ st Hs)).
Qed.

(** An integer id of more than [max_str_digits] digits cannot be printed:
    [repr] raises [ValueError]. *)
Lemma Cell_repr_long_id fs cls self st z :
  id_of st self = Some (PInt z) ->
  (10 ^ max_str_digits <= Z.abs z)%Z ->
  Cell_repr fs cls self st = Exc ValueError.
Proof.
  unfold id_of. destruct (cells st !! self) as [cell|] eqn:Hc; [|done].
  cbn. intros Hv Hz. unfold Cell_repr.
  rewrite (bind_run _ _ _ _ _ (run_getattr c_id self st cell _ Hc Hv)).
  unfold py_str. by rewrite (int_str_long z Hz).
Qed.

(** [repr] of two cells with integer ids of at most [max_str_digits]
    decimal digits, the most Python converts to text: it cannot fail, it
    changes nothing, and the two texts are equal exactly when the ids
    are. *)
Theorem Cell_repr_tells_ids_apart (fs : float -> string) (cls : CellClass)
    (st : State) (c1 c2 : nat) (z1 z2 : Z) :
  id_of st c1 = Some (PInt z1) ->
  id_of st c2 = Some (PInt z2) ->
  (Z.abs z1 < 10 ^ max_str_digits)%Z ->
  (Z.abs z2 < 10 ^ max_str_digits)%Z ->
  exists s1 s2,
    Cell_repr fs cls c1 st = Ret (s1, st) /\
    Cell_repr fs cls c2 st = Ret (s2, st) /\
    (s1 = s2 <-> z1 = z2).
Proof.
  intros H1 H2 Hz1 Hz2. exists (cls_name cls +:+ "(id:" +:+ pretty z1 +:+ ")"),
                               (cls_name cls +:+ "(id:" +:+ pretty z2 +:+ ")").
  split; [apply (run_Cell_repr _ _ _ _ _ _ H1), int_str_small, Hz1|].
  split; [apply (run_Cell_repr _ _ _ _ _ _ H2), int_str_small, Hz2|].
  split; [|by intros ->].
  intros H. apply (inj (String.append _)) in H. apply (inj (String.append _)) in H.
  apply append_inj_r in H. by apply (inj pretty).
Qed.

Lemma float_int_bound_digits : (float_int_bound < 10 ^ max_str_digits)%Z.
Proof. apply Z.ltb_lt. vm_compute. reflexivity. Qed.

Section ReprOfRing.
Context (E : Engine).

(** The cells of one call of [create_n_BallAndStick] print as
    [BallAndStick(id:0)], [BallAndStick(id:1)], ... in the order of the
    returned list. *)
Theorem create_n_BallAndStick_repr (fs : float -> string) (n_cells : Z)
    (r : pynum) (rf : float) (st : State) :
  parents_valid (secs st) ->
  (0 <= n_cells)%Z ->
  (2 * n_cells < float_int_bound)%Z ->
  to_float r = Ret rf ->
  exists cs st',
    create_n_BallAndStick E n_cells r st = Ret (cs, st') /\
    length cs = Z.to_nat n_cells /\
    forall i c, cs !! i = Some c ->
      Cell_repr fs BallAndStick_class c st'
      = Ret ("BallAndStick(id:" +:+ pretty (Z.of_nat i) +:+ ")", st').
Proof.
  intros Hst Hn Hb Hr.
  destruct (run_create_loop E n_cells r rf (seqZ 0 n_cells) Hr Hb)
    with (acc := @nil nat) (st := st)
    as (cs & st' & _ & Hrun & _ & _ & Hcs & _ & _ & Hat); [|done|].
  { apply Forall_seqZ. intros i Hi. lia. }
  rewrite length_seqZ in Hcs.
  exists cs, st'. split; [exact Hrun|]. split; [by rewrite Hcs, length_seq|].
  intros i c Hi. rewrite Hcs in Hi. apply lookup_seq in Hi as [-> Hlt].
  destruct (Hat i (Z.of_nat i)) as (cell & theta & Hcell & _ & Hid & _).
  { rewrite lookup_seqZ. lia. }
  rewrite (run_Cell_repr fs BallAndStick_class _ st' (PInt (Z.of_nat i))
             (pretty (Z.of_nat i))).
  - reflexivity.
  - unfold id_of. by rewrite Hcell.
  - apply int_str_small. pose proof float_int_bound_digits. lia.
Qed.

End ReprOfRing.

Lemma create_n_BallAndStick_repr_witness :
  exists cs st',
    create_n_BallAndStick demo_engine 5 (PInt 50) init_state = Ret (cs, st') /\
    length cs = Z.to_nat 5 /\
    forall i c, cs !! i = Some c ->
      Cell_repr (fun _ => "nan") BallAndStick_class c st'
      = Ret ("BallAndStick(id:" +:+ pretty (Z.of_nat i) +:+ ")", st').
Proof.
  apply (create_n_BallAndStick_repr demo_engine (fun _ => "nan") 5 (PInt 50) 50%float
           init_state).
  - exact parents_valid_nil.
  - lia.
  - by vm_compute.
  - by vm_compute.
Defined.

Lemma Cell_repr_tells_ids_apart_witness :
  exists s1 s2,
    Cell_repr (fun _ => "nan") BallAndStick_class 1 demo_built = Ret (s1, demo_built) /\
    Cell_repr (fun _ => "nan") BallAndStick_class 3 demo_built = Ret (s2, demo_built) /\
    (s1 = s2 <-> 1%Z = 3%Z).
Proof.
  apply (Cell_repr_tells_ids_apart (fun _ => "nan") BallAndStick_class demo_built 1 3 1 3).
  - vm_compute. reflexivity.
  - vm_compute. reflexivity.
  - apply Z.ltb_lt. vm_compute. reflexivity.
  - apply Z.ltb_lt. vm_compute. reflexivity.
Defined.
(** ** Cells, ring and recordings for any number of cells *)

Lemma appended_cells_wired E st st' new j :
  cells_appended E st st' new ->
  j < length new ->
  soma_of st' (length (cells st) + j) = Some (length (secs st) + 2 * j) /\
  dend_of st' (length (cells st) + j) = Some (S (length (secs st) + 2 * j)) /\
  S (length (secs st) + 2 * j) < length (secs st').
Proof.
  intros (Hcells & Hlen & Hnew) Hj.
  destruct (lookup_lt_is_Some_2 new j Hj) as [cell Hcell].
  destruct (Hnew j cell Hcell) as (id_ & x & y & z & pa & pb & -> & _).
  unfold soma_of, dend_of. rewrite Hcells, lookup_app_plus, Hcell.
  split; [done|]. split; [done|]. lia.
Qed.

Lemma ring_neighbour_differs n i : 2 <= n -> i < n -> S i mod n <> i.
Proof.
  intros Hn Hi. destruct (decide (S i < n)) as [Hlt|Hge].
  - rewrite Nat.mod_small by done. lia.
  - replace (S i) with n by lia. rewrite Nat.Div0.mod_same. lia.
Qed.

Section Network.
Context (E : Engine).

(** The three steps of the script that build the ring, for any number of
    cells from one on and from any well-formed state:
    [create_n_BallAndStick], the connection loop on the cells it returns,
    and the spike recordings on the connections the loop returns.  None of
    them can fail.  There are as many synapses, connections and spike
    vectors as cells; position [i] of the lists holds the connection from
    the soma of cell [i] to its synapse on the dendrite of cell
    [(i + 1) mod n], recording into its own empty vector; and from two
    cells on, no connection ends on the cell it starts from. *)
Theorem ring_network_of_any_size (n_cells : Z) (r : pynum) (rf : float)
    (st : State) :
  parents_valid (secs st) ->
  (1 <= n_cells)%Z ->
  (2 * n_cells < float_int_bound)%Z ->
  to_float r = Ret rf ->
  exists cs st1 sy nc st2 vs st3,
    create_n_BallAndStick E n_cells r st = Ret (cs, st1) /\
    connect_ring cs st1 = Ret ((sy, nc), st2) /\
    record_spikes nc st2 = Ret (vs, st3) /\
    length cs = Z.to_nat n_cells /\ NoDup cs /\
    length sy = length cs /\ length nc = length cs /\ length vs = length cs /\
    ring_network cs sy nc vs st3 /\
    ((2 <= n_cells)%Z ->
     forall i src tgt, cs !! i = Some src ->
                       cs !! (S i mod length cs) = Some tgt -> src <> tgt).
Proof.
  intros Hst Hn Hb Hr.
  destruct (create_n_run E n_cells r rf st Hst ltac:(lia) Hb Hr)
    as (st1 & new & Hrun1 & Hlen & Happ & Hnet & _).
  set (n := Z.to_nat n_cells) in *.
  set (cs := seq (length (cells st)) n) in *.
  assert (length cs = n) as Hcs by (unfold cs; by rewrite length_seq).
  assert (forall c, c ∈ cs -> wired_cell st1 c) as Hw.
  { intros c [Hlo Hhi]%elem_of_seq.
    destruct (appended_cells_wired E st st1 new (c - length (cells st)) Happ)
      as (Hso & Hde & Hlt); [lia|].
    replace (length (cells st) + (c - length (cells st))) with c in * by lia.
    eexists _, _. split; [exact Hso|]. split; [exact Hde|]. lia. }
  destruct (run_connect_ring cs st1) as (st2 & Hrun2 & Hring); [|done|].
  { intros Hnil. rewrite Hnil in Hcs. cbn in Hcs. lia. }
  destruct Hring as (Hsecs & Hcells & Hstims & Hvecs & (newp & Hpps & Hlp)
                     & (newn & Hncs & Hln) & Hedges).
  rewrite Hcs in *.
  set (nc := seq (length (ncs st1)) n) in *.
  destruct st2 as [ss2 pp2 sm2 nn2 vv2 cl2 lg2]. cbn [secs pps stims ncs vecs cells] in *.
  assert (forall c, c ∈ nc -> c < length nn2) as Hnc.
  { intros c [Hlo Hhi]%elem_of_seq. rewrite Hncs, length_app. lia. }
  pose proof (run_record_spikes nc ss2 pp2 sm2 nn2 vv2 cl2 lg2 Hnc) as Hrun3.
  assert (length nc = n) as Hlnc by (unfold nc; by rewrite length_seq).
  rewrite Hlnc in Hrun3.
  eexists cs, st1, _, nc, _, _, _.
  split; [exact Hrun1|]. split; [exact Hrun2|]. split; [exact Hrun3|].
  split; [done|]. split; [apply NoDup_seq|].
  split; [by rewrite length_seq|]. split; [by rewrite Hlnc|].
  split; [by rewrite length_seq|]. split.
  - intros i src tgt Hsrc Htgt. rewrite Hcs in Htgt.
    apply lookup_lt_Some in Hsrc as Hi. rewrite Hcs in Hi.
    destruct (Hw src) as (so & _ & Hso & _); [by eapply list_elem_of_lookup_2|].
    destruct (Hw tgt) as (_ & de & _ & Hde & _); [by eapply list_elem_of_lookup_2|].
    destruct (Hedges i src tgt so de Hsrc Htgt Hso Hde) as [Hk Hc].
    exists so, de, (length (pps st1) + i), (length (ncs st1) + i), (length vv2 + i).
    unfold soma_of, dend_of in *. cbn [cells pps ncs vecs]. rewrite Hcells.
    split; [exact Hso|]. split; [exact Hde|].
    split; [by apply lookup_seq|]. split; [by apply lookup_seq|].
    split; [by apply lookup_seq|]. split; [exact Hk|]. split.
    + rewrite (record_all_lookup _ (length (ncs st1) + i) (length vv2 + i)).
      * by rewrite Hc.
      * rewrite <- Hlnc. rewrite zip_seq_fst. apply NoDup_seq.
      * rewrite <- Hlnc. apply zip_seq_lookup. by apply lookup_seq.
    + rewrite lookup_app_plus. by apply lookup_replicate_2.
  - intros Hn2 i src tgt Hsrc Htgt. rewrite Hcs in Htgt.
    apply lookup_lt_Some in Hsrc as Hi. rewrite Hcs in Hi.
    apply lookup_seq in Hsrc as [-> _]. apply lookup_seq in Htgt as [-> _].
    pose proof (ring_neighbour_differs n i ltac:(lia) Hi). lia.
Qed.

End Network.

Lemma ring_network_of_any_size_witness :
  exists cs st1 sy nc st2 vs st3,
    create_n_BallAndStick demo_engine 3 (PInt 50) init_state = Ret (cs, st1) /\
    connect_ring cs st1 = Ret ((sy, nc), st2) /\
    record_spikes nc st2 = Ret (vs, st3) /\
    length cs = Z.to_nat 3 /\ NoDup cs /\
    length sy = length cs /\ length nc = length cs /\ length vs = length cs /\
    ring_network cs sy nc vs st3 /\
    ((2 <= 3)%Z ->
     forall i src tgt, cs !! i = Some src ->
                       cs !! (S i mod length cs) = Some tgt -> src <> tgt).
Proof.
  apply (ring_network_of_any_size demo_engine 3 (PInt 50) 50%float init_state).
  - exact parents_valid_nil.
  - lia.
  - by vm_compute.
  - by vm_compute.
Defined.
(** ** The script and the simulator's numerics *)


(** The diameters do depend on the simulator: on one that reads a diameter
    of 1 from any points, the first soma of the script differs from that of
    the demonstration simulator even with the 3-D points set aside. *)
Example script_diameters_depend_on_engine :
  exists env st1 st2,
    script demo_engine init_state = Ret (env, st1) /\
    script (mkEngine (hoc_PI demo_engine) (hoc_cos demo_engine) (hoc_sin demo_engine)
              (shape_of demo_engine) (length_of demo_engine) (fun _ => 1%float)
              (samples_of demo_engine) (spikes_of demo_engine)) init_state
    = Ret (env, st2) /\
    sec_set_pts [] <$> secs st1 <> sec_set_pts [] <$> secs st2.
Proof.
  eexists _, _, _. split; [vm_compute; reflexivity|].
  split; [vm_compute; reflexivity|]. intros H.
  apply (f_equal (fun ss => match ss !! 0 ≫= sec_diam with
                            | Some d => (d <? 5)%float
                            | None => false
                            end)) in H.
  vm_compute in H. discriminate H.
Qed.
